(** * tls_common.c: the socket-option relay of the TLS interception module

    A shallow embedding of [src/tls_common.c].  Kernel memory is a finite map
    from addresses to live objects, the hash table is the list of its nodes,
    and every function of the file is a state transformer that may also end
    in a kernel fault.  What the file takes from outside (the slab allocator,
    user memory, the netlink transport, the completion that the transport
    thread triggers) appears as explicit oracles and as a trace of calls. *)

From stdpp Require Import base option list gmap.
From Stdlib Require Import ZArith Lia.
From Stdlib.Strings Require Import Byte.

Local Open Scope Z_scope.

(** ** Machine integers *)

Module CInt.

(** Conversion to [unsigned int]: reduction modulo 2^32. *)
Definition to_uint (z : Z) : Z := z mod 2 ^ 32.

(** Conversion to [int]: the two's complement reading of the low 32 bits. *)
Definition to_int (z : Z) : Z :=
  let u := z mod 2 ^ 32 in if u <? 2 ^ 31 then u else u - 2 ^ 32.

(** [min_t(unsigned int, a, b)]: both operands are cast first. *)
Definition min_t_uint (a b : Z) : Z := Z.min (to_uint a) (to_uint b).

Definition INT_MIN : Z := - 2 ^ 31.
Definition INT_MAX : Z := 2 ^ 31 - 1.

End CInt.

(** ** Error numbers of [<linux/errno.h>] used by the file *)

Module Errno.
Definition EBADF : Z := 9.
Definition ENOMEM : Z := 12.
Definition EFAULT : Z := 14.
Definition EINVAL : Z := 22.
Definition EOPNOTSUPP : Z := 95.
Definition ENOBUFS : Z := 105.
Definition EISCONN : Z := 106.
End Errno.
Import Errno.

(** The specification's names for the results, as the code returns them. *)
Module Result.
Definition InvalidArgument : Z := - EINVAL.
Definition OutOfMemory : Z := - ENOMEM.
(** Every failed [copy_from_user], [get_user], [put_user] and
    [copy_to_user] of the file returns [-EFAULT]. *)
Definition BadAddress : Z := - EFAULT.
Definition AlreadyConnected : Z := - EISCONN.
Definition BadFileDescriptor : Z := - EBADF.
Definition NotSupported : Z := - EOPNOTSUPP.
Definition NoBufferSpace : Z := - ENOBUFS.
End Result.

(** ** Characters *)

Definition MAX_HOST_LEN : Z := 255.

(** [isalnum] of [<linux/ctype.h>]: the [_U|_L|_D] entries of the kernel's
    [_ctype] table, indexed by the character read as [unsigned char].  The
    table classifies Latin-1, so the letters above 191 count as well. *)
Definition isalnum (c : byte) : bool :=
  let n := Byte.to_N c in
  (((48 <=? n) && (n <=? 57)) || ((65 <=? n) && (n <=? 90))
   || ((97 <=? n) && (n <=? 122)) || ((192 <=? n) && (n <=? 214))
   || ((216 <=? n) && (n <=? 246)) || (248 <=? n))%N.

Definition NUL : byte := x00.
Definition hyphen : byte := x2d.
Definition dot : byte := x2e.

(** The test of the loop body of [is_valid_host_string]:
    [!isalnum(c) && c != '-' && c != '.']. *)
Definition bad_host_char (c : byte) : bool :=
  negb (isalnum c) && negb (Byte.eqb c hyphen) && negb (Byte.eqb c dot).

(** ** The hostname validator *)

(** The loop [for (i = 0; i < len-1; i++)], started at index [i] with [n]
    iterations left.  [None] is a read past the end of the buffer,
    [Some false] the early [return 0]. *)
Fixpoint host_loop (str : list byte) (i n : nat) : option bool :=
  match n with
  | O => Some true
  | S n' =>
      match str !! i with
      | None => None
      | Some c => if bad_host_char c then Some false else host_loop str (S i) n'
      end
  end.

(** [is_valid_host_string(str, len)]; the result is the C [int], 1 or 0.
    [None] is a read outside [str], which the C code performs when [len]
    is not the length of a buffer of at least one byte. *)
Definition is_valid_host_string (str : list byte) (len : Z) : option Z :=
  match host_loop str 0 (Z.to_nat (len - 1)) with
  | None => None
  | Some false => Some 0
  | Some true =>
      if len - 1 <? 0 then None
      else match str !! Z.to_nat (len - 1) with
           | None => None
           | Some c => if Byte.eqb c NUL then Some 1 else Some 0
           end
  end.

(** The specification's reading of a valid host string: every byte except
    the last is alphanumeric, a hyphen or a dot, and the last byte is the
    terminator. *)
Definition host_char (c : byte) : Prop :=
  isalnum c = true \/ c = hyphen \/ c = dot.

Definition host_string_ok (str : list byte) : Prop :=
  exists body, str = body ++ [NUL] /\ Forall host_char body.

(** ** Kernel memory *)

(** A kernel address.  The three kinds of pointer values the file handles:
    [NULL], the slab allocator's [ZERO_SIZE_PTR] (what a request for zero
    bytes returns: not [NULL], and not to be dereferenced), and the address
    of an object. *)
Definition loc := positive.

Inductive ptr := NULL | ZERO_SIZE_PTR | Addr (l : loc).

(** [struct completion]: the counter [done] that [complete] increments and
    a successful wait decrements. *)
Record completion := Completion { done : nat }.

(** [tls_sock_data_t], the fields [tls_common.c] reads or writes.  The
    node [hash] is the object's membership in the table below. *)
Record tls_sock_data := SockData {
  key : Z;
  daemon_id : Z;
  hostname : ptr;
  is_connected : Z;
  response : Z;
  rdata : ptr;
  rdata_len : Z;
  sock_event : completion
}.

(** Calls that leave the file, in the order they are made. *)
Inductive event :=
| Ev_register_netlink
| Ev_unregister_netlink
| Ev_printk
| Ev_send_setsockopt_notification
    (sock level optname : Z) (koptval : list byte) (optlen : Z) (daemon : Z)
| Ev_send_getsockopt_notification (sock level optname : Z) (daemon : Z)
| Ev_orig_setsockopt
    (sock level optname : Z) (optval : option (list byte)) (optlen : Z)
| Ev_orig_getsockopt (sock level optname : Z).

(** The state the file runs in.
    - [tls_sock_data_table]: the nodes of the hash table, most recently
      added first.  [hash_add] puts a node at the head of its bucket and a
      node is filed under its own [key], so walking the bucket of a key
      meets the nodes with that key in the order of this list.
    - [socks]: the live [tls_sock_data_t] objects.
    - [slab]: the live byte buffers obtained from [kmalloc]/[krealloc].
    - [optval_mem], [optlen_mem]: user memory behind the [optval] and
      [optlen] arguments of a [getsockopt] call: the writable bytes at
      [optval], and the [int] at [optlen] ([None] when that address is
      not accessible).
    - [trace]: the external calls made so far, newest first. *)
Record state := State {
  tls_sock_data_table : list loc;
  socks : gmap loc tls_sock_data;
  slab : gmap loc (list byte);
  optval_mem : list byte;
  optlen_mem : option Z;
  trace : list event
}.

Inductive fault :=
| NullDereference
| OutOfBounds
| UseAfterFree
| DoubleFree.

(** The result of running a function: it returns [a] in state [s], or the
    kernel faults. *)
Inductive outcome (A : Type) :=
| Done (a : A) (s : state)
| Oops (f : fault).
Arguments Done {A} a s.
Arguments Oops {A} f.

Definition M (A : Type) : Type := state -> outcome A.

#[global] Instance M_ret : MRet M := fun A a s => Done a s.
#[global] Instance M_bind : MBind M := fun A B f m s =>
  match m s with
  | Done a s' => f a s'
  | Oops e => Oops e
  end.

Definition oops {A} (e : fault) : M A := fun _ => Oops e.
Definition get_state : M state := fun s => Done s s.
Definition modify (f : state -> state) : M unit := fun s => Done tt (f s).

Definition set_table (t : list loc) (s : state) : state :=
  State t (socks s) (slab s) (optval_mem s) (optlen_mem s) (trace s).
Definition set_socks (m : gmap loc tls_sock_data) (s : state) : state :=
  State (tls_sock_data_table s) m (slab s) (optval_mem s) (optlen_mem s) (trace s).
Definition set_slab (m : gmap loc (list byte)) (s : state) : state :=
  State (tls_sock_data_table s) (socks s) m (optval_mem s) (optlen_mem s) (trace s).
Definition set_optval_mem (b : list byte) (s : state) : state :=
  State (tls_sock_data_table s) (socks s) (slab s) b (optlen_mem s) (trace s).
Definition set_optlen_mem (v : option Z) (s : state) : state :=
  State (tls_sock_data_table s) (socks s) (slab s) (optval_mem s) v (trace s).
Definition log (e : event) (s : state) : state :=
  State (tls_sock_data_table s) (socks s) (slab s) (optval_mem s) (optlen_mem s)
        (e :: trace s).

Definition emit (e : event) : M unit := modify (log e).

(** Field updates of a [tls_sock_data_t]. *)
Definition with_hostname (p : ptr) (r : tls_sock_data) : tls_sock_data :=
  SockData (key r) (daemon_id r) p (is_connected r) (response r) (rdata r)
           (rdata_len r) (sock_event r).
Definition with_response (v : Z) (r : tls_sock_data) : tls_sock_data :=
  SockData (key r) (daemon_id r) (hostname r) (is_connected r) v (rdata r)
           (rdata_len r) (sock_event r).
Definition with_rdata (p : ptr) (r : tls_sock_data) : tls_sock_data :=
  SockData (key r) (daemon_id r) (hostname r) (is_connected r) (response r) p
           (rdata_len r) (sock_event r).
Definition with_rdata_len (n : Z) (r : tls_sock_data) : tls_sock_data :=
  SockData (key r) (daemon_id r) (hostname r) (is_connected r) (response r)
           (rdata r) n (sock_event r).
Definition with_sock_event (c : completion) (r : tls_sock_data) : tls_sock_data :=
  SockData (key r) (daemon_id r) (hostname r) (is_connected r) (response r)
           (rdata r) (rdata_len r) c.

(** Reading and writing through a [tls_sock_data_t*]: the object has to be
    live. *)
Definition load (p : loc) : M tls_sock_data := fun s =>
  match socks s !! p with
  | Some r => Done r s
  | None => Oops UseAfterFree
  end.

Definition store (p : loc) (f : tls_sock_data -> tls_sock_data) : M unit :=
  r ← load p; modify (fun s => set_socks (<[p := f r]> (socks s)) s).

(** ** The slab allocator *)

(** What the allocator does with a request is not decided by the file: it
    fails, or it hands out memory whose bytes are whatever they were. *)
Inductive alloc := AllocFail | AllocOk (junk : list byte).

(** [n] bytes of uninitialised memory with previous contents [junk]. *)
Definition uninit (n : nat) (junk : list byte) : list byte :=
  take n (junk ++ replicate n x00).

(** A new buffer with contents [b], at an address that holds no live
    buffer. *)
Definition new_buffer (b : list byte) : M ptr := fun s =>
  let l := fresh (dom (slab s)) in
  Done (Addr l) (set_slab (<[l := b]> (slab s)) s).

(** [kmalloc(size, GFP_KERNEL)].  A request for zero bytes returns
    [ZERO_SIZE_PTR]. *)
Definition kmalloc (size : Z) (o : alloc) : M ptr :=
  if size =? 0 then mret ZERO_SIZE_PTR
  else match o with
       | AllocFail => mret NULL
       | AllocOk junk => new_buffer (uninit (Z.to_nat size) junk)
       end.

(** [kfree(p)] for a byte buffer: nothing for [NULL] and [ZERO_SIZE_PTR]. *)
Definition kfree (p : ptr) : M unit :=
  match p with
  | NULL | ZERO_SIZE_PTR => mret tt
  | Addr l => fun s =>
      match slab s !! l with
      | Some _ => Done tt (set_slab (delete l (slab s)) s)
      | None => Oops DoubleFree
      end
  end.

(** [kfree(it)] for a [tls_sock_data_t]. *)
Definition kfree_sock (p : loc) : M unit :=
  _ ← load p; modify (fun s => set_socks (delete p (socks s)) s).

(** The bytes of the buffer [p] points to. *)
Definition buffer (p : ptr) : M (list byte) :=
  match p with
  | NULL | ZERO_SIZE_PTR => oops NullDereference
  | Addr l => fun s =>
      match slab s !! l with
      | Some b => Done b s
      | None => Oops UseAfterFree
      end
  end.

(** [krealloc(p, size, GFP_KERNEL)]: the buffer's size becomes [size] and
    its contents are kept up to the lesser of the old and new sizes.  Size
    zero frees [p] and returns [ZERO_SIZE_PTR]; on failure the result is
    [NULL] and [p] stays as it was. *)
Definition krealloc (p : ptr) (size : Z) (o : alloc) : M ptr :=
  if size =? 0 then _ ← kfree p; mret ZERO_SIZE_PTR
  else match o with
       | AllocFail => mret NULL
       | AllocOk junk =>
           old ← match p with
                 | NULL | ZERO_SIZE_PTR => mret []
                 | Addr _ => buffer p
                 end;
           _ ← kfree p;
           new_buffer (take (Z.to_nat size) (old ++ uninit (Z.to_nat size) junk))
       end.

(** [memcpy(dst, src, n)] from a kernel buffer with contents [src]. *)
Definition memcpy (dst : ptr) (src : list byte) (n : Z) : M unit :=
  if n =? 0 then mret tt
  else if Z.of_nat (length src) <? n then oops OutOfBounds
  else match dst with
       | NULL | ZERO_SIZE_PTR => oops NullDereference
       | Addr l => fun s =>
           match slab s !! l with
           | None => Oops UseAfterFree
           | Some b =>
               if Z.of_nat (length b) <? n then Oops OutOfBounds
               else Done tt (set_slab (<[l := take (Z.to_nat n) src
                                                ++ drop (Z.to_nat n) b]> (slab s)) s)
           end
       end.

(** [strnlen(p, maxlen)] on the buffer [b] at [p]: the index of the first
    terminator among the first [maxlen] bytes, [maxlen] if there is none;
    [None] when the scan leaves the buffer first. *)
Fixpoint strnlen (b : list byte) (maxlen : nat) {struct maxlen} : option nat :=
  match maxlen with
  | O => Some O
  | S m =>
      match b with
      | [] => None
      | c :: b' => if Byte.eqb c NUL then Some O else S <$> strnlen b' m
      end
  end.

(** ** User memory *)

(** [get_user(len, optlen)]: the value read, or [None] for a fault. *)
Definition get_user_optlen : M (option Z) := fun s => Done (optlen_mem s) s.

(** [*len] on the user pointer without [get_user]. *)
Definition deref_optlen : M Z := fun s =>
  match optlen_mem s with
  | Some v => Done v s
  | None => Oops NullDereference
  end.

(** [put_user(v, optlen)] and [*len = v]: [true] when the store faults. *)
Definition put_user_optlen (v : Z) : M bool := fun s =>
  match optlen_mem s with
  | Some _ => Done false (set_optlen_mem (Some v) s)
  | None => Done true s
  end.

(** [*len = v] on the user pointer. *)
Definition assign_optlen (v : Z) : M unit := fun s =>
  match optlen_mem s with
  | Some _ => Done tt (set_optlen_mem (Some v) s)
  | None => Oops NullDereference
  end.

(** [copy_to_user(optval, src, n)] with [src] the bytes of the kernel
    object copied from; [n] arrives as an [unsigned long].  [true] when not
    all [n] bytes could be written to user memory (those that fit are). *)
Definition copy_to_user_optval (src : list byte) (n : Z) : M bool := fun s =>
  let k := Z.to_nat (n mod 2 ^ 64) in
  let room := length (optval_mem s) in
  if (k <=? room)%nat
  then if (length src <? k)%nat then Oops OutOfBounds
       else Done false (set_optval_mem (take k src ++ drop k (optval_mem s)) s)
  else Done true (set_optval_mem
                    (take room src ++ drop (length (take room src)) (optval_mem s)) s).

(** The same from a slab buffer.  Nothing is read for a length of zero. *)
Definition copy_to_user_from (p : ptr) (n : Z) : M bool :=
  if n mod 2 ^ 64 =? 0 then mret false
  else b ← buffer p; copy_to_user_optval b n.

(** ** The registry *)

(** The walk of [hash_for_each_possible] with the test of
    [get_tls_sock_data]. *)
Fixpoint find_sock (nodes : list loc) (k : Z) : M (option loc) :=
  match nodes with
  | [] => mret None
  | it :: rest =>
      r ← load it;
      if key r =? k then mret (Some it) else find_sock rest k
  end.

Definition get_tls_sock_data (k : Z) : M (option loc) :=
  s ← get_state; find_sock (tls_sock_data_table s) k.

Definition hash_add (node : loc) : M unit :=
  modify (fun s => set_table (node :: tls_sock_data_table s) s).

Definition hash_del (node : loc) : M unit :=
  modify (fun s => set_table (filter (fun x => x <> node) (tls_sock_data_table s)) s).

Definition put_tls_sock_data (k : Z) (node : loc) : M unit := hash_add node.


Definition tls_setup : M unit :=
  _ ← emit Ev_register_netlink;
  modify (set_table []).

(** The body of the [hash_for_each_safe] loop of [tls_cleanup], over the
    nodes the table holds when the loop starts. *)
Fixpoint cleanup_loop (nodes : list loc) : M unit :=
  match nodes with
  | [] => mret tt
  | it :: rest =>
      r ← load it;
      _ ← hash_del it;
      _ ← kfree (hostname r);
      _ ← kfree_sock it;
      cleanup_loop rest
  end.

Definition tls_cleanup : M unit :=
  s ← get_state;
  _ ← cleanup_loop (tls_sock_data_table s);
  emit Ev_unregister_netlink.

(** ** The response sink *)

(** [complete(&sock_data->sock_event)]. *)
Definition complete (p : loc) : M unit :=
  store p (fun r => with_sock_event (Completion (S (done (sock_event r)))) r).

Definition report_return (k : Z) (ret : Z) : M unit :=
  sock_data ← get_tls_sock_data k;
  match sock_data with
  | None => mret tt
  | Some sd =>
      _ ← store sd (with_response ret);
      complete sd
  end.

Definition report_data_return (k : Z) (data : list byte) (len : Z) (o : alloc)
  : M unit :=
  sock_data ← get_tls_sock_data k;
  match sock_data with
  | None => mret tt
  | Some sd =>
      p ← kmalloc len o;
      _ ← store sd (with_rdata p);
      _ ← match p with
          | NULL => emit Ev_printk
          | _ => mret tt
          end;
      _ ← memcpy p data len;
      _ ← store sd (with_rdata_len len);
      _ ← store sd (with_response 0);
      complete sd
  end.

(** What the transport thread may do while a caller waits. *)
Inductive sink_call :=
| Report_return (k ret : Z)
| Report_data_return (k : Z) (data : list byte) (len : Z) (o : alloc).

Definition run_sink (c : sink_call) : M unit :=
  match c with
  | Report_return k ret => report_return k ret
  | Report_data_return k data len o => report_data_return k data len o
  end.

Fixpoint run_sinks (cs : list sink_call) : M unit :=
  match cs with
  | [] => mret tt
  | c :: cs' => _ ← run_sink c; run_sinks cs'
  end.

(** [wait_for_completion_timeout(&sock_data->sock_event, RESPONSE_TIMEOUT)]
    with [arrivals] the sink calls the transport thread makes before the
    timeout expires.  The result is the C one: 0 for a timeout, and
    otherwise positive, with one completion consumed. *)
Definition wait_for_completion_timeout (p : loc) (arrivals : list sink_call)
  : M Z :=
  _ ← run_sinks arrivals;
  r ← load p;
  match done (sock_event r) with
  | O => mret 0
  | S n => _ ← store p (with_sock_event (Completion n)); mret 1
  end.

(** ** Option names *)

(** The option names come from [socktls.h], which is not part of the file.
    They are parameters; all that is used of them is that the labels of one
    [switch] are distinct, which C requires. *)
Class socktls := {
  SO_HOSTNAME : Z;
  SO_PEER_CERTIFICATE : Z;
  SO_CERTIFICATE_CHAIN : Z;
  SO_PRIVATE_KEY : Z;
  SO_ID : Z;
  setsockopt_labels : NoDup [SO_HOSTNAME; SO_CERTIFICATE_CHAIN; SO_PRIVATE_KEY];
  getsockopt_labels : NoDup [SO_HOSTNAME; SO_ID; SO_PEER_CERTIFICATE]
}.

(** The native handlers a dispatcher may fall back to.  A native
    [setsockopt] gives its result; a native [getsockopt] also rewrites the
    user memory behind [optval] and [optlen]. *)
Definition setsockopt_t : Type :=
  Z -> Z -> Z -> option (list byte) -> Z -> Z.
Definition getsockopt_t : Type :=
  Z -> Z -> Z -> list byte -> option Z -> Z * (list byte * option Z).

(** ** Hostname and identifier *)

Definition set_hostname (sock_data : loc) (optval : list byte) (len : Z)
    (o : alloc) : M Z :=
  r ← load sock_data;
  if is_connected r =? 1 then mret (- EISCONN)
  else if MAX_HOST_LEN <? len then mret (- EINVAL)
  else
    p ← krealloc (hostname r) len o;
    _ ← store sock_data (with_hostname p);
    match p with
    | NULL => mret (- ENOMEM)
    | _ =>
        match is_valid_host_string optval len with
        | None => oops OutOfBounds
        | Some v =>
            if v =? 0 then mret (- EINVAL)
            else _ ← memcpy p optval len; mret 0
        end
    end.

Definition get_hostname (sock : Z) : M Z :=
  data ← get_tls_sock_data sock;
  match data with
  | None => mret (- EBADF)
  | Some d =>
      r ← load d;
      match hostname r with
      | NULL => mret (- EFAULT)
      | h =>
          b ← buffer h;
          match strnlen b (Z.to_nat MAX_HOST_LEN) with
          | None => oops OutOfBounds
          | Some n =>
              let hostname_len := Z.of_nat n + 1 in
              cap ← deref_optlen;
              if cap <? hostname_len then mret (- EINVAL)
              else
                failed ← copy_to_user_from h hostname_len;
                if (failed : bool) then mret (- EFAULT)
                else _ ← assign_optlen hostname_len; mret 0
          end
      end
  end.

(** [sizeof(sock)], the width of a pointer, on a 64-bit kernel. *)
Definition sizeof_sock : Z := 8.

Definition byte_of_Z (z : Z) : byte :=
  match Byte.of_N (Z.to_N (z mod 256)) with
  | Some b => b
  | None => x00
  end.

(** The bytes of the pointer value [sock] as they lie in memory, least
    significant first. *)
Definition pointer_bytes (sock : Z) : list byte :=
  map (fun i => byte_of_Z (Z.shiftr sock (8 * Z.of_nat i)))
      (seq 0 (Z.to_nat sizeof_sock)).

Definition get_id (sock : Z) : M Z :=
  v ← get_user_optlen;
  match v with
  | None => mret (- EFAULT)
  | Some len =>
      let len := CInt.to_int (CInt.min_t_uint len sizeof_sock) in
      failed ← put_user_optlen len;
      if (failed : bool) then mret (- EFAULT)
      else
        failed ← copy_to_user_optval (pointer_bytes sock) len;
        if (failed : bool) then mret (- EFAULT) else mret 0
  end.

(** ** The dispatchers *)

Section Dispatchers.

Context {opts : socktls}.

(** The two error exits of the payload path of [tls_common_getsockopt]
    share these statements. *)
Definition drop_rdata (sock_data : loc) : M unit :=
  r ← load sock_data;
  _ ← kfree (rdata r);
  _ ← store sock_data (with_rdata NULL);
  store sock_data (with_rdata_len 0).

(** [tls_common_setsockopt].  [optval] is the user buffer: [None] for a
    null pointer, else the bytes readable there.  [koptval] lives for the
    call only and is freed on every path out of it; it is kept as a
    value, with [o_copy] deciding whether its allocation succeeds.
    [o_host] is the outcome of the [krealloc] in [set_hostname] and
    [arrivals] what the transport thread delivers during the wait. *)
Definition tls_common_setsockopt (sock_data : loc) (sock level optname : Z)
    (optval : option (list byte)) (optlen : Z) (orig_func : option setsockopt_t)
    (o_copy o_host : alloc) (arrivals : list sink_call) : M Z :=
  match optval with
  | None => mret (- EINVAL)
  | Some user =>
      if optlen =? 0 then mret (- EINVAL)
      else match o_copy with
      | AllocFail => mret (- ENOMEM)
      | AllocOk _ =>
          if Z.of_nat (length user) <? optlen then mret (- EFAULT)
          else
            let koptval := take (Z.to_nat optlen) user in
            ret ← (if optname =? SO_HOSTNAME
                   then set_hostname sock_data koptval optlen o_host
                   else mret 0);
            if negb (ret =? 0) then mret ret
            else
              r ← load sock_data;
              _ ← emit (Ev_send_setsockopt_notification
                          sock level optname koptval optlen (daemon_id r));
              w ← wait_for_completion_timeout sock_data arrivals;
              if w =? 0 then mret (- ENOBUFS)
              else
                r ← load sock_data;
                if negb (response r =? 0) then mret (response r)
                else if (optname =? SO_HOSTNAME)
                        || (optname =? SO_CERTIFICATE_CHAIN)
                        || (optname =? SO_PRIVATE_KEY)
                then mret 0
                else match orig_func with
                     | Some f =>
                         _ ← emit (Ev_orig_setsockopt sock level optname optval optlen);
                         mret (f sock level optname optval optlen)
                     | None => mret (- EOPNOTSUPP)
                     end
      end
  end.

Definition call_orig_getsockopt (f : getsockopt_t) (sock level optname : Z)
  : M Z := fun s =>
  let '(ret, (val, len)) := f sock level optname (optval_mem s) (optlen_mem s) in
  Done ret (set_optlen_mem len (set_optval_mem val
              (log (Ev_orig_getsockopt sock level optname) s))).

Definition tls_common_getsockopt (sock_data : loc) (sock level optname : Z)
    (orig_func : option getsockopt_t) (arrivals : list sink_call) : M Z :=
  v ← get_user_optlen;
  match v with
  | None => mret (- EFAULT)
  | Some len =>
      if optname =? SO_HOSTNAME then get_hostname sock
      else if optname =? SO_ID then get_id sock
      else if optname =? SO_PEER_CERTIFICATE then
        r ← load sock_data;
        _ ← emit (Ev_send_getsockopt_notification sock level optname (daemon_id r));
        w ← wait_for_completion_timeout sock_data arrivals;
        if w =? 0 then mret (- ENOBUFS)
        else
          r ← load sock_data;
          if negb (response r =? 0) then mret (response r)
          else
            let len := CInt.to_int (CInt.min_t_uint len (rdata_len r)) in
            failed ← put_user_optlen len;
            if (failed : bool) then _ ← drop_rdata sock_data; mret (- EFAULT)
            else
              failed ← copy_to_user_from (rdata r) len;
              if (failed : bool) then _ ← drop_rdata sock_data; mret (- EFAULT)
              else mret 0
      else match orig_func with
           | Some f => call_orig_getsockopt f sock level optname
           | None => mret (- EOPNOTSUPP)
           end
  end.

(** The options that exist only for the daemon: the labels of the second
    [switch] of [tls_common_setsockopt]. *)
Definition is_virtual (optname : Z) : bool :=
  bool_decide (optname ∈ [SO_HOSTNAME; SO_CERTIFICATE_CHAIN; SO_PRIVATE_KEY]).

End Dispatchers.

(** ** What a call leaves alone *)

(** The native-handler calls among the events of a trace. *)
Definition is_native_call (e : event) : bool :=
  match e with
  | Ev_orig_setsockopt _ _ _ _ _ | Ev_orig_getsockopt _ _ _ => true
  | _ => false
  end.

Definition native_calls (t : list event) : list event :=
  List.filter is_native_call t.

(** Two states with the same table, the same user memory and the same
    calls to native handlers. *)
Definition frame (s s' : state) : Prop :=
  tls_sock_data_table s = tls_sock_data_table s'
  /\ optval_mem s = optval_mem s'
  /\ optlen_mem s = optlen_mem s'
  /\ native_calls (trace s) = native_calls (trace s').

Definition preserves {A} (m : M A) : Prop :=
  forall s a s', m s = Done a s' -> frame s s'.

(** ** Registered connections *)

(** The record at [d] is the one [get_tls_sock_data] returns for [k]. *)
Definition registered (s : state) (k : Z) (d : loc) : Prop :=
  get_tls_sock_data k s = Done (Some d) s.

(** The record's [hostname] is [NULL] or a live buffer. *)
Definition hostname_live (s : state) (r : tls_sock_data) : Prop :=
  match hostname r with
  | Addr l => is_Some (slab s !! l)
  | _ => True
  end.

(** The connection has a stored hostname: its record's [hostname] is the
    live buffer [b], and the string in it has [n] bytes before the
    terminator. *)
Definition stored_hostname (s : state) (k : Z) (b : list byte) (n : nat) : Prop :=
  exists d r l,
    registered s k d /\ socks s !! d = Some r /\ hostname r = Addr l
    /\ slab s !! l = Some b /\ strnlen b (Z.to_nat MAX_HOST_LEN) = Some n.

(** A relayed get for [SO_PEER_CERTIFICATE], started in state [s] on the
    record at [sd], is answered in time: after the notification the wait
    returns non-zero in state [s2], the daemon's status is 0, and the
    record's [rdata] is the live buffer [l] holding [payload], with
    [rdata_len] its length. *)
Definition delivered {opts : socktls} (s : state) (sd : loc) (sock level : Z)
    (arrivals : list sink_call) (s2 : state) (l : loc) (payload : list byte)
  : Prop :=
  exists r1 r2,
    socks s !! sd = Some r1
    /\ wait_for_completion_timeout sd arrivals
         (log (Ev_send_getsockopt_notification
                 sock level SO_PEER_CERTIFICATE (daemon_id r1)) s)
       = Done 1 s2
    /\ socks s2 !! sd = Some r2
    /\ response r2 = 0
    /\ rdata r2 = Addr l
    /\ slab s2 !! l = Some payload
    /\ rdata_len r2 = Z.of_nat (length payload).

(** ** Sample inputs *)

Module Sample.

(** Option numbers for the examples (any distinct numbers do). *)
Definition options : socktls :=
  Build_socktls 85 86 87 88 89 ltac:(compute_done) ltac:(compute_done).

(** The connection: its identity, and where its record lives. *)
Definition sock : Z := 7.
Definition sd : loc := 1%positive.

Definition record : tls_sock_data :=
  SockData sock 1 NULL 0 0 NULL 0 (Completion 0).

(** One registered, unconnected connection with nothing stored; the
    caller offers sixteen bytes at [optval] and says so in [optlen]. *)
Definition start : state :=
  State [sd] {[ sd := record ]} ∅ (replicate 16 x00) (Some 16) [].

(** ["example.com"] with its terminator, twelve bytes. *)
Definition example_com : list byte :=
  [x65; x78; x61; x6d; x70; x6c; x65; x2e; x63; x6f; x6d; x00].

(** The state after [example_com] has been set as the hostname. *)
Definition named : state :=
  State [sd] {[ sd := with_hostname (Addr 1%positive) record ]}
        {[ 1%positive := example_com ]} (replicate 16 x00) (Some 16) [].

(** ["a!"] with its terminator: the second byte is no hostname
    character. *)
Definition bad_name : list byte := [x61; x21; x00].

Definition payload : list byte := [x01; x02; x03].

(** The caller asks with capacity [cap]. *)
Definition asking (cap : Z) (s : state) : state := set_optlen_mem (Some cap) s.

(** The daemon answers a get with [payload], and the allocator has
    memory for it. *)
Definition answer : list sink_call :=
  [Report_data_return sock payload 3 (AllocOk [])].

(** The state in which the wait of a get for option 86, asked with
    capacity [cap] in [start], returns after [answer]. *)
Definition answered (cap : Z) : state :=
  State [sd]
        {[ sd := with_rdata_len 3 (with_rdata (Addr 1%positive) record) ]}
        {[ 1%positive := payload ]} (replicate 16 x00) (Some cap)
        [Ev_send_getsockopt_notification sock 0 86 1].

(** A record that holds both a hostname and a payload that no get has
    collected. *)
Definition holding : state :=
  State [sd]
        {[ sd := with_rdata_len 3 (with_rdata (Addr 2%positive)
                   (with_hostname (Addr 1%positive) record)) ]}
        {[ 1%positive := example_com; 2%positive := payload ]}
        (replicate 16 x00) (Some 16) [].

(** [holding] after teardown. *)
Definition torn_down : state :=
  State [] ∅ {[ 2%positive := payload ]} (replicate 16 x00) (Some 16)
        [Ev_unregister_netlink].

(** [named] after [bad_name] was offered as the hostname and the
    allocator had memory. *)
Definition renamed : state :=
  State [sd] {[ sd := with_hostname (Addr 1%positive) record ]}
        {[ 1%positive := [x65; x78; x61] ]} (replicate 16 x00) (Some 16) [].

(** [named] after [bad_name] was offered and the allocator had none. *)
Definition unnamed : state :=
  State [sd] {[ sd := record ]} {[ 1%positive := example_com ]}
        (replicate 16 x00) (Some 16) [].

End Sample.


(** ** Relations between the states around a call *)

(** Every finished run of [m] relates its start and end by [R]. *)
Definition keeps (R : state -> state -> Prop) {A} (m : M A) : Prop :=
  forall s a s', m s = Done a s' -> R s s'.

(** Nothing of the kernel side differs: table, records, buffers, trace.
    Only user memory may. *)
Definition kernel_same (s s' : state) : Prop :=
  tls_sock_data_table s = tls_sock_data_table s'
  /\ socks s = socks s'
  /\ slab s = slab s'
  /\ trace s = trace s'.

(** No external call was made. *)
Definition silent (s s' : state) : Prop := trace s = trace s'.

(** The fields of a record that name the connection and its hostname. *)
Definition same_identity (r r' : tls_sock_data) : Prop :=
  key r' = key r /\ daemon_id r' = daemon_id r
  /\ hostname r' = hostname r /\ is_connected r' = is_connected r.

(** The table is the same, every record is still there with the same
    identity, no record has appeared, and every live buffer is still live
    with the same contents. *)
Definition records_kept (s s' : state) : Prop :=
  tls_sock_data_table s = tls_sock_data_table s'
  /\ (forall d r, socks s !! d = Some r ->
                  exists r', socks s' !! d = Some r' /\ same_identity r r')
  /\ (forall d, socks s !! d = None -> socks s' !! d = None)
  /\ (forall l b, slab s !! l = Some b -> slab s' !! l = Some b).

(** Every node of the table is a live record. *)
Definition nodes_live (s : state) : Prop :=
  forall d, d ∈ tls_sock_data_table s -> is_Some (socks s !! d).

(** What teardown needs of the nodes it walks: no node twice, every node
    a live record, every hostname [NULL], [ZERO_SIZE_PTR] or a live
    buffer, and no buffer the hostname of two nodes. *)
Definition tidy (nodes : list loc) (s : state) : Prop :=
  NoDup nodes
  /\ (forall d, d ∈ nodes ->
        exists r, socks s !! d = Some r /\ hostname_live s r)
  /\ (forall d d' r r' l,
        d ∈ nodes -> d' ∈ nodes ->
        socks s !! d = Some r -> socks s !! d' = Some r' ->
        hostname r = Addr l -> hostname r' = Addr l -> d = d').

(** The record after a status [ret] was delivered and the waiter woke. *)
Definition answered_with (ret : Z) (r : tls_sock_data) : tls_sock_data :=
  with_response ret r.

(** The record after a payload was delivered into the buffer at [l] and
    the waiter woke. *)
Definition carrying (l : loc) (len : Z) (r : tls_sock_data) : tls_sock_data :=
  with_response 0 (with_rdata_len len (with_rdata (Addr l) r)).


(** ** Further sample inputs *)

Module Cases.

(** A second connection, registered after the first. *)
Definition sock2 : Z := 9.
Definition sd2 : loc := 2%positive.
Definition record2 : tls_sock_data :=
  SockData sock2 1 NULL 0 0 NULL 0 (Completion 0).

Definition two : state :=
  State [sd2; Sample.sd] {[ Sample.sd := Sample.record; sd2 := record2 ]} ∅
        (replicate 16 x00) (Some 16) [].

(** A connected record. *)
Definition connected : state :=
  State [Sample.sd]
        {[ Sample.sd := SockData Sample.sock 1 NULL 1 0 NULL 0 (Completion 0) ]}
        ∅ (replicate 16 x00) (Some 16) [].

(** A record with a completion left over from an answer (status 13) that
    came after its caller had given up. *)
Definition stale : state :=
  State [Sample.sd]
        {[ Sample.sd := SockData Sample.sock 1 NULL 0 13 NULL 0 (Completion 1) ]}
        ∅ (replicate 16 x00) (Some 16) [].

(** [Sample.named] after the daemon sent a status and then a payload for
    the connection. *)
Definition twice_answered : state :=
  State [Sample.sd]
        {[ Sample.sd := SockData Sample.sock 1 (Addr 1%positive) 0 0
                                 (Addr 2%positive) 3 (Completion 2) ]}
        {[ 1%positive := Sample.example_com; 2%positive := Sample.payload ]}
        (replicate 16 x00) (Some 16) [].

End Cases.

(** ** Integer conversions *)

Section Conversions.

Import CInt.

Lemma to_uint_nonneg a : 0 <= a < 2 ^ 32 -> to_uint a = a.
Proof. intros H. unfold to_uint. now apply Z.mod_small. Qed.

Lemma to_uint_neg a : - 2 ^ 31 <= a < 0 -> to_uint a = a + 2 ^ 32.
Proof.
  intros H. unfold to_uint.
  symmetry. apply (Z.mod_unique a (2 ^ 32) (-1) (a + 2 ^ 32)); lia.
Qed.

Lemma to_int_small a : 0 <= a < 2 ^ 31 -> to_int a = a.
Proof.
  intros H. unfold to_int. rewrite Z.mod_small by lia.
  destruct (Z.ltb_spec a (2 ^ 31)); lia.
Qed.

(** The truncating minimum on a capacity that is not negative. *)
Lemma min_t_uint_nonneg a b :
  0 <= a < 2 ^ 31 -> 0 <= b < 2 ^ 32 -> to_int (min_t_uint a b) = Z.min a b.
Proof.
  intros Ha Hb. unfold min_t_uint.
  rewrite !to_uint_nonneg by lia. apply to_int_small. lia.
Qed.

(** The truncating minimum on a negative capacity: the cast makes the
    capacity the larger operand. *)
Lemma min_t_uint_negative a b :
  - 2 ^ 31 <= a < 0 -> 0 <= b < 2 ^ 31 -> to_int (min_t_uint a b) = b.
Proof.
  intros Ha Hb. unfold min_t_uint.
  rewrite to_uint_neg by lia. rewrite to_uint_nonneg by lia.
  rewrite Z.min_r by lia. apply to_int_small. lia.
Qed.

End Conversions.


Section Validator.

Lemma byte_eqb_eq (a b : byte) : Byte.eqb a b = true <-> a = b.
Proof.
  split.
  - apply Byte.byte_dec_bl.
  - apply Byte.byte_dec_lb.
Qed.

Lemma bad_host_char_false c : bad_host_char c = false <-> host_char c.
Proof.
  unfold bad_host_char, host_char.
  destruct (isalnum c) eqn:Ha; simpl.
  - split; auto.
  - destruct (Byte.eqb c hyphen) eqn:Hh; simpl.
    + apply byte_eqb_eq in Hh. split; auto.
    + destruct (Byte.eqb c dot) eqn:Hd; simpl.
      * apply byte_eqb_eq in Hd. split; auto.
      * split; [discriminate|].
        intros [H | [H | H]]; [discriminate | |];
          apply byte_eqb_eq in H; congruence.
Qed.

(** The loop over a prefix [pre] already scanned: it runs through the
    next [length body] bytes and answers whether all of them pass. *)
Lemma host_loop_app pre body rest :
  host_loop (pre ++ body ++ rest) (length pre) (length body)
  = Some (forallb (fun c => negb (bad_host_char c)) body).
Proof.
  revert pre. induction body as [|c body IH]; intros pre; simpl.
  - reflexivity.
  - rewrite lookup_app_r by lia.
    replace (length pre - length pre)%nat with O by lia. simpl.
    destruct (bad_host_char c); simpl; [reflexivity|].
    specialize (IH (pre ++ [c])).
    rewrite <- app_assoc, length_app in IH. simpl in IH.
    replace (length pre + 1)%nat with (S (length pre)) in IH by lia.
    exact IH.
Qed.

Lemma forallb_host body :
  forallb (fun c => negb (bad_host_char c)) body = true <-> Forall host_char body.
Proof.
  induction body as [|c body IH]; simpl.
  - split; auto.
  - rewrite andb_true_iff, IH, negb_true_iff, bad_host_char_false.
    split.
    + intros [? ?]. now constructor.
    + intros H. inversion H; subst. auto.
Qed.

(** The validator on a buffer split into its last byte and the rest. *)
Lemma is_valid_host_string_snoc body c :
  is_valid_host_string (body ++ [c]) (Z.of_nat (length (body ++ [c])))
  = Some (if forallb (fun c => negb (bad_host_char c)) body
          then if Byte.eqb c NUL then 1 else 0
          else 0).
Proof.
  unfold is_valid_host_string.
  rewrite length_app. simpl.
  replace (Z.to_nat (Z.of_nat (length body + 1) - 1)) with (length body) by lia.
  pose proof (host_loop_app [] body [c]) as Hl. simpl in Hl. rewrite Hl.
  destruct (forallb _ body); [|reflexivity].
  destruct (Z.ltb_spec (Z.of_nat (length body + 1) - 1) 0); [lia|].
  rewrite lookup_app_r by lia.
  replace (length body - length body)%nat with O by lia. simpl.
  now destruct (Byte.eqb c NUL).
Qed.

End Validator.

(** C8.  [is_valid_host_string] is a function of the buffer alone: it takes
    and returns no kernel state.  On every buffer of at least one byte,
    with [len] the buffer's length, it returns 1 or 0, and it returns 1
    exactly when every byte but the last is alphanumeric, ['-'] or ['.'] and
    the last byte is the terminator. *)
Theorem is_valid_host_string_spec (str : list byte) :
  (1 <= length str)%nat ->
  exists r, is_valid_host_string str (Z.of_nat (length str)) = Some r
            /\ (r = 1 \/ r = 0)
            /\ (r = 1 <-> host_string_ok str).
Proof.
  intros Hlen.
  destruct (exists_last (l := str)) as [body [c ->]].
  { intros ->. simpl in Hlen. lia. }
  rewrite is_valid_host_string_snoc.
  destruct (forallb _ body) eqn:Hb.
  - apply forallb_host in Hb.
    destruct (Byte.eqb c NUL) eqn:Hc.
    + apply byte_eqb_eq in Hc. subst c.
      exists 1. repeat split; auto. exists body. auto.
    + exists 0. repeat split; auto; [discriminate|].
      intros [body' [Heq _]]. apply app_inj_tail in Heq as [_ ->].
      unfold NUL in Hc. simpl in Hc. discriminate.
  - exists 0. repeat split; auto; [discriminate|].
    intros [body' [Heq Hall]]. apply app_inj_tail in Heq as [-> _].
    apply forallb_host in Hall. congruence.
Qed.

Lemma is_valid_host_string_spec_witness :
  (1 <= length [x61; x2e; x62; x00])%nat
  /\ exists r, is_valid_host_string [x61; x2e; x62; x00] 4 = Some r
               /\ (r = 1 \/ r = 0)
               /\ (r = 1 <-> host_string_ok [x61; x2e; x62; x00]).
Proof.
  split; [simpl; lia|].
  apply (is_valid_host_string_spec [x61; x2e; x62; x00]). simpl. lia.
Defined.

(** ** Running the monad *)

Section Monad.

Lemma bind_Done {A B} (m : M A) (k : A -> M B) s a s' :
  m s = Done a s' -> (m ≫= k) s = k a s'.
Proof. intros H. unfold mbind, M_bind. now rewrite H. Qed.

Lemma bind_Oops {A B} (m : M A) (k : A -> M B) s e :
  m s = Oops e -> (m ≫= k) s = Oops e.
Proof. intros H. unfold mbind, M_bind. now rewrite H. Qed.

Lemma bind_inv {A B} (m : M A) (k : A -> M B) s b s' :
  (m ≫= k) s = Done b s' ->
  exists a s1, m s = Done a s1 /\ k a s1 = Done b s'.
Proof.
  unfold mbind, M_bind. destruct (m s) as [a s1|e]; [|discriminate].
  intros H. now exists a, s1.
Qed.

Lemma emit_bind {B} (e : event) (k : unit -> M B) s :
  (emit e ≫= k) s = k tt (log e s).
Proof. reflexivity. Qed.

Lemma load_Done p r s : socks s !! p = Some r -> load p s = Done r s.
Proof. intros H. unfold load. now rewrite H. Qed.

Lemma store_Done p f r s :
  socks s !! p = Some r ->
  store p f s = Done tt (set_socks (<[p := f r]> (socks s)) s).
Proof. intros H. unfold store. now rewrite (bind_Done _ _ _ _ _ (load_Done _ _ _ H)). Qed.

End Monad.

(** ** Frame lemmas *)

Section Frame.

Lemma frame_refl s : frame s s.
Proof. repeat split. Qed.

Lemma frame_trans s1 s2 s3 : frame s1 s2 -> frame s2 s3 -> frame s1 s3.
Proof.
  intros (?&?&?&?) (?&?&?&?). repeat split; etransitivity; eauto.
Qed.

Lemma preserves_ret {A} (a : A) : preserves (mret a).
Proof. intros s a' s' H. inversion H. apply frame_refl. Qed.

Lemma preserves_oops {A} e : preserves (@oops A e).
Proof. intros s a' s' H. discriminate. Qed.

Lemma preserves_bind {A B} (m : M A) (k : A -> M B) :
  preserves m -> (forall a, preserves (k a)) -> preserves (m ≫= k).
Proof.
  intros Hm Hk s b s' H.
  apply bind_inv in H as (a & s1 & H1 & H2).
  eapply frame_trans; [eapply Hm | eapply Hk]; eauto.
Qed.

Lemma preserves_get_state : preserves get_state.
Proof. intros s a s' H. inversion H. apply frame_refl. Qed.

Lemma preserves_load p : preserves (load p).
Proof.
  intros s a s' H. unfold load in H.
  destruct (socks s !! p); inversion H. apply frame_refl.
Qed.

Lemma preserves_set_socks f : preserves (modify (fun s => set_socks (f s) s)).
Proof. intros s a s' H. inversion H. repeat split. Qed.

Lemma preserves_set_slab f : preserves (modify (fun s => set_slab (f s) s)).
Proof. intros s a s' H. inversion H. repeat split. Qed.

Lemma preserves_printk : preserves (emit Ev_printk).
Proof. intros s a s' H. inversion H. repeat split. Qed.

Lemma preserves_send_set a b c d e f :
  preserves (emit (Ev_send_setsockopt_notification a b c d e f)).
Proof. intros s x s' H. inversion H. repeat split. Qed.

Lemma preserves_send_get a b c d :
  preserves (emit (Ev_send_getsockopt_notification a b c d)).
Proof. intros s x s' H. inversion H. repeat split. Qed.

Lemma preserves_new_buffer b : preserves (new_buffer b).
Proof. intros s a s' H. inversion H. repeat split. Qed.

Lemma preserves_buffer p : preserves (buffer p).
Proof.
  intros s a s' H. destruct p; simpl in H; try discriminate.
  destruct (slab s !! l); inversion H. apply frame_refl.
Qed.

Lemma preserves_kfree p : preserves (kfree p).
Proof.
  intros s a s' H. destruct p; simpl in H.
  1,2: inversion H; apply frame_refl.
  destruct (slab s !! l); inversion H. repeat split.
Qed.

Lemma preserves_memcpy dst src n : preserves (memcpy dst src n).
Proof.
  intros s a s' H. unfold memcpy in H.
  destruct (n =? 0); [inversion H; apply frame_refl|].
  destruct (Z.of_nat (length src) <? n); [discriminate|].
  destruct dst; try discriminate.
  destruct (slab s !! l); [|discriminate].
  destruct (Z.of_nat (length l0) <? n); inversion H. repeat split.
Qed.

Create HintDb frame.

Hint Resolve preserves_ret preserves_oops preserves_get_state preserves_load
  preserves_set_socks preserves_set_slab preserves_printk preserves_send_set
  preserves_send_get preserves_new_buffer preserves_buffer preserves_kfree
  preserves_memcpy : frame.

Ltac preserve :=
  repeat match goal with
    | |- preserves (mbind _ _) => apply preserves_bind; [|intros ?]
    | |- preserves (match ?x with _ => _ end) => destruct x
    | |- preserves _ => solve [eauto with frame]
    end.

Lemma preserves_store p f : preserves (store p f).
Proof. unfold store. preserve. Qed.

Lemma preserves_kmalloc size o : preserves (kmalloc size o).
Proof. unfold kmalloc. preserve. Qed.

Lemma preserves_krealloc p size o : preserves (krealloc p size o).
Proof. unfold krealloc. preserve. Qed.

Hint Resolve preserves_store preserves_kmalloc preserves_krealloc : frame.

Lemma preserves_find_sock nodes k : preserves (find_sock nodes k).
Proof. induction nodes as [|it rest IH]; simpl; preserve. Qed.

Hint Resolve preserves_find_sock : frame.

Lemma preserves_get_tls_sock_data k : preserves (get_tls_sock_data k).
Proof. unfold get_tls_sock_data. preserve. Qed.

Hint Resolve preserves_get_tls_sock_data : frame.

Lemma preserves_complete p : preserves (complete p).
Proof. unfold complete. preserve. Qed.

Hint Resolve preserves_complete : frame.

Lemma preserves_report_return k ret : preserves (report_return k ret).
Proof. unfold report_return. preserve. Qed.

Lemma preserves_report_data_return k data len o :
  preserves (report_data_return k data len o).
Proof. unfold report_data_return. preserve. Qed.

Hint Resolve preserves_report_return preserves_report_data_return : frame.

Lemma preserves_run_sinks cs : preserves (run_sinks cs).
Proof.
  induction cs as [|c cs IH]; simpl; preserve.
  destruct c; simpl; preserve.
Qed.

Hint Resolve preserves_run_sinks : frame.

Lemma preserves_wait p cs : preserves (wait_for_completion_timeout p cs).
Proof. unfold wait_for_completion_timeout. preserve. Qed.

Lemma preserves_set_hostname sd optval len o :
  preserves (set_hostname sd optval len o).
Proof. unfold set_hostname. preserve. Qed.

End Frame.

(** ** The registry *)

Section Registry.

Lemma find_sock_state nodes k s o s' :
  find_sock nodes k s = Done o s' -> s' = s.
Proof.
  revert s. induction nodes as [|it rest IH]; simpl; intros s H.
  - now inversion H.
  - unfold mbind, M_bind, load in H.
    destruct (socks s !! it); [|discriminate].
    destruct (key t =? k); [now inversion H | now apply IH].
Qed.

(** The walk looks at keys only. *)
Lemma find_sock_keys nodes k s s' o :
  (forall p, key <$> socks s !! p = key <$> socks s' !! p) ->
  find_sock nodes k s = Done o s -> find_sock nodes k s' = Done o s'.
Proof.
  intros Hk. induction nodes as [|it rest IH]; simpl; intros H.
  - inversion H. reflexivity.
  - unfold mbind, M_bind, load in *.
    specialize (Hk it).
    destruct (socks s !! it) as [r|]; [|discriminate].
    destruct (socks s' !! it) as [r'|]; [|discriminate].
    simpl in Hk. injection Hk as Hk. rewrite <- Hk.
    destruct (key r =? k); [inversion H; reflexivity | now apply IH].
Qed.

Lemma registered_keys s s' k d :
  tls_sock_data_table s = tls_sock_data_table s' ->
  (forall p, key <$> socks s !! p = key <$> socks s' !! p) ->
  registered s k d -> registered s' k d.
Proof.
  unfold registered, get_tls_sock_data, mbind, M_bind. simpl.
  intros Ht Hk H. rewrite <- Ht. eapply find_sock_keys; eauto.
Qed.

Lemma registered_live s k d : registered s k d -> is_Some (socks s !! d).
Proof.
  unfold registered, get_tls_sock_data, mbind, M_bind. simpl.
  generalize (tls_sock_data_table s).
  induction l as [|it rest IH]; simpl; intros H.
  - inversion H.
  - unfold mbind, M_bind, load in H.
    destruct (socks s !! it) as [r|] eqn:Hr; [|discriminate].
    destruct (key r =? k); [|now apply IH].
    inversion H; subst. eauto.
Qed.

End Registry.

(** ** User memory *)

Section UserMemory.

Lemma put_user_optlen_ok s v v0 :
  optlen_mem s = Some v0 ->
  put_user_optlen v s = Done false (set_optlen_mem (Some v) s).
Proof. intros H. unfold put_user_optlen. now rewrite H. Qed.

Lemma assign_optlen_ok s v v0 :
  optlen_mem s = Some v0 ->
  assign_optlen v s = Done tt (set_optlen_mem (Some v) s).
Proof. intros H. unfold assign_optlen. now rewrite H. Qed.

(** A copy of [n] bytes that the source holds and the user buffer has
    room for. *)
Lemma copy_to_user_optval_ok s src n :
  0 <= n < 2 ^ 64 ->
  (Z.to_nat n <= length src)%nat ->
  (Z.to_nat n <= length (optval_mem s))%nat ->
  copy_to_user_optval src n s
  = Done false (set_optval_mem (take (Z.to_nat n) src
                                ++ drop (Z.to_nat n) (optval_mem s)) s).
Proof.
  intros Hn Hsrc Hroom. unfold copy_to_user_optval.
  rewrite Z.mod_small by lia.
  destruct (Nat.leb_spec (Z.to_nat n) (length (optval_mem s))); [|lia].
  destruct (Nat.ltb_spec (length src) (Z.to_nat n)); [lia|].
  reflexivity.
Qed.

Lemma copy_to_user_from_ok s l b n :
  slab s !! l = Some b ->
  0 < n < 2 ^ 64 ->
  (Z.to_nat n <= length b)%nat ->
  (Z.to_nat n <= length (optval_mem s))%nat ->
  copy_to_user_from (Addr l) n s
  = Done false (set_optval_mem (take (Z.to_nat n) b
                                ++ drop (Z.to_nat n) (optval_mem s)) s).
Proof.
  intros Hb Hn Hsrc Hroom. unfold copy_to_user_from.
  rewrite Z.mod_small by lia.
  destruct (Z.eqb_spec n 0); [lia|].
  assert (Hbuf : buffer (Addr l) s = Done b s) by (simpl; now rewrite Hb).
  rewrite (bind_Done _ _ _ _ _ Hbuf).
  apply copy_to_user_optval_ok; auto. lia.
Qed.

(** A copy of more bytes than the user buffer has room for fails. *)
Lemma copy_to_user_from_short s l b n :
  slab s !! l = Some b ->
  0 < n < 2 ^ 64 ->
  (length (optval_mem s) < Z.to_nat n)%nat ->
  exists s', copy_to_user_from (Addr l) n s = Done true s'
             /\ socks s' = socks s /\ slab s' = slab s.
Proof.
  intros Hb Hn Hroom. unfold copy_to_user_from.
  rewrite Z.mod_small by lia.
  destruct (Z.eqb_spec n 0); [lia|].
  assert (Hbuf : buffer (Addr l) s = Done b s) by (simpl; now rewrite Hb).
  rewrite (bind_Done _ _ _ _ _ Hbuf).
  unfold copy_to_user_optval. rewrite Z.mod_small by lia.
  destruct (Nat.leb_spec (Z.to_nat n) (length (optval_mem s))); [lia|].
  eexists. split; [reflexivity|]. split; reflexivity.
Qed.

End UserMemory.

(** ** Reading the hostname *)

Section GetHostname.

Lemma strnlen_le b m n : strnlen b m = Some n -> (n <= m)%nat.
Proof.
  revert b n. induction m as [|m IH]; simpl; intros b n H.
  - inversion H. lia.
  - destruct b as [|c b]; [discriminate|].
    destruct (Byte.eqb c NUL); [inversion H; lia|].
    destruct (strnlen b m) as [k|] eqn:Hk; [|discriminate].
    inversion H. apply IH in Hk. lia.
Qed.

Lemma get_hostname_unregistered s sock :
  get_tls_sock_data sock s = Done None s ->
  get_hostname sock s = Done (- EBADF) s.
Proof. intros H. unfold get_hostname. now rewrite (bind_Done _ _ _ _ _ H). Qed.

Lemma get_hostname_unset s sock d r :
  registered s sock d -> socks s !! d = Some r -> hostname r = NULL ->
  get_hostname sock s = Done (- EFAULT) s.
Proof.
  intros H Hr Hh. unfold get_hostname.
  rewrite (bind_Done _ _ _ _ _ H).
  rewrite (bind_Done _ _ _ _ _ (load_Done _ _ _ Hr)).
  now rewrite Hh.
Qed.

(** The stored name is read up to its terminator; [n + 1] bytes are what
    the call needs room for. *)
Lemma get_hostname_stored s sock d r l b n cap :
  registered s sock d -> socks s !! d = Some r -> hostname r = Addr l ->
  slab s !! l = Some b -> strnlen b (Z.to_nat MAX_HOST_LEN) = Some n ->
  optlen_mem s = Some cap ->
  get_hostname sock s =
    if cap <? Z.of_nat n + 1 then Done (- EINVAL) s
    else (failed ← copy_to_user_from (Addr l) (Z.of_nat n + 1);
          if (failed : bool) then mret (- EFAULT)
          else _ ← assign_optlen (Z.of_nat n + 1); mret 0) s.
Proof.
  intros H Hr Hh Hb Hn Hcap. unfold get_hostname.
  rewrite (bind_Done _ _ _ _ _ H).
  rewrite (bind_Done _ _ _ _ _ (load_Done _ _ _ Hr)).
  rewrite Hh.
  assert (Hbuf : buffer (Addr l) s = Done b s) by (simpl; now rewrite Hb).
  rewrite (bind_Done _ _ _ _ _ Hbuf), Hn.
  assert (Hd : deref_optlen s = Done cap s) by (unfold deref_optlen; now rewrite Hcap).
  rewrite (bind_Done _ _ _ _ _ Hd).
  now destruct (cap <? Z.of_nat n + 1).
Qed.

(** With room for it, the stored name and its length are copied out. *)
Lemma get_hostname_copies s sock d r l b n cap :
  registered s sock d -> socks s !! d = Some r -> hostname r = Addr l ->
  slab s !! l = Some b -> strnlen b (Z.to_nat MAX_HOST_LEN) = Some n ->
  optlen_mem s = Some cap ->
  Z.of_nat n + 1 <= cap ->
  (n + 1 <= length b)%nat -> (n + 1 <= length (optval_mem s))%nat ->
  get_hostname sock s
  = Done 0 (set_optlen_mem (Some (Z.of_nat n + 1))
              (set_optval_mem (take (n + 1) b ++ drop (n + 1) (optval_mem s)) s)).
Proof.
  intros H Hr Hh Hb Hn Hcap Hle Hblen Hroom.
  rewrite (get_hostname_stored s sock d r l b n cap) by assumption.
  destruct (Z.ltb_spec cap (Z.of_nat n + 1)) as [|_]; [lia|].
  assert (Hlen : (n + 1)%nat = Z.to_nat (Z.of_nat n + 1)) by lia.
  pose proof (strnlen_le _ _ _ Hn) as Hbig.
  unfold MAX_HOST_LEN in Hbig.
  rewrite (bind_Done _ _ _ _ _
             (copy_to_user_from_ok s l b (Z.of_nat n + 1) Hb ltac:(lia)
                ltac:(lia) ltac:(lia))).
  cbv beta iota.
  rewrite (bind_Done _ _ _ _ _ (assign_optlen_ok (set_optval_mem _ s) _ cap Hcap)).
  rewrite <- Hlen. reflexivity.
Qed.

End GetHostname.

(** C6, as the code has it.  [get_hostname] returns [-EBADF] when no record
    is registered for the connection, and [-EFAULT] when the record exists
    and its hostname was never set; [-EFAULT] is the very code the file
    returns for a failed user copy ([Result.BadAddress]).  In both cases
    nothing is changed. *)
Theorem get_hostname_missing (s : state) (sock : Z) (found : option loc) :
  get_tls_sock_data sock s = Done found s ->
  (forall d, found = Some d ->
             exists r, socks s !! d = Some r /\ hostname r = NULL) ->
  get_hostname sock s
  = Done (match found with
          | None => Result.BadFileDescriptor
          | Some _ => Result.BadAddress
          end) s.
Proof.
  intros H Hunset. destruct found as [d|].
  - destruct (Hunset d eq_refl) as (r & Hr & Hh).
    now apply (get_hostname_unset s sock d r).
  - now apply get_hostname_unregistered.
Qed.

Lemma get_hostname_missing_witness :
  get_hostname Sample.sock Sample.start = Done Result.BadAddress Sample.start
  /\ get_hostname 8 Sample.start = Done Result.BadFileDescriptor Sample.start.
Proof.
  split.
  - apply (get_hostname_missing Sample.start Sample.sock (Some Sample.sd)).
    + reflexivity.
    + intros d Hd. injection Hd as <-. exists Sample.record.
      split; reflexivity.
  - apply (get_hostname_missing Sample.start 8 None).
    + reflexivity.
    + intros d Hd. discriminate.
Defined.

(** C6, read as asking for a code of its own, fails: on a registered
    record whose hostname was never set the result is not distinct from
    [BadAddress]. *)
Lemma get_hostname_unset_not_distinct :
  ~ (forall s sock d r,
        registered s sock d -> socks s !! d = Some r -> hostname r = NULL ->
        exists e s', get_hostname sock s = Done e s' /\ e <> Result.BadAddress).
Proof.
  intros H.
  destruct (H Sample.start Sample.sock Sample.sd Sample.record)
    as (e & s' & Hrun & Hne); try reflexivity.
  vm_compute in Hrun. inversion Hrun; subst. now apply Hne.
Qed.

(** ** Storing the hostname *)

Section SetHostname.

(** A successful [krealloc] to a positive size: the records are not
    touched, and the result is a live buffer that holds the old contents
    [old] cut or extended to the new size. *)
Lemma krealloc_ok s p size junk old :
  0 < size ->
  match p with Addr l => slab s !! l = Some old | _ => old = [] end ->
  exists l s1,
    krealloc p size (AllocOk junk) s = Done (Addr l) s1
    /\ socks s1 = socks s
    /\ slab s1 !! l
       = Some (take (Z.to_nat size) (old ++ uninit (Z.to_nat size) junk)).
Proof.
  intros Hsize Hp. unfold krealloc.
  destruct (Z.eqb_spec size 0) as [|_]; [lia|].
  destruct p as [| |l0].
  1,2: subst old; eexists _, _; split; [reflexivity|]; simpl;
       rewrite lookup_insert_eq; repeat split.
  eexists _, _. split.
  - unfold mbind, M_bind. simpl. rewrite Hp. simpl. rewrite Hp. reflexivity.
  - simpl. rewrite lookup_insert_eq. repeat split.
Qed.

Lemma length_resized size old junk :
  length (take (Z.to_nat size) (old ++ uninit (Z.to_nat size) junk))
  = Z.to_nat size.
Proof.
  rewrite length_take, length_app. unfold uninit.
  rewrite length_take, length_app, length_replicate. lia.
Qed.

Lemma hostname_live_old s r :
  hostname_live s r ->
  exists old, match hostname r with
              | Addr l => slab s !! l = Some old
              | _ => old = []
              end.
Proof.
  unfold hostname_live. destruct (hostname r) as [| |l].
  1,2: now exists [].
  intros [old Hold]. now exists old.
Qed.

(** A valid name replaces the stored one. *)
Lemma set_hostname_stores s sd r optval junk :
  socks s !! sd = Some r -> is_connected r <> 1 -> hostname_live s r ->
  Z.of_nat (length optval) <= MAX_HOST_LEN ->
  is_valid_host_string optval (Z.of_nat (length optval)) = Some 1 ->
  exists l s1,
    set_hostname sd optval (Z.of_nat (length optval)) (AllocOk junk) s = Done 0 s1
    /\ socks s1 = <[sd := with_hostname (Addr l) r]> (socks s)
    /\ slab s1 !! l = Some optval
    /\ frame s s1.
Proof.
  intros Hr Hconn Hlive Hmax Hvalid.
  assert (Hpos : 0 < Z.of_nat (length optval)).
  { destruct optval; [discriminate Hvalid | simpl; lia]. }
  destruct (hostname_live_old s r Hlive) as (old & Hold).
  destruct (krealloc_ok s (hostname r) _ junk old Hpos Hold)
    as (l & s1 & Hre & Hsocks & Hb).
  pose proof (length_resized (Z.of_nat (length optval)) old junk) as Hblen.
  set (b := take _ (old ++ _)) in Hb, Hblen.
  assert (Hrun : exists s2,
             set_hostname sd optval (Z.of_nat (length optval)) (AllocOk junk) s
             = Done 0 s2
             /\ socks s2 = <[sd := with_hostname (Addr l) r]> (socks s)
             /\ slab s2 !! l = Some optval).
  { unfold set_hostname.
    rewrite (bind_Done _ _ _ _ _ (load_Done _ _ _ Hr)).
    destruct (Z.eqb_spec (is_connected r) 1) as [|_]; [contradiction|].
    destruct (Z.ltb_spec MAX_HOST_LEN (Z.of_nat (length optval))) as [|_]; [lia|].
    rewrite (bind_Done _ _ _ _ _ Hre).
    assert (Hr1 : socks s1 !! sd = Some r) by now rewrite Hsocks.
    rewrite (bind_Done _ _ _ _ _ (store_Done _ _ _ _ Hr1)).
    rewrite Hvalid. simpl.
    unfold mbind, M_bind, memcpy.
    destruct (Z.eqb_spec (Z.of_nat (length optval)) 0) as [|_]; [lia|].
    destruct (Z.ltb_spec (Z.of_nat (length optval)) (Z.of_nat (length optval)))
      as [|_]; [lia|].
    simpl. rewrite Hb.
    destruct (Z.ltb_spec (Z.of_nat (length b)) (Z.of_nat (length optval)))
      as [|_]; [lia|].
    eexists. split; [reflexivity|]. simpl. split; [now rewrite Hsocks|].
    rewrite lookup_insert_eq, Nat2Z.id, firstn_all.
    rewrite drop_ge by lia. now rewrite app_nil_r. }
  destruct Hrun as (s2 & Hrun & Hs2 & Hl).
  exists l, s2. repeat split; auto.
  all: eapply preserves_set_hostname; eauto.
Qed.

End SetHostname.

(** C9.  On an unconnected record, [set_hostname] with the one-byte buffer
    that holds only the terminator succeeds when the allocator does: the
    validator's loop runs zero times and accepts the buffer, the record's
    hostname becomes that byte, and a later [get_hostname] for the
    connection returns it, one byte long. *)
Theorem set_hostname_empty_string
    (s : state) (sd : loc) (r : tls_sock_data) (junk : list byte)
    (sock cap : Z) :
  socks s !! sd = Some r -> is_connected r <> 1 -> hostname_live s r ->
  registered s sock sd ->
  optlen_mem s = Some cap -> 1 <= cap -> (1 <= length (optval_mem s))%nat ->
  host_loop [NUL] 0 (Z.to_nat (1 - 1)) = Some true
  /\ is_valid_host_string [NUL] 1 = Some 1
  /\ exists l s1,
      set_hostname sd [NUL] 1 (AllocOk junk) s = Done 0 s1
      /\ socks s1 !! sd = Some (with_hostname (Addr l) r)
      /\ slab s1 !! l = Some [NUL]
      /\ get_hostname sock s1
         = Done 0 (set_optlen_mem (Some 1)
                     (set_optval_mem (NUL :: drop 1 (optval_mem s)) s1)).
Proof.
  intros Hr Hconn Hlive Hreg Hcap Hcap1 Hroom.
  split; [reflexivity|]. split; [reflexivity|].
  destruct (set_hostname_stores s sd r [NUL] junk Hr Hconn Hlive)
    as (l & s1 & Hrun & Hsocks & Hl & Ht & Hval & Hlen & _).
  { simpl. unfold MAX_HOST_LEN. lia. }
  { reflexivity. }
  exists l, s1. split; [exact Hrun|].
  assert (Hr1 : socks s1 !! sd = Some (with_hostname (Addr l) r)).
  { rewrite Hsocks. apply lookup_insert_eq. }
  split; [exact Hr1|]. split; [exact Hl|].
  assert (Hreg1 : registered s1 sock sd).
  { apply (registered_keys s s1); auto.
    intros p. rewrite Hsocks.
    destruct (decide (sd = p)) as [<-|Hne].
    - rewrite lookup_insert_eq, Hr. reflexivity.
    - now rewrite lookup_insert_ne. }
  rewrite (get_hostname_copies s1 sock sd _ l [NUL] 0 cap Hreg1 Hr1 eq_refl Hl eq_refl).
  - rewrite <- Hval. reflexivity.
  - congruence.
  - simpl. lia.
  - simpl. lia.
  - rewrite <- Hval. lia.
Qed.

Lemma set_hostname_empty_string_witness :
  host_loop [NUL] 0 (Z.to_nat (1 - 1)) = Some true
  /\ is_valid_host_string [NUL] 1 = Some 1
  /\ exists l s1,
      set_hostname Sample.sd [NUL] 1 (AllocOk []) Sample.named = Done 0 s1
      /\ socks s1 !! Sample.sd = Some (with_hostname (Addr l) (with_hostname (Addr 1%positive) Sample.record))
      /\ slab s1 !! l = Some [NUL]
      /\ get_hostname Sample.sock s1
         = Done 0 (set_optlen_mem (Some 1)
                     (set_optval_mem (NUL :: drop 1 (optval_mem Sample.named)) s1)).
Proof.
  apply (set_hostname_empty_string Sample.named Sample.sd _ [] Sample.sock 16).
  - reflexivity.
  - discriminate.
  - unfold hostname_live. simpl. eexists. reflexivity.
  - reflexivity.
  - reflexivity.
  - lia.
  - simpl. lia.
Defined.

(** ** Waiting for the daemon *)

Section Wait.

(** However the wait ends, the record is still there afterwards, and the
    result is 0 (timeout) or 1. *)
Lemma wait_inv p arrivals s w s' :
  wait_for_completion_timeout p arrivals s = Done w s' ->
  exists r, socks s' !! p = Some r /\ (w = 0 \/ w = 1).
Proof.
  unfold wait_for_completion_timeout. intros H.
  apply bind_inv in H as (_ & sa & _ & H).
  apply bind_inv in H as (r & sb & Hload & H).
  unfold load in Hload.
  destruct (socks sa !! p) as [r'|] eqn:Hr; [|discriminate].
  inversion Hload; subst r' sb; clear Hload.
  destruct (done (sock_event r)) as [|n].
  - inversion H; subst. eauto.
  - rewrite (bind_Done _ _ _ _ _ (store_Done _ _ _ _ Hr)) in H.
    inversion H; subst. eexists. split; [apply lookup_insert_eq | auto].
Qed.

End Wait.

(** ** Setting an option *)

Section SetOption.

Context {opts : socktls}.

Lemma is_virtual_cases optname :
  (optname =? SO_HOSTNAME) || (optname =? SO_CERTIFICATE_CHAIN)
  || (optname =? SO_PRIVATE_KEY) = is_virtual optname.
Proof.
  unfold is_virtual.
  destruct (Z.eqb_spec optname SO_HOSTNAME) as [->|H1]; simpl.
  { symmetry. apply bool_decide_eq_true. rewrite !elem_of_cons. auto. }
  destruct (Z.eqb_spec optname SO_CERTIFICATE_CHAIN) as [->|H2]; simpl.
  { symmetry. apply bool_decide_eq_true. rewrite !elem_of_cons. auto. }
  destruct (Z.eqb_spec optname SO_PRIVATE_KEY) as [->|H3]; simpl.
  { symmetry. apply bool_decide_eq_true. rewrite !elem_of_cons. auto. }
  symmetry. apply bool_decide_eq_false.
  rewrite !elem_of_cons, elem_of_nil. tauto.
Qed.

(** The local stage of [tls_common_setsockopt] makes no native call. *)
Lemma preserves_local_stage sd optname koptval optlen o :
  preserves (if optname =? SO_HOSTNAME
             then set_hostname sd koptval optlen o
             else mret 0).
Proof.
  destruct (optname =? SO_HOSTNAME).
  - apply preserves_set_hostname.
  - apply preserves_ret.
Qed.

End SetOption.

(** C4.  Take a call of [tls_common_setsockopt] that gets as far as the
    relay: the option bytes were copied in and the local stage returned 0,
    leaving state [s1]; the notification is sent and the wait on the
    record's completion returns [w] in state [s2].  Then the call's result
    is decided as follows.  A timeout ([w = 0]) returns [-ENOBUFS].
    Otherwise a non-zero [response] is returned as it is.  Otherwise the
    result is 0 for [SO_HOSTNAME], [SO_CERTIFICATE_CHAIN] and
    [SO_PRIVATE_KEY]; for any other option it is the native handler's
    result on the original arguments, or [-EOPNOTSUPP] without one.  The
    native handler is called in that last case only: in all the others the
    trace holds no native call that it did not hold before. *)
Theorem setsockopt_after_relay {opts : socktls}
    (sd : loc) (sock level optname : Z) (user : list byte) (optlen : Z)
    (orig_func : option setsockopt_t) (junk : list byte) (o_host : alloc)
    (arrivals : list sink_call) (s s1 s2 : state) (r1 : tls_sock_data) (w : Z) :
  optlen <> 0 ->
  optlen <= Z.of_nat (length user) ->
  (if optname =? SO_HOSTNAME
   then set_hostname sd (take (Z.to_nat optlen) user) optlen o_host
   else mret 0) s = Done 0 s1 ->
  socks s1 !! sd = Some r1 ->
  wait_for_completion_timeout sd arrivals
    (log (Ev_send_setsockopt_notification
            sock level optname (take (Z.to_nat optlen) user) optlen (daemon_id r1))
         s1) = Done w s2 ->
  exists r2,
    socks s2 !! sd = Some r2
    /\ native_calls (trace s2) = native_calls (trace s)
    /\ tls_common_setsockopt sd sock level optname (Some user) optlen orig_func
         (AllocOk junk) o_host arrivals s
       = if w =? 0 then Done Result.NoBufferSpace s2
         else if negb (response r2 =? 0) then Done (response r2) s2
         else if is_virtual optname then Done 0 s2
         else match orig_func with
              | Some f =>
                  Done (f sock level optname (Some user) optlen)
                       (log (Ev_orig_setsockopt sock level optname (Some user) optlen) s2)
              | None => Done Result.NotSupported s2
              end.
Proof.
  intros Hlen0 Hlen Hlocal Hr1 Hwait.
  destruct (wait_inv _ _ _ _ _ Hwait) as (r2 & Hr2 & Hw).
  exists r2. split; [exact Hr2|]. split.
  - pose proof (preserves_local_stage _ _ _ _ _ _ _ _ Hlocal) as (_ & _ & _ & H1).
    pose proof (preserves_wait _ _ _ _ _ Hwait) as (_ & _ & _ & H2).
    rewrite <- H2, H1. reflexivity.
  - unfold tls_common_setsockopt.
    destruct (Z.eqb_spec optlen 0) as [|_]; [contradiction|].
    destruct (Z.ltb_spec (Z.of_nat (length user)) optlen) as [|_]; [lia|].
    rewrite (bind_Done _ _ _ _ _ Hlocal).
    change (negb (0 =? 0)) with false. cbv iota.
    rewrite (bind_Done _ _ _ _ _ (load_Done _ _ _ Hr1)).
    rewrite emit_bind, (bind_Done _ _ _ _ _ Hwait).
    destruct (w =? 0); [reflexivity|].
    rewrite (bind_Done _ _ _ _ _ (load_Done _ _ _ Hr2)).
    destruct (negb (response r2 =? 0)); [reflexivity|].
    rewrite is_virtual_cases.
    destruct (is_virtual optname); [reflexivity|].
    destruct orig_func; reflexivity.
Qed.

Lemma setsockopt_after_relay_witness :
  (exists s2,
      tls_common_setsockopt (opts := Sample.options) Sample.sd Sample.sock 0 85
        (Some Sample.example_com) 12 None (AllocOk []) (AllocOk [])
        [Report_return Sample.sock 13] Sample.start = Done 13 s2
      /\ native_calls (trace s2) = [])
  /\ (exists s2,
      tls_common_setsockopt (opts := Sample.options) Sample.sd Sample.sock 0 20
        (Some Sample.payload) 3 (Some (fun _ _ _ _ _ => 42)) (AllocOk []) (AllocOk [])
        [Report_return Sample.sock 0] Sample.start = Done 42 s2
      /\ native_calls (trace s2)
         = [Ev_orig_setsockopt Sample.sock 0 20 (Some Sample.payload) 3]).
Proof.
  split.
  - edestruct (setsockopt_after_relay (opts := Sample.options)
                 Sample.sd Sample.sock 0 85 Sample.example_com 12 None [] (AllocOk [])
                 [Report_return Sample.sock 13] Sample.start)
      as (r2 & Hr2 & Hcalls & Hrun).
    + discriminate.
    + simpl. lia.
    + vm_compute. reflexivity.
    + vm_compute. reflexivity.
    + vm_compute. reflexivity.
    + vm_compute in Hr2. injection Hr2 as <-.
      eexists. split; [exact Hrun | exact Hcalls].
  - edestruct (setsockopt_after_relay (opts := Sample.options)
                 Sample.sd Sample.sock 0 20 Sample.payload 3
                 (Some (fun _ _ _ _ _ => 42)) [] (AllocOk [])
                 [Report_return Sample.sock 0] Sample.start)
      as (r2 & Hr2 & Hcalls & Hrun).
    + discriminate.
    + simpl. lia.
    + vm_compute. reflexivity.
    + vm_compute. reflexivity.
    + vm_compute. reflexivity.
    + vm_compute in Hr2. injection Hr2 as <-.
      eexists. split; [exact Hrun | reflexivity].
Defined.

(** ** Getting an option *)

Section GetOption.

Context {opts : socktls}.

Lemma peer_certificate_label :
  SO_PEER_CERTIFICATE <> SO_HOSTNAME /\ SO_PEER_CERTIFICATE <> SO_ID.
Proof.
  pose proof getsockopt_labels as Hnd.
  apply NoDup_cons in Hnd as [Hh Hnd].
  apply NoDup_cons in Hnd as [Hi _].
  rewrite !elem_of_cons, elem_of_nil in Hh.
  rewrite !elem_of_cons, elem_of_nil in Hi.
  split; intros Heq; rewrite Heq in *; tauto.
Qed.

Lemma id_label : SO_ID <> SO_HOSTNAME.
Proof.
  pose proof getsockopt_labels as Hnd.
  apply NoDup_cons in Hnd as [Hh _].
  rewrite !elem_of_cons, elem_of_nil in Hh.
  intros Heq. rewrite Heq in *. tauto.
Qed.

Lemma drop_rdata_ok s sd r l b :
  socks s !! sd = Some r -> rdata r = Addr l -> slab s !! l = Some b ->
  exists s3 r3,
    drop_rdata sd s = Done tt s3
    /\ socks s3 !! sd = Some r3 /\ rdata r3 = NULL /\ rdata_len r3 = 0
    /\ slab s3 = delete l (slab s).
Proof.
  intros Hr Hrd Hl. unfold drop_rdata.
  rewrite (bind_Done _ _ _ _ _ (load_Done _ _ _ Hr)), Hrd.
  assert (Hfree : kfree (Addr l) s = Done tt (set_slab (delete l (slab s)) s)).
  { simpl. now rewrite Hl. }
  rewrite (bind_Done _ _ _ _ _ Hfree).
  assert (Hr1 : socks (set_slab (delete l (slab s)) s) !! sd = Some r) by exact Hr.
  rewrite (bind_Done _ _ _ _ _ (store_Done _ (with_rdata NULL) _ _ Hr1)).
  erewrite store_Done by (simpl; apply lookup_insert_eq).
  eexists _, _. split; [reflexivity|]. simpl.
  rewrite lookup_insert_eq. repeat split.
Qed.

(** The payload path when the daemon answered with status 0 and the
    user buffer has room for the [len] bytes that the minimum selects:
    [len] is reported, [len] bytes of the payload are copied, 0 is
    returned, and nothing else changes. *)
Lemma getsockopt_payload sd sock level orig_func arrivals s s2 l payload cap len :
  optlen_mem s = Some cap ->
  delivered s sd sock level arrivals s2 l payload ->
  len = CInt.to_int (CInt.min_t_uint cap (Z.of_nat (length payload))) ->
  0 <= len <= Z.of_nat (length payload) ->
  len <= Z.of_nat (length (optval_mem s)) ->
  len < 2 ^ 64 ->
  tls_common_getsockopt sd sock level SO_PEER_CERTIFICATE orig_func arrivals s
  = Done 0 (set_optval_mem (take (Z.to_nat len) payload
                            ++ drop (Z.to_nat len) (optval_mem s))
              (set_optlen_mem (Some len) s2)).
Proof.
  intros Hcap (r1 & r2 & Hr1 & Hwait & Hr2 & Hresp & Hrd & Hl & Hrl) Hlen Hle Hroom Hbig.
  destruct peer_certificate_label as [Hh Hi].
  pose proof (preserves_wait _ _ _ _ _ Hwait) as (_ & Hval & Holen & _).
  simpl in Hval, Holen.
  unfold tls_common_getsockopt.
  assert (Hget : get_user_optlen s = Done (Some cap) s).
  { unfold get_user_optlen. now rewrite Hcap. }
  rewrite (bind_Done _ _ _ _ _ Hget).
  destruct (Z.eqb_spec SO_PEER_CERTIFICATE SO_HOSTNAME) as [|_]; [contradiction|].
  destruct (Z.eqb_spec SO_PEER_CERTIFICATE SO_ID) as [|_]; [contradiction|].
  rewrite Z.eqb_refl.
  rewrite (bind_Done _ _ _ _ _ (load_Done _ _ _ Hr1)).
  rewrite emit_bind, (bind_Done _ _ _ _ _ Hwait).
  change (1 =? 0) with false. cbv iota.
  rewrite (bind_Done _ _ _ _ _ (load_Done _ _ _ Hr2)).
  rewrite Hresp. change (negb (0 =? 0)) with false. cbv iota.
  rewrite Hrl, <- Hlen.
  assert (Hcap2 : optlen_mem s2 = Some cap) by congruence.
  rewrite (bind_Done _ _ _ _ _ (put_user_optlen_ok _ _ _ Hcap2)).
  cbv iota. rewrite Hrd, Hval. rewrite Hval in Hroom.
  destruct (Z.eq_dec len 0) as [->|Hne].
  - replace (set_optval_mem (take (Z.to_nat 0) payload
                             ++ drop (Z.to_nat 0) (optval_mem s2))
               (set_optlen_mem (Some 0) s2))
      with (set_optlen_mem (Some 0) s2) by (now destruct s2).
    reflexivity.
  - rewrite (bind_Done _ _ _ _ _
               (copy_to_user_from_ok (set_optlen_mem (Some len) s2) l payload len
                  Hl ltac:(lia) ltac:(lia) ltac:(simpl; lia))).
    reflexivity.
Qed.

(** The payload path when the user buffer is too short for the bytes
    selected: [-EFAULT], and the payload is freed. *)
Lemma getsockopt_payload_short sd sock level orig_func arrivals s s2 l payload cap len :
  optlen_mem s = Some cap ->
  delivered s sd sock level arrivals s2 l payload ->
  len = CInt.to_int (CInt.min_t_uint cap (Z.of_nat (length payload))) ->
  0 < len < 2 ^ 64 ->
  Z.of_nat (length (optval_mem s)) < len ->
  exists s3 r3,
    tls_common_getsockopt sd sock level SO_PEER_CERTIFICATE orig_func arrivals s
    = Done (- EFAULT) s3
    /\ socks s3 !! sd = Some r3 /\ rdata r3 = NULL /\ rdata_len r3 = 0
    /\ slab s3 = delete l (slab s2).
Proof.
  intros Hcap (r1 & r2 & Hr1 & Hwait & Hr2 & Hresp & Hrd & Hl & Hrl) Hlen Hle Hroom.
  destruct peer_certificate_label as [Hh Hi].
  pose proof (preserves_wait _ _ _ _ _ Hwait) as (_ & Hval & Holen & _).
  simpl in Hval, Holen.
  unfold tls_common_getsockopt.
  assert (Hget : get_user_optlen s = Done (Some cap) s).
  { unfold get_user_optlen. now rewrite Hcap. }
  rewrite (bind_Done _ _ _ _ _ Hget).
  destruct (Z.eqb_spec SO_PEER_CERTIFICATE SO_HOSTNAME) as [|_]; [contradiction|].
  destruct (Z.eqb_spec SO_PEER_CERTIFICATE SO_ID) as [|_]; [contradiction|].
  rewrite Z.eqb_refl.
  rewrite (bind_Done _ _ _ _ _ (load_Done _ _ _ Hr1)).
  rewrite emit_bind, (bind_Done _ _ _ _ _ Hwait).
  change (1 =? 0) with false. cbv iota.
  rewrite (bind_Done _ _ _ _ _ (load_Done _ _ _ Hr2)).
  rewrite Hresp. change (negb (0 =? 0)) with false. cbv iota.
  rewrite Hrl, <- Hlen.
  assert (Hcap2 : optlen_mem s2 = Some cap) by congruence.
  rewrite (bind_Done _ _ _ _ _ (put_user_optlen_ok _ _ _ Hcap2)).
  cbv iota. rewrite Hrd.
  rewrite Hval in Hroom.
  destruct (copy_to_user_from_short (set_optlen_mem (Some len) s2) l payload len
              Hl Hle ltac:(simpl; lia)) as (s' & Hcopy & Hsocks & Hslab).
  rewrite (bind_Done _ _ _ _ _ Hcopy). cbv iota.
  assert (Hr' : socks s' !! sd = Some r2) by (rewrite Hsocks; exact Hr2).
  assert (Hl' : slab s' !! l = Some payload) by (rewrite Hslab; exact Hl).
  destruct (drop_rdata_ok s' sd r2 l payload Hr' Hrd Hl')
    as (s3 & r3 & Hdrop & Hr3 & Hnull & Hzero & Hslab3).
  rewrite (bind_Done _ _ _ _ _ Hdrop).
  exists s3, r3. repeat split; auto. now rewrite Hslab3, Hslab.
Qed.

Lemma get_id_run sock s cap len :
  optlen_mem s = Some cap ->
  len = CInt.to_int (CInt.min_t_uint cap sizeof_sock) ->
  0 <= len <= sizeof_sock ->
  len <= Z.of_nat (length (optval_mem s)) ->
  get_id sock s
  = Done 0 (set_optval_mem (take (Z.to_nat len) (pointer_bytes sock)
                            ++ drop (Z.to_nat len) (optval_mem s))
              (set_optlen_mem (Some len) s)).
Proof.
  intros Hcap Hlen Hle Hroom. unfold get_id, sizeof_sock in *.
  assert (Hget : get_user_optlen s = Done (Some cap) s).
  { unfold get_user_optlen. now rewrite Hcap. }
  rewrite (bind_Done _ _ _ _ _ Hget), <- Hlen.
  rewrite (bind_Done _ _ _ _ _ (put_user_optlen_ok _ _ _ Hcap)). cbv iota.
  rewrite (bind_Done _ _ _ _ _
             (copy_to_user_optval_ok (set_optlen_mem (Some len) s)
                (pointer_bytes sock) len ltac:(lia) ltac:(simpl; lia)
                ltac:(simpl; lia))).
  reflexivity.
Qed.

Lemma getsockopt_id sd sock level orig_func arrivals s cap :
  optlen_mem s = Some cap ->
  tls_common_getsockopt sd sock level SO_ID orig_func arrivals s = get_id sock s.
Proof.
  intros Hcap. unfold tls_common_getsockopt.
  assert (Hget : get_user_optlen s = Done (Some cap) s).
  { unfold get_user_optlen. now rewrite Hcap. }
  rewrite (bind_Done _ _ _ _ _ Hget).
  destruct (Z.eqb_spec SO_ID SO_HOSTNAME) as [Heq|_];
    [now apply id_label in Heq|].
  now rewrite Z.eqb_refl.
Qed.

Lemma getsockopt_hostname sd sock level orig_func arrivals s cap :
  optlen_mem s = Some cap ->
  tls_common_getsockopt sd sock level SO_HOSTNAME orig_func arrivals s
  = get_hostname sock s.
Proof.
  intros Hcap. unfold tls_common_getsockopt.
  assert (Hget : get_user_optlen s = Done (Some cap) s).
  { unfold get_user_optlen. now rewrite Hcap. }
  rewrite (bind_Done _ _ _ _ _ Hget).
  now rewrite Z.eqb_refl.
Qed.

End GetOption.

(** C5.  The two get paths differ on a buffer that is too small.  On the
    payload path, a capacity [cap] below the payload's length (and a user
    buffer that has those [cap] bytes) makes the call return 0 with
    [cap] reported and exactly the first [cap] bytes of the payload
    copied.  On the hostname path, a capacity below the stored name's
    length with its terminator makes the call return [-EINVAL], and
    nothing is copied or changed. *)
Theorem undersized_buffer_asymmetry {opts : socktls}
    (sd : loc) (sock level : Z) (orig_func : option getsockopt_t)
    (arrivals : list sink_call) (s s2 : state) (l : loc) (payload : list byte)
    (cap : Z)
    (sd' : loc) (sock' level' : Z) (orig_func' : option getsockopt_t)
    (arrivals' : list sink_call) (s' : state) (b : list byte) (n : nat)
    (cap' : Z) :
  optlen_mem s = Some cap ->
  delivered s sd sock level arrivals s2 l payload ->
  0 <= cap < Z.of_nat (length payload) ->
  cap <= CInt.INT_MAX ->
  Z.of_nat (length payload) < 2 ^ 32 ->
  cap <= Z.of_nat (length (optval_mem s)) ->
  optlen_mem s' = Some cap' ->
  stored_hostname s' sock' b n ->
  cap' < Z.of_nat n + 1 ->
  tls_common_getsockopt sd sock level SO_PEER_CERTIFICATE orig_func arrivals s
  = Done 0 (set_optval_mem (take (Z.to_nat cap) payload
                            ++ drop (Z.to_nat cap) (optval_mem s))
              (set_optlen_mem (Some cap) s2))
  /\ tls_common_getsockopt sd' sock' level' SO_HOSTNAME orig_func' arrivals' s'
     = Done Result.InvalidArgument s'.
Proof.
  intros Hcap Hdel Hlt Hint Hpl Hroom Hcap' (d & r & lh & Hreg & Hr & Hh & Hb & Hn) Hlt'.
  unfold CInt.INT_MAX in Hint. split.
  - apply (getsockopt_payload sd sock level orig_func arrivals s s2 l payload cap cap);
      auto; try lia.
    rewrite min_t_uint_nonneg by lia. lia.
  - rewrite (getsockopt_hostname _ _ _ _ _ _ _ Hcap').
    rewrite (get_hostname_stored s' sock' d r lh b n cap') by assumption.
    destruct (Z.ltb_spec cap' (Z.of_nat n + 1)); [reflexivity | lia].
Qed.

Section SampleRuns.

(** The sample answer is delivered, whatever the capacity asked with. *)
Lemma sample_delivered cap :
  delivered (opts := Sample.options) (Sample.asking cap Sample.start) Sample.sd
    Sample.sock 0 Sample.answer (Sample.answered cap) 1%positive Sample.payload.
Proof.
  exists Sample.record, (with_rdata_len 3 (with_rdata (Addr 1%positive) Sample.record)).
  repeat split.
Defined.

Lemma sample_stored cap :
  stored_hostname (Sample.asking cap Sample.named) Sample.sock Sample.example_com 11.
Proof.
  exists Sample.sd, (with_hostname (Addr 1%positive) Sample.record), 1%positive.
  repeat split.
Defined.

End SampleRuns.

Lemma undersized_buffer_asymmetry_witness :
  tls_common_getsockopt (opts := Sample.options) Sample.sd Sample.sock 0 86 None
    Sample.answer (Sample.asking 2 Sample.start)
  = Done 0 (set_optval_mem ([x01; x02] ++ replicate 14 x00)
              (set_optlen_mem (Some 2) (Sample.answered 2)))
  /\ tls_common_getsockopt (opts := Sample.options) Sample.sd Sample.sock 0 85 None
       [] (Sample.asking 5 Sample.named)
     = Done Result.InvalidArgument (Sample.asking 5 Sample.named).
Proof.
  apply (undersized_buffer_asymmetry (opts := Sample.options)
           Sample.sd Sample.sock 0 None Sample.answer (Sample.asking 2 Sample.start)
           (Sample.answered 2) 1%positive Sample.payload 2
           Sample.sd Sample.sock 0 None [] (Sample.asking 5 Sample.named)
           Sample.example_com 11 5).
  - reflexivity.
  - apply sample_delivered.
  - simpl. lia.
  - unfold CInt.INT_MAX. lia.
  - simpl. lia.
  - simpl. lia.
  - reflexivity.
  - apply sample_stored.
  - lia.
Defined.

(** C10.  A negative capacity is not refused.  In the [SO_ID] get and on the
    payload path the capacity is read as an [int] and the minimum is taken
    over [unsigned int], where a negative value is a large one: the whole
    identifier ([sizeof_sock] bytes), respectively the whole payload, is
    copied to the caller and its length reported, and the call returns 0.
    The user buffer is assumed to have room for what is copied, and the
    payload's length to fit an [int]. *)
Theorem negative_capacity_copies_all {opts : socktls}
    (sd : loc) (sock level : Z) (orig_func : option getsockopt_t)
    (arrivals : list sink_call) (s : state) (cap : Z)
    (sd' : loc) (sock' level' : Z) (orig_func' : option getsockopt_t)
    (arrivals' : list sink_call) (s' s2 : state) (l : loc) (payload : list byte)
    (cap' : Z) :
  optlen_mem s = Some cap ->
  CInt.INT_MIN <= cap < 0 ->
  sizeof_sock <= Z.of_nat (length (optval_mem s)) ->
  optlen_mem s' = Some cap' ->
  CInt.INT_MIN <= cap' < 0 ->
  delivered s' sd' sock' level' arrivals' s2 l payload ->
  Z.of_nat (length payload) <= CInt.INT_MAX ->
  (length payload <= length (optval_mem s'))%nat ->
  tls_common_getsockopt sd sock level SO_ID orig_func arrivals s
  = Done 0 (set_optval_mem (pointer_bytes sock
                            ++ drop (Z.to_nat sizeof_sock) (optval_mem s))
              (set_optlen_mem (Some sizeof_sock) s))
  /\ tls_common_getsockopt sd' sock' level' SO_PEER_CERTIFICATE orig_func' arrivals' s'
     = Done 0 (set_optval_mem (payload ++ drop (length payload) (optval_mem s'))
                 (set_optlen_mem (Some (Z.of_nat (length payload))) s2)).
Proof.
  intros Hcap Hneg Hroom Hcap' Hneg' Hdel Hpl Hroom'.
  unfold CInt.INT_MIN, CInt.INT_MAX in *. split.
  - rewrite (getsockopt_id _ _ _ _ _ _ _ Hcap).
    rewrite (get_id_run sock s cap sizeof_sock Hcap).
    + reflexivity.
    + unfold sizeof_sock. now rewrite min_t_uint_negative by lia.
    + unfold sizeof_sock. lia.
    + exact Hroom.
  - rewrite (getsockopt_payload sd' sock' level' orig_func' arrivals' s' s2 l payload
               cap' (Z.of_nat (length payload)) Hcap' Hdel).
    + rewrite Nat2Z.id, firstn_all. reflexivity.
    + now rewrite min_t_uint_negative by lia.
    + lia.
    + lia.
    + lia.
Qed.

Lemma negative_capacity_copies_all_witness :
  tls_common_getsockopt (opts := Sample.options) Sample.sd Sample.sock 0 89 None []
    (Sample.asking (-1) Sample.start)
  = Done 0 (set_optval_mem ([x07; x00; x00; x00; x00; x00; x00; x00]
                            ++ replicate 8 x00)
              (set_optlen_mem (Some 8) (Sample.asking (-1) Sample.start)))
  /\ tls_common_getsockopt (opts := Sample.options) Sample.sd Sample.sock 0 86 None
       Sample.answer (Sample.asking (-5) Sample.start)
     = Done 0 (set_optval_mem ([x01; x02; x03] ++ replicate 13 x00)
                 (set_optlen_mem (Some 3) (Sample.answered (-5)))).
Proof.
  apply (negative_capacity_copies_all (opts := Sample.options)
           Sample.sd Sample.sock 0 None [] (Sample.asking (-1) Sample.start) (-1)
           Sample.sd Sample.sock 0 None Sample.answer (Sample.asking (-5) Sample.start)
           (Sample.answered (-5)) 1%positive Sample.payload (-5)).
  - reflexivity.
  - unfold CInt.INT_MIN. lia.
  - unfold sizeof_sock. simpl. lia.
  - reflexivity.
  - unfold CInt.INT_MIN. lia.
  - apply sample_delivered.
  - unfold CInt.INT_MAX. simpl. lia.
  - simpl. lia.
Defined.

(** C7, evaluated on the code.  When the payload path succeeds (the daemon
    answered with status 0, the length was reported and the bytes were
    copied) the call returns 0 and the record still owns the payload:
    [rdata] is the same live buffer, with the same contents and
    [rdata_len].  Only the two failure exits free it
    ([getsockopt_payload_short]). *)
Theorem successful_get_keeps_payload {opts : socktls}
    (sd : loc) (sock level : Z) (orig_func : option getsockopt_t)
    (arrivals : list sink_call) (s s2 : state) (l : loc) (payload : list byte)
    (cap : Z) :
  optlen_mem s = Some cap ->
  delivered s sd sock level arrivals s2 l payload ->
  0 <= cap <= CInt.INT_MAX ->
  Z.of_nat (length payload) < 2 ^ 32 ->
  Z.min cap (Z.of_nat (length payload)) <= Z.of_nat (length (optval_mem s)) ->
  exists s3 r3,
    tls_common_getsockopt sd sock level SO_PEER_CERTIFICATE orig_func arrivals s
    = Done 0 s3
    /\ socks s3 !! sd = Some r3
    /\ rdata r3 = Addr l
    /\ rdata_len r3 = Z.of_nat (length payload)
    /\ slab s3 !! l = Some payload.
Proof.
  intros Hcap Hdel Hint Hpl Hroom. unfold CInt.INT_MAX in Hint.
  pose proof Hdel as (r1 & r2 & _ & _ & Hr2 & _ & Hrd & Hl & Hrl).
  eexists _, r2. split.
  - apply (getsockopt_payload sd sock level orig_func arrivals s s2 l payload cap
             (Z.min cap (Z.of_nat (length payload))) Hcap Hdel).
    + now rewrite min_t_uint_nonneg by lia.
    + lia.
    + lia.
    + lia.
  - simpl. auto.
Qed.

Lemma successful_get_keeps_payload_witness :
  exists s3 r3,
    tls_common_getsockopt (opts := Sample.options) Sample.sd Sample.sock 0 86 None
      Sample.answer (Sample.asking 16 Sample.start) = Done 0 s3
    /\ socks s3 !! Sample.sd = Some r3
    /\ rdata r3 = Addr 1%positive
    /\ rdata_len r3 = 3
    /\ slab s3 !! 1%positive = Some Sample.payload.
Proof.
  apply (successful_get_keeps_payload (opts := Sample.options)
           Sample.sd Sample.sock 0 None Sample.answer (Sample.asking 16 Sample.start)
           (Sample.answered 16) 1%positive Sample.payload 16).
  - reflexivity.
  - apply sample_delivered.
  - unfold CInt.INT_MAX. lia.
  - simpl. lia.
  - simpl. lia.
Defined.

(** ** Teardown *)

Section Cleanup.

(** One round of the loop of [tls_cleanup]. *)
Lemma cleanup_step it rest s s' :
  cleanup_loop (it :: rest) s = Done tt s' ->
  exists r s1,
    socks s !! it = Some r
    /\ cleanup_loop rest s1 = Done tt s'
    /\ tls_sock_data_table s1 = filter (fun x => x <> it) (tls_sock_data_table s)
    /\ socks s1 = delete it (socks s)
    /\ slab s1 = match hostname r with
                 | Addr lh => delete lh (slab s)
                 | _ => slab s
                 end
    /\ trace s1 = trace s.
Proof.
  simpl. intros H.
  apply bind_inv in H as (r & sa & Hload & H).
  unfold load in Hload.
  destruct (socks s !! it) as [r'|] eqn:Hr; [|discriminate].
  inversion Hload; subst r' sa; clear Hload.
  apply bind_inv in H as ([] & sb & Hdel & H).
  inversion Hdel; subst sb; clear Hdel.
  apply bind_inv in H as ([] & sc & Hfree & H).
  apply bind_inv in H as ([] & sd & Hfs & H).
  unfold kfree_sock in Hfs.
  apply bind_inv in Hfs as (r' & se & Hload & Hfs).
  unfold load in Hload.
  destruct (socks sc !! it) as [r''|] eqn:Hr'; [|discriminate].
  inversion Hload; subst r'' se; clear Hload.
  inversion Hfs; subst sd; clear Hfs.
  exists r. eexists. split; [reflexivity|]. split; [exact H|].
  destruct (hostname r) as [| |lh]; simpl in Hfree.
  1,2: inversion Hfree; subst sc; repeat split.
  destruct (slab s !! lh); inversion Hfree; subst sc. repeat split.
Qed.

(** What the loop leaves: no node it visited, no record it visited, and
    every buffer that is not the hostname of a record. *)
Lemma cleanup_loop_inv nodes s s' :
  cleanup_loop nodes s = Done tt s' ->
  (forall x, x ∈ tls_sock_data_table s' ->
             x ∈ tls_sock_data_table s /\ x ∉ nodes)
  /\ (forall it, it ∈ nodes -> socks s' !! it = None)
  /\ (forall it, socks s !! it = None -> socks s' !! it = None)
  /\ (forall l b, slab s !! l = Some b ->
                  (forall it r, socks s !! it = Some r -> hostname r <> Addr l) ->
                  slab s' !! l = Some b)
  /\ trace s' = trace s.
Proof.
  revert s. induction nodes as [|it rest IH]; intros s H.
  - inversion H; subst. repeat split; auto.
    + apply not_elem_of_nil.
    + intros it Hin. now apply elem_of_nil in Hin.
  - apply cleanup_step in H as (r & s1 & Hr & Hrest & Ht & Hs & Hb & Htr).
    destruct (IH _ Hrest) as (IHt & IHv & IHn & IHb & IHtr).
    repeat split.
    + apply IHt in H as [H _]. rewrite Ht in H.
      apply list_elem_of_filter in H. tauto.
    + intros Hin. apply elem_of_cons in Hin as [->|Hin].
      * apply IHt in H as [H _]. rewrite Ht in H.
        apply list_elem_of_filter in H. tauto.
      * apply IHt in H. tauto.
    + intros x Hin. apply elem_of_cons in Hin as [->|Hin].
      * apply IHn. rewrite Hs. apply lookup_delete_eq.
      * now apply IHv.
    + intros x Hx. apply IHn. rewrite Hs.
      destruct (decide (it = x)) as [->|Hne].
      * apply lookup_delete_eq.
      * now rewrite lookup_delete_ne.
    + intros l b Hl Hnot. apply IHb.
      * rewrite Hb. destruct (hostname r) as [| |lh] eqn:Hh; auto.
        rewrite lookup_delete_ne; auto.
        intros ->. now apply (Hnot it r).
      * intros x rx Hx. rewrite Hs in Hx.
        apply lookup_delete_Some in Hx as [_ Hx]. now apply (Hnot x rx).
    + congruence.
Qed.

(** After teardown the table is empty and the transport is gone. *)
Lemma tls_cleanup_empties s s' :
  tls_cleanup s = Done tt s' ->
  tls_sock_data_table s' = []
  /\ (forall it, it ∈ tls_sock_data_table s -> socks s' !! it = None)
  /\ trace s' = Ev_unregister_netlink :: trace s.
Proof.
  unfold tls_cleanup. intros H.
  apply bind_inv in H as (s0 & sa & Hget & H).
  inversion Hget; subst s0 sa; clear Hget.
  apply bind_inv in H as ([] & sb & Hloop & H).
  inversion H; subst s'; clear H. simpl.
  destruct (cleanup_loop_inv _ _ _ Hloop) as (Ht & Hv & _ & _ & Htr).
  repeat split; auto.
  - destruct (tls_sock_data_table sb) as [|x t]; [reflexivity|].
    destruct (Ht x); [apply list_elem_of_here | contradiction].
  - now rewrite Htr.
Qed.

End Cleanup.

(** C3, evaluated on the code.  [tls_cleanup] empties the table and frees
    every record before it unregisters the netlink transport, and with a
    record it frees the record's [hostname].  It does not free [rdata]: a
    payload buffer that a record owned when teardown began is still
    allocated after it, with no record left that points to it. *)
Theorem tls_cleanup_leaks_rdata
    (s s' : state) (sd : loc) (r : tls_sock_data) (l : loc) (b : list byte) :
  tls_cleanup s = Done tt s' ->
  sd ∈ tls_sock_data_table s ->
  socks s !! sd = Some r ->
  rdata r = Addr l ->
  slab s !! l = Some b ->
  (forall it r', socks s !! it = Some r' -> hostname r' <> Addr l) ->
  tls_sock_data_table s' = []
  /\ socks s' !! sd = None
  /\ slab s' !! l = Some b
  /\ trace s' = Ev_unregister_netlink :: trace s.
Proof.
  intros Hrun Hin Hr Hrd Hl Hnot.
  destruct (tls_cleanup_empties _ _ Hrun) as (Ht & Hv & Htr).
  repeat split; auto.
  unfold tls_cleanup in Hrun.
  apply bind_inv in Hrun as (s0 & sa & Hget & H).
  inversion Hget; subst s0 sa; clear Hget.
  apply bind_inv in H as ([] & sb & Hloop & H).
  inversion H; subst s'; clear H. simpl.
  destruct (cleanup_loop_inv _ _ _ Hloop) as (_ & _ & _ & Hb & _).
  now apply Hb.
Qed.

Lemma tls_cleanup_leaks_rdata_witness :
  tls_cleanup Sample.holding = Done tt Sample.torn_down
  /\ tls_sock_data_table Sample.torn_down = []
  /\ socks Sample.torn_down !! Sample.sd = None
  /\ slab Sample.torn_down !! 2%positive = Some Sample.payload
  /\ trace Sample.torn_down = Ev_unregister_netlink :: trace Sample.holding.
Proof.
  assert (Hrun : tls_cleanup Sample.holding = Done tt Sample.torn_down)
    by (vm_compute; reflexivity).
  split; [exact Hrun|].
  apply (tls_cleanup_leaks_rdata Sample.holding _ Sample.sd
           (with_rdata_len 3 (with_rdata (Addr 2%positive)
              (with_hostname (Addr 1%positive) Sample.record)))
           2%positive Sample.payload Hrun).
  - apply list_elem_of_here.
  - reflexivity.
  - reflexivity.
  - reflexivity.
  - intros it r' Hit.
    destruct (decide (it = Sample.sd)) as [->|Hne].
    + vm_compute in Hit. injection Hit as <-. discriminate.
    + unfold Sample.holding in Hit. simpl in Hit.
      rewrite lookup_singleton_ne in Hit by congruence. discriminate.
Defined.

(** ** A rejected hostname *)

Section RejectedHostname.

(** A name longer than [MAX_HOST_LEN] is refused before anything is
    touched. *)
Lemma set_hostname_too_long s sd r optval len o :
  socks s !! sd = Some r -> is_connected r <> 1 -> MAX_HOST_LEN < len ->
  set_hostname sd optval len o s = Done (- EINVAL) s.
Proof.
  intros Hr Hconn Hlen. unfold set_hostname.
  rewrite (bind_Done _ _ _ _ _ (load_Done _ _ _ Hr)).
  destruct (Z.eqb_spec (is_connected r) 1) as [|_]; [contradiction|].
  destruct (Z.ltb_spec MAX_HOST_LEN len) as [_|]; [reflexivity | lia].
Qed.

(** On a connected record nothing is touched either. *)
Lemma set_hostname_connected s sd r optval len o :
  socks s !! sd = Some r -> is_connected r = 1 ->
  set_hostname sd optval len o s = Done (- EISCONN) s.
Proof.
  intros Hr Hconn. unfold set_hostname.
  rewrite (bind_Done _ _ _ _ _ (load_Done _ _ _ Hr)).
  now rewrite Hconn.
Qed.

End RejectedHostname.

(** C1, evaluated on the code.  [set_hostname] calls [krealloc] on the
    record's hostname before it validates the new name.  So when a name of
    at most [MAX_HOST_LEN] bytes fails the character check on a record
    that holds the hostname [old]:
    - if the allocator has memory, the call returns [-EINVAL] and the
      record's hostname is by then a buffer of the new length [len], the
      old bytes cut or extended to it;
    - if the allocator has none, the call returns [-ENOMEM], the record's
      [hostname] is [NULL] with the old buffer still allocated, and a
      later [get_hostname] for the connection returns [-EFAULT]. *)
Theorem set_hostname_resizes_before_validating
    (s : state) (sd : loc) (r : tls_sock_data) (l : loc) (old : list byte)
    (optval : list byte) (len : Z) (junk : list byte) (sock : Z) :
  socks s !! sd = Some r ->
  is_connected r <> 1 ->
  hostname r = Addr l ->
  slab s !! l = Some old ->
  0 < len <= MAX_HOST_LEN ->
  is_valid_host_string optval len = Some 0 ->
  registered s sock sd ->
  (exists l' s',
      set_hostname sd optval len (AllocOk junk) s = Done Result.InvalidArgument s'
      /\ socks s' !! sd = Some (with_hostname (Addr l') r)
      /\ slab s' !! l'
         = Some (take (Z.to_nat len) (old ++ uninit (Z.to_nat len) junk)))
  /\ (exists s',
      set_hostname sd optval len AllocFail s = Done Result.OutOfMemory s'
      /\ socks s' !! sd = Some (with_hostname NULL r)
      /\ slab s' !! l = Some old
      /\ get_hostname sock s' = Done (- EFAULT) s').
Proof.
  intros Hr Hconn Hh Hold Hlen Hbad Hreg. split.
  - destruct (krealloc_ok s (hostname r) len junk old) as (l' & s1 & Hre & Hsocks & Hb).
    { lia. }
    { now rewrite Hh. }
    exists l'. eexists. split.
    + unfold set_hostname.
      rewrite (bind_Done _ _ _ _ _ (load_Done _ _ _ Hr)).
      destruct (Z.eqb_spec (is_connected r) 1) as [|_]; [contradiction|].
      destruct (Z.ltb_spec MAX_HOST_LEN len) as [|_]; [lia|].
      rewrite (bind_Done _ _ _ _ _ Hre).
      assert (Hr1 : socks s1 !! sd = Some r) by now rewrite Hsocks.
      rewrite (bind_Done _ _ _ _ _ (store_Done _ _ _ _ Hr1)).
      rewrite Hbad. reflexivity.
    + simpl. rewrite lookup_insert_eq. split; [reflexivity | exact Hb].
  - eexists. split; [|split; [|split]].
    + unfold set_hostname.
      rewrite (bind_Done _ _ _ _ _ (load_Done _ _ _ Hr)).
      destruct (Z.eqb_spec (is_connected r) 1) as [|_]; [contradiction|].
      destruct (Z.ltb_spec MAX_HOST_LEN len) as [|_]; [lia|].
      unfold krealloc.
      destruct (Z.eqb_spec len 0) as [|_]; [lia|].
      unfold mbind at 1, M_bind at 1. simpl.
      rewrite (bind_Done _ _ _ _ _ (store_Done _ _ _ _ Hr)).
      reflexivity.
    + simpl. apply lookup_insert_eq.
    + exact Hold.
    + apply (get_hostname_unset _ sock sd (with_hostname NULL r)).
      * apply (registered_keys s); auto.
        intros p. simpl.
        destruct (decide (sd = p)) as [<-|Hne].
        -- rewrite lookup_insert_eq, Hr. reflexivity.
        -- now rewrite lookup_insert_ne.
      * simpl. apply lookup_insert_eq.
      * reflexivity.
Qed.

Lemma set_hostname_resizes_before_validating_witness :
  (exists l' s',
      set_hostname Sample.sd Sample.bad_name 3 (AllocOk []) Sample.named
      = Done Result.InvalidArgument s'
      /\ socks s' !! Sample.sd = Some (with_hostname (Addr l')
                                        (with_hostname (Addr 1%positive) Sample.record))
      /\ slab s' !! l' = Some [x65; x78; x61])
  /\ (exists s',
      set_hostname Sample.sd Sample.bad_name 3 AllocFail Sample.named
      = Done Result.OutOfMemory s'
      /\ socks s' !! Sample.sd
         = Some (with_hostname NULL (with_hostname (Addr 1%positive) Sample.record))
      /\ slab s' !! 1%positive = Some Sample.example_com
      /\ get_hostname Sample.sock s' = Done (- EFAULT) s').
Proof.
  apply (set_hostname_resizes_before_validating Sample.named Sample.sd
           (with_hostname (Addr 1%positive) Sample.record) 1%positive
           Sample.example_com Sample.bad_name 3 [] Sample.sock).
  - reflexivity.
  - discriminate.
  - reflexivity.
  - reflexivity.
  - unfold MAX_HOST_LEN. lia.
  - reflexivity.
  - reflexivity.
Defined.

(** ** A payload that cannot be allocated *)

(** C2, evaluated on the code.  When [kmalloc] fails in
    [report_data_return] for a registered connection and a payload of at
    least one byte, the function logs and goes on to [memcpy] into the
    [NULL] it stored in [rdata]: the run ends in a null dereference.  No
    out-of-memory status is stored in [response] and the completion is not
    triggered, so a caller whose wait includes this delivery is given no
    status at all. *)
Theorem report_data_return_alloc_failure
    (s : state) (k : Z) (d : loc) (data : list byte) (len : Z) :
  registered s k d ->
  0 < len <= Z.of_nat (length data) ->
  report_data_return k data len AllocFail s = Oops NullDereference
  /\ forall p rest,
      wait_for_completion_timeout p
        (Report_data_return k data len AllocFail :: rest) s
      = Oops NullDereference.
Proof.
  intros Hreg Hlen.
  assert (Hrun : report_data_return k data len AllocFail s = Oops NullDereference).
  { unfold report_data_return.
    rewrite (bind_Done _ _ _ _ _ Hreg).
    destruct (registered_live _ _ _ Hreg) as [r Hr].
    unfold kmalloc. destruct (Z.eqb_spec len 0) as [|_]; [lia|].
    unfold mbind at 1, M_bind at 1. simpl.
    rewrite (bind_Done _ _ _ _ _ (store_Done _ _ _ _ Hr)).
    rewrite emit_bind.
    apply bind_Oops. unfold memcpy.
    destruct (Z.eqb_spec len 0) as [|_]; [lia|].
    destruct (Z.ltb_spec (Z.of_nat (length data)) len) as [|_]; [lia|].
    reflexivity. }
  split; [exact Hrun|].
  intros p rest. unfold wait_for_completion_timeout. simpl.
  apply bind_Oops. apply bind_Oops. exact Hrun.
Qed.

Lemma report_data_return_alloc_failure_witness :
  report_data_return Sample.sock Sample.payload 3 AllocFail Sample.start
  = Oops NullDereference
  /\ forall p rest,
      wait_for_completion_timeout p
        (Report_data_return Sample.sock Sample.payload 3 AllocFail :: rest)
        Sample.start
      = Oops NullDereference.
Proof.
  apply (report_data_return_alloc_failure Sample.start Sample.sock Sample.sd
           Sample.payload 3).
  - reflexivity.
  - simpl. lia.
Defined.

(** ** Scenarios *)

Section Scenarios.

(** Setting ["example.com"] on the unconnected sample record, then
    reading it back with capacity 16 and with capacity 5. *)
Example set_then_get_example_com :
  set_hostname Sample.sd Sample.example_com 12 (AllocOk []) Sample.start
  = Done 0 Sample.named
  /\ get_hostname Sample.sock Sample.named
     = Done 0 (set_optlen_mem (Some 12)
                 (set_optval_mem (Sample.example_com ++ replicate 4 x00)
                    Sample.named))
  /\ get_hostname Sample.sock (Sample.asking 5 Sample.named)
     = Done (- EINVAL) (Sample.asking 5 Sample.named).
Proof. repeat split; vm_compute; reflexivity. Qed.

(** The rejected name of [Sample.bad_name] on the named record: the
    states the two runs end in.  In [Sample.renamed] the hostname is the
    three bytes ["exa"], without a terminator, and reading it runs off
    the buffer. *)
Example set_bad_name_after_example_com :
  set_hostname Sample.sd Sample.bad_name 3 (AllocOk []) Sample.named
  = Done (- EINVAL) Sample.renamed
  /\ get_hostname Sample.sock Sample.renamed = Oops OutOfBounds
  /\ set_hostname Sample.sd Sample.bad_name 3 AllocFail Sample.named
     = Done (- ENOMEM) Sample.unnamed
  /\ get_hostname Sample.sock Sample.unnamed = Done (- EFAULT) Sample.unnamed.
Proof. repeat split; vm_compute; reflexivity. Qed.

(** A set that the daemon never answers. *)
Example set_without_answer :
  exists s',
    tls_common_setsockopt (opts := Sample.options) Sample.sd Sample.sock 0 87
      (Some Sample.payload) 3 None (AllocOk []) (AllocOk []) [] Sample.start
    = Done (- ENOBUFS) s'.
Proof. eexists. vm_compute. reflexivity. Qed.

End Scenarios.

(** * Further properties of the file *)

(** ** Lookup, insertion and removal *)

Section RegistryOps.

Lemma find_sock_total nodes k s :
  (forall d, d ∈ nodes -> is_Some (socks s !! d)) ->
  exists o, find_sock nodes k s = Done o s.
Proof.
  induction nodes as [|it rest IH]; intros Hlive; simpl.
  - now exists None.
  - destruct (Hlive it) as [r Hr]; [apply list_elem_of_here|].
    rewrite (bind_Done _ _ _ _ _ (load_Done _ _ _ Hr)).
    destruct (key r =? k); [now exists (Some it)|].
    apply IH. intros d Hd. apply Hlive. now apply list_elem_of_further.
Qed.

Lemma find_sock_sound nodes k s o :
  find_sock nodes k s = Done o s ->
  match o with
  | Some d => d ∈ nodes /\ exists r, socks s !! d = Some r /\ key r = k
  | None => forall d r, d ∈ nodes -> socks s !! d = Some r -> key r <> k
  end.
Proof.
  induction nodes as [|it rest IH]; simpl; intros H.
  - inversion H. intros d r Hd. now apply elem_of_nil in Hd.
  - unfold mbind, M_bind, load in H.
    destruct (socks s !! it) as [r|] eqn:Hr; [|discriminate].
    destruct (Z.eqb_spec (key r) k) as [Hk|Hk].
    + inversion H; subst o. split; [apply list_elem_of_here | eauto].
    + specialize (IH H). destruct o as [d|].
      * destruct IH as [Hin Hd]. split; [now apply list_elem_of_further | exact Hd].
      * intros d r' Hd Hr'. apply elem_of_cons in Hd as [->|Hd].
        -- congruence.
        -- now apply (IH d r').
Qed.

Lemma get_tls_sock_data_find k s :
  get_tls_sock_data k s = find_sock (tls_sock_data_table s) k s.
Proof. reflexivity. Qed.



End RegistryOps.







(** ** Teardown on a well-kept table *)

Section CleanupRuns.

(** The state after one round of the loop of [tls_cleanup]. *)
Lemma cleanup_round it rest s r :
  socks s !! it = Some r -> hostname_live s r ->
  cleanup_loop (it :: rest) s
  = cleanup_loop rest
      (set_socks (delete it (socks s))
         (set_slab (match hostname r with
                    | Addr lh => delete lh (slab s)
                    | _ => slab s
                    end)
            (set_table (filter (fun x => x <> it) (tls_sock_data_table s)) s))).
Proof.
  intros Hr Hlive. simpl.
  rewrite (bind_Done _ _ _ _ _ (load_Done _ _ _ Hr)).
  unfold hash_del at 1, modify at 1. unfold mbind at 1, M_bind at 1.
  unfold hostname_live in Hlive.
  destruct (hostname r) as [| |lh]; simpl.
  1,2: unfold mbind at 1, M_bind at 1; simpl;
       unfold kfree_sock, mbind, M_bind, load; simpl; rewrite Hr;
       destruct s; reflexivity.
  destruct Hlive as [b Hb].
  unfold mbind at 1, M_bind at 1. simpl. rewrite Hb.
  unfold kfree_sock, mbind, M_bind, load. simpl. rewrite Hr. reflexivity.
Qed.

Lemma cleanup_loop_total nodes s :
  tidy nodes s -> exists s', cleanup_loop nodes s = Done tt s'.
Proof.
  revert s. induction nodes as [|it rest IH]; intros s (Hnd & Hlive & Hdist).
  - now exists s.
  - destruct (Hlive it) as (r & Hr & Hh); [apply list_elem_of_here|].
    rewrite (cleanup_round it rest s r Hr Hh).
    apply NoDup_cons in Hnd as [Hnotin Hnd].
    apply IH. split; [exact Hnd|]. split.
    + intros d Hd.
      assert (Hne : it <> d) by (intros ->; contradiction).
      destruct (Hlive d) as (rd & Hrd & Hhd); [now apply list_elem_of_further|].
      exists rd. simpl. rewrite lookup_delete_ne by exact Hne.
      split; [exact Hrd|].
      unfold hostname_live in *. simpl.
      destruct (hostname rd) as [| |ld] eqn:Hld; auto.
      destruct (hostname r) as [| |lh] eqn:Hlh; auto.
      rewrite lookup_delete_ne; [exact Hhd|].
      intros ->. apply Hne.
      apply (Hdist it d r rd ld); auto.
      * apply list_elem_of_here.
      * now apply list_elem_of_further.
    + intros d d' rd rd' l Hd Hd' Hrd Hrd' Hl Hl'. simpl in Hrd, Hrd'.
      apply lookup_delete_Some in Hrd as [_ Hrd].
      apply lookup_delete_Some in Hrd' as [_ Hrd'].
      apply (Hdist d d' rd rd' l); auto; now apply list_elem_of_further.
Qed.

(** The loop allocates nothing, and frees the hostname of every node it
    visits. *)
Lemma cleanup_loop_frees nodes s s' :
  cleanup_loop nodes s = Done tt s' ->
  (forall l, slab s !! l = None -> slab s' !! l = None)
  /\ (forall d r l, d ∈ nodes -> socks s !! d = Some r -> hostname r = Addr l ->
                    NoDup nodes -> slab s' !! l = None).
Proof.
  revert s. induction nodes as [|it rest IH]; intros s H.
  - inversion H; subst. split; auto.
    intros d r l Hd. now apply elem_of_nil in Hd.
  - apply cleanup_step in H as (r & s1 & Hr & Hrest & _ & Hs & Hb & _).
    destruct (IH _ Hrest) as [IHnone IHfree].
    assert (Hsub : forall l, slab s !! l = None -> slab s1 !! l = None).
    { intros l Hl. rewrite Hb. destruct (hostname r); auto.
      destruct (decide (l0 = l)) as [->|Hne];
        [apply lookup_delete_eq | now rewrite lookup_delete_ne]. }
    split.
    + intros l Hl. apply IHnone. now apply Hsub.
    + intros d rd l Hd Hrd Hl Hnd.
      apply NoDup_cons in Hnd as [Hnotin Hnd].
      apply elem_of_cons in Hd as [->|Hd].
      * apply IHnone. rewrite Hb. rewrite Hr in Hrd. injection Hrd as ->.
        rewrite Hl. apply lookup_delete_eq.
      * apply (IHfree d rd l); auto.
        rewrite Hs. rewrite lookup_delete_ne; [exact Hrd|].
        intros ->. contradiction.
Qed.

End CleanupRuns.

(** X4.  On a table that is well kept (no node twice, every node a live
    record, every hostname null or a live buffer of one record only)
    [tls_cleanup] runs to its end.  Afterwards the table is empty, every
    record that was in it is freed and so is every hostname buffer they
    held, the netlink transport was unregistered as the last step, and a
    lookup of any key finds nothing. *)
Theorem tls_cleanup_runs (s : state) :
  tidy (tls_sock_data_table s) s ->
  exists s',
    tls_cleanup s = Done tt s'
    /\ tls_sock_data_table s' = []
    /\ (forall d, d ∈ tls_sock_data_table s -> socks s' !! d = None)
    /\ (forall d r l, d ∈ tls_sock_data_table s -> socks s !! d = Some r ->
                      hostname r = Addr l -> slab s' !! l = None)
    /\ trace s' = Ev_unregister_netlink :: trace s
    /\ (forall k, get_tls_sock_data k s' = Done None s').
Proof.
  intros Htidy.
  destruct (cleanup_loop_total _ _ Htidy) as [s1 Hloop].
  assert (Hrun : tls_cleanup s = Done tt (log Ev_unregister_netlink s1)).
  { unfold tls_cleanup.
    assert (Hget : get_state s = Done s s) by reflexivity.
    rewrite (bind_Done _ _ _ _ _ Hget), (bind_Done _ _ _ _ _ Hloop).
    reflexivity. }
  destruct (tls_cleanup_empties _ _ Hrun) as (Ht & Hv & Htr).
  destruct (cleanup_loop_frees _ _ _ Hloop) as [_ Hfree].
  exists (log Ev_unregister_netlink s1). repeat split; auto.
  - intros d r l Hd Hr Hl. simpl. apply (Hfree d r l); auto. apply Htidy.
  - intros k. rewrite get_tls_sock_data_find, Ht. reflexivity.
Qed.

Lemma tls_cleanup_runs_witness :
  exists s',
    tls_cleanup Sample.named = Done tt s'
    /\ tls_sock_data_table s' = []
    /\ (forall d, d ∈ tls_sock_data_table Sample.named -> socks s' !! d = None)
    /\ (forall d r l, d ∈ tls_sock_data_table Sample.named ->
                      socks Sample.named !! d = Some r ->
                      hostname r = Addr l -> slab s' !! l = None)
    /\ trace s' = Ev_unregister_netlink :: trace Sample.named
    /\ (forall k, get_tls_sock_data k s' = Done None s').
Proof.
  apply (tls_cleanup_runs Sample.named).
  assert (Hone : forall d, d ∈ tls_sock_data_table Sample.named -> d = Sample.sd).
  { intros d Hd. unfold Sample.named in Hd. simpl in Hd.
    apply elem_of_cons in Hd as [->|Hd]; [reflexivity|].
    now apply elem_of_nil in Hd. }
  split; [|split].
  - apply NoDup_singleton.
  - intros d Hd. apply Hone in Hd as ->.
    eexists. split; [reflexivity|]. eexists. reflexivity.
  - intros d d' r r' l Hd Hd' _ _ _ _.
    apply Hone in Hd as ->. now apply Hone in Hd' as ->.
Defined.

(** ** The response sink, run *)

Section SinkRuns.

Lemma length_uninit n junk : length (uninit n junk) = n.
Proof.
  unfold uninit. rewrite length_take, length_app, length_replicate. lia.
Qed.

(** A lookup on a live table where no record has the key. *)
Lemma get_tls_sock_data_absent s k :
  nodes_live s ->
  (forall d r, d ∈ tls_sock_data_table s -> socks s !! d = Some r -> key r <> k) ->
  get_tls_sock_data k s = Done None s.
Proof.
  intros Hlive Hno.
  destruct (find_sock_total (tls_sock_data_table s) k s Hlive) as [o Ho].
  rewrite get_tls_sock_data_find, Ho.
  destruct o as [d|]; [|reflexivity].
  apply find_sock_sound in Ho as (Hin & r & Hr & Hk).
  now destruct (Hno d r Hin Hr).
Qed.

Lemma report_return_run s k d r ret :
  registered s k d -> socks s !! d = Some r ->
  report_return k ret s
  = Done tt (set_socks
               (<[d := with_sock_event (Completion (S (done (sock_event r))))
                         (with_response ret r)]> (socks s)) s).
Proof.
  intros Hreg Hr. unfold report_return.
  rewrite (bind_Done _ _ _ _ _ Hreg).
  rewrite (bind_Done _ _ _ _ _ (store_Done _ _ _ _ Hr)).
  unfold complete. erewrite store_Done by (simpl; apply lookup_insert_eq).
  simpl. now rewrite insert_insert_eq.
Qed.

(** A payload of at least one byte, with memory for it. *)
Lemma report_data_return_run s k d r data len junk :
  registered s k d -> socks s !! d = Some r ->
  0 < len <= Z.of_nat (length data) ->
  report_data_return k data len (AllocOk junk) s
  = Done tt
      (set_slab (<[fresh (dom (slab s)) := take (Z.to_nat len) data]> (slab s))
         (set_socks
            (<[d := with_sock_event (Completion (S (done (sock_event r))))
                      (carrying (fresh (dom (slab s))) len r)]> (socks s)) s)).
Proof.
  intros Hreg Hr Hlen. unfold report_data_return.
  rewrite (bind_Done _ _ _ _ _ Hreg).
  unfold kmalloc. destruct (Z.eqb_spec len 0) as [|_]; [lia|].
  unfold new_buffer at 1. unfold mbind at 1, M_bind at 1.
  set (l := fresh (dom (slab s))).
  set (s1 := set_slab _ s).
  assert (Hr1 : socks s1 !! d = Some r) by exact Hr.
  rewrite (bind_Done _ _ _ _ _ (store_Done _ _ _ _ Hr1)).
  unfold mbind at 1, M_bind at 1. simpl mret. cbv beta iota.
  unfold M_ret at 1.
  unfold memcpy. destruct (Z.eqb_spec len 0) as [|_]; [lia|].
  destruct (Z.ltb_spec (Z.of_nat (length data)) len) as [|_]; [lia|].
  unfold mbind at 1, M_bind at 1. simpl.
  rewrite lookup_insert_eq, length_uninit.
  destruct (Z.ltb_spec (Z.of_nat (Z.to_nat len)) len) as [|_]; [lia|].
  set (r1 := with_rdata (Addr l) r).
  set (s3 := set_slab _ _).
  assert (Hr3 : socks s3 !! d = Some r1) by (simpl; apply lookup_insert_eq).
  rewrite (bind_Done _ _ _ _ _ (store_Done _ (with_rdata_len len) _ _ Hr3)).
  set (s4 := set_socks _ s3).
  assert (Hr4 : socks s4 !! d = Some (with_rdata_len len r1))
    by (simpl; apply lookup_insert_eq).
  rewrite (bind_Done _ _ _ _ _ (store_Done _ (with_response 0) _ _ Hr4)).
  set (s5 := set_socks _ s4).
  assert (Hr5 : socks s5 !! d = Some (with_response 0 (with_rdata_len len r1)))
    by (simpl; apply lookup_insert_eq).
  unfold complete. rewrite (store_Done _ _ _ _ Hr5).
  subst s5 s4 s3 s1 r1. simpl. rewrite !insert_insert_eq.
  rewrite drop_ge by (rewrite length_uninit; lia).
  rewrite app_nil_r. reflexivity.
Qed.

End SinkRuns.

(** X5.  An answer for a connection that has no record is dropped: when no
    record of a live table has the key, [report_return] and
    [report_data_return] return without changing the state; the payload
    variant does not even allocate. *)
Theorem report_without_record
    (s : state) (k ret : Z) (data : list byte) (len : Z) (o : alloc) :
  nodes_live s ->
  (forall d r, d ∈ tls_sock_data_table s -> socks s !! d = Some r -> key r <> k) ->
  report_return k ret s = Done tt s
  /\ report_data_return k data len o s = Done tt s.
Proof.
  intros Hlive Hno.
  pose proof (get_tls_sock_data_absent s k Hlive Hno) as Hget.
  split.
  - unfold report_return. now rewrite (bind_Done _ _ _ _ _ Hget).
  - unfold report_data_return. now rewrite (bind_Done _ _ _ _ _ Hget).
Qed.

Lemma report_without_record_witness :
  report_return 8 13 Sample.named = Done tt Sample.named
  /\ report_data_return 8 Sample.payload 3 (AllocOk []) Sample.named
     = Done tt Sample.named.
Proof.
  apply (report_without_record Sample.named 8 13 Sample.payload 3 (AllocOk [])).
  - intros d Hd. unfold Sample.named in Hd. simpl in Hd.
    apply elem_of_cons in Hd as [->|Hd]; [eexists; reflexivity|].
    now apply elem_of_nil in Hd.
  - intros d r Hd Hr. unfold Sample.named in Hd. simpl in Hd.
    apply elem_of_cons in Hd as [->|Hd]; [|now apply elem_of_nil in Hd].
    vm_compute in Hr. injection Hr as <-. discriminate.
Defined.

(** ** The wait, run *)

Section WaitRuns.

Lemma wait_cons p c cs s :
  wait_for_completion_timeout p (c :: cs) s
  = match run_sink c s with
    | Done _ s1 => wait_for_completion_timeout p cs s1
    | Oops e => Oops e
    end.
Proof.
  unfold wait_for_completion_timeout. simpl.
  unfold mbind, M_bind. now destruct (run_sink c s).
Qed.

(** No arrival and no completion pending: the wait times out. *)
Lemma wait_times_out p r s :
  socks s !! p = Some r -> done (sock_event r) = O ->
  wait_for_completion_timeout p [] s = Done 0 s.
Proof.
  intros Hr Hd. unfold wait_for_completion_timeout. simpl.
  unfold mbind at 1, M_bind at 1. simpl.
  rewrite (bind_Done _ _ _ _ _ (load_Done _ _ _ Hr)). now rewrite Hd.
Qed.

(** A completion is pending: the wait takes it. *)
Lemma wait_takes_pending p r n s :
  socks s !! p = Some r -> done (sock_event r) = S n ->
  wait_for_completion_timeout p [] s
  = Done 1 (set_socks (<[p := with_sock_event (Completion n) r]> (socks s)) s).
Proof.
  intros Hr Hd. unfold wait_for_completion_timeout. simpl.
  unfold mbind at 1, M_bind at 1. simpl.
  rewrite (bind_Done _ _ _ _ _ (load_Done _ _ _ Hr)). rewrite Hd.
  now rewrite (bind_Done _ _ _ _ _ (store_Done _ _ _ _ Hr)).
Qed.

(** A status arrives during the wait of an idle record: the waiter wakes
    with the status in [response] and nothing else changed. *)
Lemma wait_with_status s k d r ret :
  registered s k d -> socks s !! d = Some r -> done (sock_event r) = O ->
  wait_for_completion_timeout d [Report_return k ret] s
  = Done 1 (set_socks (<[d := answered_with ret r]> (socks s)) s).
Proof.
  intros Hreg Hr Hd. rewrite wait_cons. simpl.
  rewrite (report_return_run s k d r ret Hreg Hr).
  set (r1 := with_sock_event _ _). set (s1 := set_socks _ s).
  assert (Hr1 : socks s1 !! d = Some r1) by (simpl; apply lookup_insert_eq).
  rewrite (wait_takes_pending d r1 (done (sock_event r)) s1 Hr1 eq_refl).
  subst s1 r1.
  simpl. rewrite insert_insert_eq. unfold answered_with.
  destruct r as [? ? ? ? ? ? ? [n]]. simpl in Hd. subst n. reflexivity.
Qed.

(** A payload arrives during the wait of an idle record. *)
Lemma wait_with_payload s k d r data len junk :
  registered s k d -> socks s !! d = Some r -> done (sock_event r) = O ->
  0 < len <= Z.of_nat (length data) ->
  wait_for_completion_timeout d [Report_data_return k data len (AllocOk junk)] s
  = Done 1
      (set_slab (<[fresh (dom (slab s)) := take (Z.to_nat len) data]> (slab s))
         (set_socks (<[d := carrying (fresh (dom (slab s))) len r]> (socks s)) s)).
Proof.
  intros Hreg Hr Hd Hlen. rewrite wait_cons. simpl.
  rewrite (report_data_return_run s k d r data len junk Hreg Hr Hlen).
  set (r1 := with_sock_event _ _). set (s1 := set_slab _ _).
  assert (Hr1 : socks s1 !! d = Some r1) by (simpl; apply lookup_insert_eq).
  rewrite (wait_takes_pending d r1 (done (sock_event r)) s1 Hr1 eq_refl).
  subst s1 r1.
  simpl. rewrite insert_insert_eq. unfold carrying.
  destruct r as [? ? ? ? ? ? ? [n]]. simpl in Hd. subst n. reflexivity.
Qed.

End WaitRuns.

(** ** The dispatchers, up to the wait *)

Section Relays.

Context {opts : socktls}.

(** [tls_common_getsockopt] for [SO_PEER_CERTIFICATE]: the notification is
    sent, and the rest is decided by the wait. *)
Lemma getsockopt_relayed sd sock level orig_func arrivals s cap r1 :
  optlen_mem s = Some cap -> socks s !! sd = Some r1 ->
  tls_common_getsockopt sd sock level SO_PEER_CERTIFICATE orig_func arrivals s
  = match wait_for_completion_timeout sd arrivals
            (log (Ev_send_getsockopt_notification
                    sock level SO_PEER_CERTIFICATE (daemon_id r1)) s) with
    | Oops e => Oops e
    | Done w s2 =>
        if w =? 0 then Done (- ENOBUFS) s2
        else match socks s2 !! sd with
             | None => Oops UseAfterFree
             | Some r =>
                 if negb (response r =? 0) then Done (response r) s2
                 else
                   (let len := CInt.to_int (CInt.min_t_uint cap (rdata_len r)) in
                    failed ← put_user_optlen len;
                    if (failed : bool) then _ ← drop_rdata sd; mret (- EFAULT)
                    else
                      failed ← copy_to_user_from (rdata r) len;
                      if (failed : bool) then _ ← drop_rdata sd; mret (- EFAULT)
                      else mret 0) s2
             end
    end.
Proof.
  intros Hcap Hr1.
  destruct peer_certificate_label as [Hh Hi].
  unfold tls_common_getsockopt.
  assert (Hget : get_user_optlen s = Done (Some cap) s).
  { unfold get_user_optlen. now rewrite Hcap. }
  rewrite (bind_Done _ _ _ _ _ Hget).
  destruct (Z.eqb_spec SO_PEER_CERTIFICATE SO_HOSTNAME) as [|_]; [contradiction|].
  destruct (Z.eqb_spec SO_PEER_CERTIFICATE SO_ID) as [|_]; [contradiction|].
  rewrite Z.eqb_refl.
  rewrite (bind_Done _ _ _ _ _ (load_Done _ _ _ Hr1)), emit_bind.
  unfold mbind at 1, M_bind at 1.
  destruct (wait_for_completion_timeout sd arrivals _) as [w s2|e]; [|reflexivity].
  destruct (w =? 0); [reflexivity|].
  unfold mbind at 1, M_bind at 1, load at 1.
  destruct (socks s2 !! sd) as [r|]; [|reflexivity].
  now destruct (negb (response r =? 0)).
Qed.

(** [tls_common_setsockopt] for an option other than [SO_HOSTNAME]: the
    bytes are sent as they came, and the rest is decided by the wait. *)
Lemma setsockopt_relayed sd sock level optname user optlen orig_func junk o_host
    arrivals s r1 :
  optname <> SO_HOSTNAME -> optlen <> 0 -> optlen <= Z.of_nat (length user) ->
  socks s !! sd = Some r1 ->
  tls_common_setsockopt sd sock level optname (Some user) optlen orig_func
    (AllocOk junk) o_host arrivals s
  = match wait_for_completion_timeout sd arrivals
            (log (Ev_send_setsockopt_notification sock level optname
                    (take (Z.to_nat optlen) user) optlen (daemon_id r1)) s) with
    | Oops e => Oops e
    | Done w s2 =>
        if w =? 0 then Done (- ENOBUFS) s2
        else match socks s2 !! sd with
             | None => Oops UseAfterFree
             | Some r =>
                 if negb (response r =? 0) then Done (response r) s2
                 else if is_virtual optname then Done 0 s2
                 else match orig_func with
                      | Some f =>
                          Done (f sock level optname (Some user) optlen)
                               (log (Ev_orig_setsockopt sock level optname
                                       (Some user) optlen) s2)
                      | None => Done (- EOPNOTSUPP) s2
                      end
             end
    end.
Proof.
  intros Hopt Hlen0 Hlen Hr1. unfold tls_common_setsockopt.
  destruct (Z.eqb_spec optlen 0) as [|_]; [contradiction|].
  destruct (Z.ltb_spec (Z.of_nat (length user)) optlen) as [|_]; [lia|].
  rewrite <- is_virtual_cases.
  destruct (Z.eqb_spec optname SO_HOSTNAME) as [|_]; [contradiction|].
  assert (H0 : (mret 0 : M Z) s = Done 0 s) by reflexivity.
  rewrite (bind_Done _ _ _ _ _ H0).
  change (negb (0 =? 0)) with false. cbv iota.
  rewrite (bind_Done _ _ _ _ _ (load_Done _ _ _ Hr1)), emit_bind.
  unfold mbind at 1, M_bind at 1.
  destruct (wait_for_completion_timeout sd arrivals _) as [w s2|e]; [|reflexivity].
  destruct (w =? 0); [reflexivity|].
  unfold mbind at 1, M_bind at 1, load at 1.
  destruct (socks s2 !! sd) as [r|]; [|reflexivity].
  destruct (negb (response r =? 0)); [reflexivity|]. simpl.
  destruct (_ || _); [reflexivity|].
  destruct orig_func; reflexivity.
Qed.

End Relays.

Section LoggedLookups.

Lemma registered_log s k d e : registered s k d -> registered (log e s) k d.
Proof. apply registered_keys; reflexivity. Qed.

End LoggedLookups.

(** X6.  A status from the daemon is the call's result.  When the daemon
    answers a relayed call on an idle record through [report_return] with
    a non-zero status, [tls_common_setsockopt] (for an option other than
    [SO_HOSTNAME]) and [tls_common_getsockopt] (for [SO_PEER_CERTIFICATE])
    return exactly that status.  The only changes are the notification in
    the trace and the status in the record's [response]; user memory is
    not written and no native handler runs. *)
Theorem daemon_status_is_returned {opts : socktls}
    (sd : loc) (sock level optname : Z) (user : list byte) (optlen : Z)
    (orig_set : option setsockopt_t) (orig_get : option getsockopt_t)
    (junk : list byte) (o_host : alloc) (s : state) (r : tls_sock_data)
    (ret cap : Z) :
  registered s sock sd -> socks s !! sd = Some r -> done (sock_event r) = O ->
  ret <> 0 ->
  optname <> SO_HOSTNAME -> optlen <> 0 -> optlen <= Z.of_nat (length user) ->
  optlen_mem s = Some cap ->
  tls_common_setsockopt sd sock level optname (Some user) optlen orig_set
    (AllocOk junk) o_host [Report_return sock ret] s
  = Done ret
      (set_socks (<[sd := answered_with ret r]> (socks s))
         (log (Ev_send_setsockopt_notification sock level optname
                 (take (Z.to_nat optlen) user) optlen (daemon_id r)) s))
  /\ tls_common_getsockopt sd sock level SO_PEER_CERTIFICATE orig_get
       [Report_return sock ret] s
     = Done ret
         (set_socks (<[sd := answered_with ret r]> (socks s))
            (log (Ev_send_getsockopt_notification sock level SO_PEER_CERTIFICATE
                    (daemon_id r)) s)).
Proof.
  intros Hreg Hr Hidle Hret Hopt Hlen0 Hlen Hcap. split.
  - rewrite (setsockopt_relayed sd sock level optname user optlen orig_set junk
               o_host _ s r Hopt Hlen0 Hlen Hr).
    rewrite (wait_with_status _ sock sd r ret (registered_log _ _ _ _ Hreg) Hr Hidle).
    change (1 =? 0) with false. cbv iota. simpl socks.
    rewrite lookup_insert_eq. simpl.
    destruct (Z.eqb_spec ret 0); [contradiction | reflexivity].
  - rewrite (getsockopt_relayed sd sock level orig_get _ s cap r Hcap Hr).
    rewrite (wait_with_status _ sock sd r ret (registered_log _ _ _ _ Hreg) Hr Hidle).
    change (1 =? 0) with false. cbv iota. simpl socks.
    rewrite lookup_insert_eq. simpl.
    destruct (Z.eqb_spec ret 0); [contradiction | reflexivity].
Qed.

Lemma daemon_status_is_returned_witness :
  tls_common_setsockopt (opts := Sample.options) Sample.sd Sample.sock 0 87
    (Some Sample.payload) 3 None (AllocOk []) (AllocOk [])
    [Report_return Sample.sock 13] Sample.start
  = Done 13
      (set_socks (<[Sample.sd := answered_with 13 Sample.record]> (socks Sample.start))
         (log (Ev_send_setsockopt_notification Sample.sock 0 87
                 (take (Z.to_nat 3) Sample.payload) 3 (daemon_id Sample.record))
            Sample.start))
  /\ tls_common_getsockopt (opts := Sample.options) Sample.sd Sample.sock 0 86 None
       [Report_return Sample.sock 13] Sample.start
     = Done 13
         (set_socks (<[Sample.sd := answered_with 13 Sample.record]> (socks Sample.start))
            (log (Ev_send_getsockopt_notification Sample.sock 0 86
                    (daemon_id Sample.record)) Sample.start)).
Proof.
  apply (daemon_status_is_returned (opts := Sample.options) Sample.sd Sample.sock 0 87
           Sample.payload 3 None None [] (AllocOk []) Sample.start Sample.record 13 16).
  - reflexivity.
  - reflexivity.
  - reflexivity.
  - discriminate.
  - discriminate.
  - discriminate.
  - simpl. lia.
  - reflexivity.
Defined.

(** X7.  A payload from the daemon reaches the caller.  When the daemon
    answers a get for [SO_PEER_CERTIFICATE] on an idle record through
    [report_data_return] with [len] bytes, and the allocator has memory
    for them, the call returns 0, the caller's buffer receives the first
    [min(cap, len)] of those bytes with the rest of it untouched, and
    [min(cap, len)] is what is reported as the length. *)
Theorem daemon_payload_reaches_caller {opts : socktls}
    (sd : loc) (sock level : Z) (orig_func : option getsockopt_t) (s : state)
    (r : tls_sock_data) (data junk : list byte) (len cap : Z) :
  registered s sock sd -> socks s !! sd = Some r -> done (sock_event r) = O ->
  optlen_mem s = Some cap ->
  0 < len <= Z.of_nat (length data) ->
  len <= CInt.INT_MAX ->
  0 <= cap <= CInt.INT_MAX ->
  Z.min cap len <= Z.of_nat (length (optval_mem s)) ->
  exists s',
    tls_common_getsockopt sd sock level SO_PEER_CERTIFICATE orig_func
      [Report_data_return sock data len (AllocOk junk)] s = Done 0 s'
    /\ optlen_mem s' = Some (Z.min cap len)
    /\ optval_mem s'
       = take (Z.to_nat (Z.min cap len)) data
         ++ drop (Z.to_nat (Z.min cap len)) (optval_mem s).
Proof.
  intros Hreg Hr Hidle Hcap Hlen Hmax Hcapr Hroom.
  unfold CInt.INT_MAX in *.
  set (ev := Ev_send_getsockopt_notification sock level SO_PEER_CERTIFICATE
               (daemon_id r)).
  set (l := fresh (dom (slab s))).
  set (payload := take (Z.to_nat len) data).
  assert (Hpl : Z.of_nat (length payload) = len).
  { unfold payload. rewrite length_take. lia. }
  assert (Hdel : delivered s sd sock level
                   [Report_data_return sock data len (AllocOk junk)]
                   (set_slab (<[l := payload]> (slab s))
                      (set_socks (<[sd := carrying l len r]> (socks s)) (log ev s)))
                   l payload).
  { exists r, (carrying l len r). split; [exact Hr|]. split.
    - apply (wait_with_payload (log ev s) sock sd r data len junk); auto.
      now apply registered_log.
    - simpl. rewrite !lookup_insert_eq. repeat split; auto. }
  eexists. split.
  - apply (getsockopt_payload sd sock level orig_func _ s _ l payload cap
             (Z.min cap len) Hcap Hdel).
    + rewrite Hpl. now rewrite min_t_uint_nonneg by lia.
    + lia.
    + lia.
    + lia.
  - simpl. split; [reflexivity|].
    unfold payload. rewrite take_take.
    replace (Z.to_nat (Z.min cap len) `min` Z.to_nat len)%nat
      with (Z.to_nat (Z.min cap len)) by lia.
    reflexivity.
Qed.

Lemma daemon_payload_reaches_caller_witness :
  exists s',
    tls_common_getsockopt (opts := Sample.options) Sample.sd Sample.sock 0 86 None
      [Report_data_return Sample.sock Sample.payload 3 (AllocOk [])]
      (Sample.asking 2 Sample.start) = Done 0 s'
    /\ optlen_mem s' = Some (Z.min 2 3)
    /\ optval_mem s'
       = take (Z.to_nat (Z.min 2 3)) Sample.payload
         ++ drop (Z.to_nat (Z.min 2 3)) (optval_mem (Sample.asking 2 Sample.start)).
Proof.
  apply (daemon_payload_reaches_caller (opts := Sample.options) Sample.sd Sample.sock
           0 None (Sample.asking 2 Sample.start) Sample.record Sample.payload [] 3 2).
  - reflexivity.
  - reflexivity.
  - reflexivity.
  - reflexivity.
  - simpl. lia.
  - unfold CInt.INT_MAX. lia.
  - unfold CInt.INT_MAX. lia.
  - simpl. lia.
Defined.

(** X8.  No answer, no pending completion: the call times out.  With
    nothing arriving during the wait on an idle record, both dispatchers
    return [-ENOBUFS]; the notification was sent and nothing else in the
    state has changed, the caller's buffer included. *)
Theorem unanswered_relay_times_out {opts : socktls}
    (sd : loc) (sock level optname : Z) (user : list byte) (optlen : Z)
    (orig_set : option setsockopt_t) (orig_get : option getsockopt_t)
    (junk : list byte) (o_host : alloc) (s : state) (r : tls_sock_data) (cap : Z) :
  socks s !! sd = Some r -> done (sock_event r) = O ->
  optname <> SO_HOSTNAME -> optlen <> 0 -> optlen <= Z.of_nat (length user) ->
  optlen_mem s = Some cap ->
  tls_common_setsockopt sd sock level optname (Some user) optlen orig_set
    (AllocOk junk) o_host [] s
  = Done Result.NoBufferSpace
      (log (Ev_send_setsockopt_notification sock level optname
              (take (Z.to_nat optlen) user) optlen (daemon_id r)) s)
  /\ tls_common_getsockopt sd sock level SO_PEER_CERTIFICATE orig_get [] s
     = Done Result.NoBufferSpace
         (log (Ev_send_getsockopt_notification sock level SO_PEER_CERTIFICATE
                 (daemon_id r)) s).
Proof.
  intros Hr Hidle Hopt Hlen0 Hlen Hcap. split.
  - rewrite (setsockopt_relayed sd sock level optname user optlen orig_set junk
               o_host _ s r Hopt Hlen0 Hlen Hr).
    now rewrite (wait_times_out sd r (log _ s) Hr Hidle).
  - rewrite (getsockopt_relayed sd sock level orig_get _ s cap r Hcap Hr).
    now rewrite (wait_times_out sd r (log _ s) Hr Hidle).
Qed.

Lemma unanswered_relay_times_out_witness :
  tls_common_setsockopt (opts := Sample.options) Sample.sd Sample.sock 0 20
    (Some Sample.payload) 3 None (AllocOk []) (AllocOk []) [] Sample.start
  = Done Result.NoBufferSpace
      (log (Ev_send_setsockopt_notification Sample.sock 0 20
              (take (Z.to_nat 3) Sample.payload) 3 (daemon_id Sample.record))
         Sample.start)
  /\ tls_common_getsockopt (opts := Sample.options) Sample.sd Sample.sock 0 86 None []
       Sample.start
     = Done Result.NoBufferSpace
         (log (Ev_send_getsockopt_notification Sample.sock 0 86
                 (daemon_id Sample.record)) Sample.start).
Proof.
  apply (unanswered_relay_times_out (opts := Sample.options) Sample.sd Sample.sock 0 20
           Sample.payload 3 None None [] (AllocOk []) Sample.start Sample.record 16).
  - reflexivity.
  - reflexivity.
  - discriminate.
  - discriminate.
  - simpl. lia.
  - reflexivity.
Defined.

(** X9.  A completion left pending is taken by the next call.  When the
    record's completion already counts a trigger (an answer that came
    after its caller had timed out) and its [response] holds a non-zero
    status, the next relayed call does not wait for its own answer: with
    nothing arriving it returns that old status, and the count goes down
    by one. *)
Theorem stale_completion_answers_next_call {opts : socktls}
    (sd : loc) (sock level optname : Z) (user : list byte) (optlen : Z)
    (orig_set : option setsockopt_t) (orig_get : option getsockopt_t)
    (junk : list byte) (o_host : alloc) (s : state) (r : tls_sock_data)
    (n : nat) (cap : Z) :
  socks s !! sd = Some r -> done (sock_event r) = S n -> response r <> 0 ->
  optname <> SO_HOSTNAME -> optlen <> 0 -> optlen <= Z.of_nat (length user) ->
  optlen_mem s = Some cap ->
  tls_common_setsockopt sd sock level optname (Some user) optlen orig_set
    (AllocOk junk) o_host [] s
  = Done (response r)
      (set_socks (<[sd := with_sock_event (Completion n) r]> (socks s))
         (log (Ev_send_setsockopt_notification sock level optname
                 (take (Z.to_nat optlen) user) optlen (daemon_id r)) s))
  /\ tls_common_getsockopt sd sock level SO_PEER_CERTIFICATE orig_get [] s
     = Done (response r)
         (set_socks (<[sd := with_sock_event (Completion n) r]> (socks s))
            (log (Ev_send_getsockopt_notification sock level SO_PEER_CERTIFICATE
                    (daemon_id r)) s)).
Proof.
  intros Hr Hpending Hresp Hopt Hlen0 Hlen Hcap. split.
  - rewrite (setsockopt_relayed sd sock level optname user optlen orig_set junk
               o_host _ s r Hopt Hlen0 Hlen Hr).
    rewrite (wait_takes_pending sd r n (log _ s) Hr Hpending).
    change (1 =? 0) with false. cbv iota. simpl socks.
    rewrite lookup_insert_eq. simpl.
    destruct (Z.eqb_spec (response r) 0); [contradiction | reflexivity].
  - rewrite (getsockopt_relayed sd sock level orig_get _ s cap r Hcap Hr).
    rewrite (wait_takes_pending sd r n (log _ s) Hr Hpending).
    change (1 =? 0) with false. cbv iota. simpl socks.
    rewrite lookup_insert_eq. simpl.
    destruct (Z.eqb_spec (response r) 0); [contradiction | reflexivity].
Qed.

Lemma stale_completion_answers_next_call_witness :
  tls_common_setsockopt (opts := Sample.options) Sample.sd Sample.sock 0 20
    (Some Sample.payload) 3 None (AllocOk []) (AllocOk []) [] Cases.stale
  = Done 13
      (set_socks (<[Sample.sd := with_sock_event (Completion 0)
                      (SockData Sample.sock 1 NULL 0 13 NULL 0 (Completion 1))]>
                    (socks Cases.stale))
         (log (Ev_send_setsockopt_notification Sample.sock 0 20
                 (take (Z.to_nat 3) Sample.payload) 3 1) Cases.stale))
  /\ tls_common_getsockopt (opts := Sample.options) Sample.sd Sample.sock 0 86 None []
       Cases.stale
     = Done 13
         (set_socks (<[Sample.sd := with_sock_event (Completion 0)
                         (SockData Sample.sock 1 NULL 0 13 NULL 0 (Completion 1))]>
                       (socks Cases.stale))
            (log (Ev_send_getsockopt_notification Sample.sock 0 86 1) Cases.stale)).
Proof.
  apply (stale_completion_answers_next_call (opts := Sample.options) Sample.sd
           Sample.sock 0 20 Sample.payload 3 None None [] (AllocOk []) Cases.stale
           (SockData Sample.sock 1 NULL 0 13 NULL 0 (Completion 1)) 0 16).
  - reflexivity.
  - reflexivity.
  - discriminate.
  - discriminate.
  - discriminate.
  - simpl. lia.
  - reflexivity.
Defined.

(** ** What the response sink leaves in place *)

Section SinkKeeps.

Lemma records_kept_refl s : records_kept s s.
Proof.
  repeat split; auto. intros d r Hr. exists r. repeat split; auto.
Qed.

Lemma records_kept_trans s1 s2 s3 :
  records_kept s1 s2 -> records_kept s2 s3 -> records_kept s1 s3.
Proof.
  intros (Ht & Hr & Hn & Hb) (Ht' & Hr' & Hn' & Hb').
  split; [congruence|]. split; [|split; auto].
  intros d r Hd.
  destruct (Hr d r Hd) as (r2 & Hd2 & Hk & Hdm & Hh & Hc).
  destruct (Hr' d r2 Hd2) as (r3 & Hd3 & Hk' & Hdm' & Hh' & Hc').
  exists r3. split; [exact Hd3|]. repeat split; congruence.
Qed.

(** One record rewritten without touching its identity, and at most one
    buffer added where none was. *)
Lemma records_kept_update s s' d r r' :
  socks s !! d = Some r -> same_identity r r' ->
  tls_sock_data_table s' = tls_sock_data_table s ->
  socks s' = <[d := r']> (socks s) ->
  (forall l b, slab s !! l = Some b -> slab s' !! l = Some b) ->
  records_kept s s'.
Proof.
  intros Hr Hid Ht Hs Hb. split; [congruence|]. split; [|split; auto].
  - intros x rx Hx. rewrite Hs.
    destruct (decide (d = x)) as [->|Hne].
    + rewrite lookup_insert_eq. exists r'. split; [reflexivity|]. congruence.
    + rewrite lookup_insert_ne by exact Hne. exists rx. repeat split; auto.
  - intros x Hx. rewrite Hs.
    rewrite lookup_insert_ne; [exact Hx|]. intros ->. congruence.
Qed.

Lemma fresh_slab_free (s : state) : slab s !! fresh (dom (slab s)) = None.
Proof. apply not_elem_of_dom. apply is_fresh. Qed.

Lemma store_inv p f s s' :
  store p f s = Done tt s' ->
  exists r, socks s !! p = Some r /\ s' = set_socks (<[p := f r]> (socks s)) s.
Proof.
  unfold store, mbind, M_bind, load. intros H.
  destruct (socks s !! p) as [r|]; [|discriminate].
  inversion H. now exists r.
Qed.

Lemma kmalloc_inv size o s p s' :
  kmalloc size o s = Done p s' ->
  (s' = s /\ (p = NULL \/ p = ZERO_SIZE_PTR))
  \/ (p = Addr (fresh (dom (slab s)))
      /\ exists b, s' = set_slab (<[fresh (dom (slab s)) := b]> (slab s)) s).
Proof.
  unfold kmalloc. intros H.
  destruct (size =? 0); [inversion H; auto|].
  destruct o as [|junk]; [inversion H; auto|].
  inversion H. right. eauto.
Qed.

Lemma memcpy_inv dst src n s s' :
  memcpy dst src n s = Done tt s' ->
  s' = s \/ exists l b, dst = Addr l /\ s' = set_slab (<[l := b]> (slab s)) s.
Proof.
  unfold memcpy. intros H.
  destruct (n =? 0); [inversion H; auto|].
  destruct (Z.of_nat (length src) <? n); [discriminate|].
  destruct dst as [| |l]; try discriminate.
  destruct (slab s !! l) as [b|]; [|discriminate].
  destruct (Z.of_nat (length b) <? n); [discriminate|].
  inversion H. right. eauto.
Qed.

Lemma report_return_kept k ret s s' :
  report_return k ret s = Done tt s' -> records_kept s s'.
Proof.
  intros H. unfold report_return in H.
  apply bind_inv in H as (o & s0 & Hget & H).
  pose proof (find_sock_state _ _ _ _ _ Hget) as ->.
  destruct o as [d|]; [|inversion H; apply records_kept_refl].
  destruct (registered_live s k d Hget) as [r Hr].
  assert (Hrun := report_return_run s k d r ret Hget Hr).
  unfold report_return in Hrun. rewrite (bind_Done _ _ _ _ _ Hget) in Hrun.
  rewrite Hrun in H. inversion H; subst s'.
  eapply (records_kept_update s _ d r); eauto.
  repeat split.
Qed.

(** Whatever the payload and the allocator: a run of
    [report_data_return] that ends keeps every record in place and every
    buffer that was live. *)
Lemma report_data_return_kept k data len o s s' :
  report_data_return k data len o s = Done tt s' -> records_kept s s'.
Proof.
  intros H. unfold report_data_return in H.
  apply bind_inv in H as (f & s0 & Hget & H).
  pose proof (find_sock_state _ _ _ _ _ Hget) as ->.
  destruct f as [d|]; [|inversion H; apply records_kept_refl].
  apply bind_inv in H as (p & s1 & Hk & H).
  apply bind_inv in H as ([] & s2 & Hst1 & H).
  apply bind_inv in H as ([] & s3 & Hpr & H).
  apply bind_inv in H as ([] & s4 & Hcp & H).
  apply bind_inv in H as ([] & s5 & Hst2 & H).
  apply bind_inv in H as ([] & s6 & Hst3 & H).
  unfold complete in H.
  apply store_inv in Hst1 as (r1 & Hr1 & ->).
  apply store_inv in Hst2 as (r2 & Hr2 & ->).
  apply store_inv in Hst3 as (r3 & Hr3 & ->).
  apply store_inv in H as (r4 & Hr4 & ->).
  assert (Hs3 : s3 = set_socks (<[d := with_rdata p r1]> (socks s1)) s1
                \/ s3 = log Ev_printk
                          (set_socks (<[d := with_rdata p r1]> (socks s1)) s1)).
  { destruct p; inversion Hpr; auto. }
  assert (Hs1 : tls_sock_data_table s1 = tls_sock_data_table s
                /\ socks s1 = socks s
                /\ (slab s1 = slab s
                    \/ (p = Addr (fresh (dom (slab s)))
                        /\ exists b, slab s1 = <[fresh (dom (slab s)) := b]> (slab s)))).
  { apply kmalloc_inv in Hk as [[-> _]|[-> [b ->]]]; simpl; eauto 7. }
  destruct Hs1 as (Ht1 & Hso1 & Hsl1).
  assert (Hs4 : tls_sock_data_table s4 = tls_sock_data_table s
                /\ socks s4 = <[d := with_rdata p r1]> (socks s)
                /\ (slab s4 = slab s
                    \/ exists b, slab s4 = <[fresh (dom (slab s)) := b]> (slab s))).
  { assert (H3 : tls_sock_data_table s3 = tls_sock_data_table s
                 /\ socks s3 = <[d := with_rdata p r1]> (socks s)
                 /\ slab s3 = slab s1).
    { destruct Hs3 as [-> | ->]; simpl; rewrite Hso1; auto. }
    destruct H3 as (Ht3 & Hso3 & Hsl3).
    apply memcpy_inv in Hcp as [-> | (l & b & -> & ->)].
    - split; [exact Ht3|]. split; [exact Hso3|]. rewrite Hsl3.
      destruct Hsl1 as [->|[_ [b ->]]]; eauto.
    - simpl. split; [exact Ht3|]. split; [exact Hso3|]. rewrite Hsl3.
      destruct Hsl1 as [Hsame|[Hp [b' ->]]].
      + apply kmalloc_inv in Hk as [[_ [Hp|Hp]]|[Hp _]]; try discriminate.
        injection Hp as ->. rewrite Hsame. eauto.
      + injection Hp as ->. right. exists b. apply insert_insert_eq. }
  destruct Hs4 as (Ht4 & Hso4 & Hsl4).
  rewrite Hso1 in Hr1.
  simpl in Hr2, Hr3, Hr4. rewrite Hso4, lookup_insert_eq in Hr2.
  rewrite lookup_insert_eq in Hr3. rewrite lookup_insert_eq in Hr4.
  injection Hr2 as <-. injection Hr3 as <-. injection Hr4 as <-.
  apply (records_kept_update s _ d r1
           (with_sock_event
              (Completion (S (done (sock_event
                 (with_response 0 (with_rdata_len len (with_rdata p r1)))))))
              (with_response 0 (with_rdata_len len (with_rdata p r1)))));
    auto.
  - repeat split.
  - simpl. rewrite Hso4. now rewrite !insert_insert_eq.
  - intros l b Hl. simpl.
    destruct Hsl4 as [->|[b' ->]]; [exact Hl|].
    rewrite lookup_insert_ne; [exact Hl|].
    intros Heq. rewrite <- Heq, fresh_slab_free in Hl. discriminate.
Qed.

Lemma run_sinks_kept cs s s' :
  run_sinks cs s = Done tt s' -> records_kept s s'.
Proof.
  revert s. induction cs as [|c cs IH]; simpl; intros s H.
  - inversion H. apply records_kept_refl.
  - apply bind_inv in H as ([] & s1 & Hc & H).
    apply (records_kept_trans s s1 s'); [|now apply IH].
    destruct c; simpl in Hc.
    + now apply report_return_kept in Hc.
    + now apply report_data_return_kept in Hc.
Qed.

(** A lookup gives the same record after as before. *)
Lemma registered_kept s s' k d :
  records_kept s s' -> registered s k d -> registered s' k d.
Proof.
  intros (Ht & Hr & Hn & _) Hreg.
  apply (registered_keys s s' k d Ht); [|exact Hreg].
  intros p. destruct (socks s !! p) as [r|] eqn:Hp.
  - destruct (Hr p r Hp) as (r' & -> & Hk & _). simpl. now rewrite Hk.
  - now rewrite (Hn p Hp).
Qed.

Lemma wait_kept p cs s w s' :
  wait_for_completion_timeout p cs s = Done w s' -> records_kept s s'.
Proof.
  unfold wait_for_completion_timeout. intros H.
  apply bind_inv in H as ([] & s1 & Hs & H).
  apply run_sinks_kept in Hs.
  apply (records_kept_trans s s1 s'); [exact Hs|].
  apply bind_inv in H as (r & s2 & Hl & H).
  unfold load in Hl. destruct (socks s1 !! p) as [r'|] eqn:Hr; [|discriminate].
  inversion Hl; subst r' s2.
  destruct (done (sock_event r)) as [|n].
  - inversion H. apply records_kept_refl.
  - rewrite (bind_Done _ _ _ _ _ (store_Done _ _ _ _ Hr)) in H.
    inversion H; subst s'.
    eapply (records_kept_update s1 _ p r); eauto. repeat split.
Qed.

End SinkKeeps.

(** X10.  Answers from the daemon never disturb the registry.  Whatever
    sequence of [report_return] and [report_data_return] calls runs to its
    end, the table is the same, every record is still there with its key,
    daemon, hostname pointer and connected flag, no record has appeared,
    every buffer that was live is still live with the same bytes, and every
    key resolves to the record it resolved to before. *)
Theorem sinks_keep_records (cs : list sink_call) (s s' : state) :
  run_sinks cs s = Done tt s' ->
  records_kept s s'
  /\ forall k d, registered s k d -> registered s' k d.
Proof.
  intros H. apply run_sinks_kept in H. split; [exact H|].
  intros k d. now apply registered_kept.
Qed.

Lemma sinks_keep_records_witness :
  run_sinks [Report_return Sample.sock 13;
             Report_data_return Sample.sock Sample.payload 3 (AllocOk [])]
    Sample.named = Done tt Cases.twice_answered
  /\ records_kept Sample.named Cases.twice_answered
  /\ forall k d, registered Sample.named k d -> registered Cases.twice_answered k d.
Proof.
  assert (Hrun : run_sinks [Report_return Sample.sock 13;
                            Report_data_return Sample.sock Sample.payload 3 (AllocOk [])]
                   Sample.named = Done tt Cases.twice_answered)
    by (vm_compute; reflexivity).
  split; [exact Hrun|].
  apply (sinks_keep_records _ Sample.named Cases.twice_answered Hrun).
Defined.

(** ** Calls that keep a relation *)

Section Keeps.

Variable R : state -> state -> Prop.
Hypothesis R_refl : forall s, R s s.
Hypothesis R_trans : forall s1 s2 s3, R s1 s2 -> R s2 s3 -> R s1 s3.

Lemma keeps_ret {A} (a : A) : keeps R (mret a).
Proof. intros s a' s' H. inversion H. apply R_refl. Qed.

Lemma keeps_oops {A} e : keeps R (@oops A e).
Proof. intros s a s' H. discriminate. Qed.

Lemma keeps_bind {A B} (m : M A) (k : A -> M B) :
  keeps R m -> (forall a, keeps R (k a)) -> keeps R (m ≫= k).
Proof.
  intros Hm Hk s b s' H.
  apply bind_inv in H as (a & s1 & H1 & H2).
  eapply R_trans; [eapply Hm | eapply Hk]; eauto.
Qed.

(** A call that never changes the state keeps every reflexive relation. *)
Lemma keeps_reader {A} (m : M A) :
  (forall s a s', m s = Done a s' -> s' = s) -> keeps R m.
Proof. intros Hm s a s' H. rewrite (Hm s a s' H). apply R_refl. Qed.

Lemma keeps_load p : keeps R (load p).
Proof.
  apply keeps_reader. intros s a s' H. unfold load in H.
  destruct (socks s !! p); now inversion H.
Qed.

Lemma keeps_buffer p : keeps R (buffer p).
Proof.
  apply keeps_reader. intros s a s' H.
  destruct p; simpl in H; try discriminate.
  destruct (slab s !! l); now inversion H.
Qed.

Lemma keeps_get_tls_sock_data k : keeps R (get_tls_sock_data k).
Proof. apply keeps_reader. intros s a s'. apply find_sock_state. Qed.

Lemma keeps_get_user_optlen : keeps R get_user_optlen.
Proof. apply keeps_reader. intros s a s' H. now inversion H. Qed.

Lemma keeps_deref_optlen : keeps R deref_optlen.
Proof.
  apply keeps_reader. intros s a s' H. unfold deref_optlen in H.
  destruct (optlen_mem s); now inversion H.
Qed.

End Keeps.

Section ReadsKeepKernel.

Lemma kernel_same_refl s : kernel_same s s.
Proof. repeat split. Qed.

Lemma kernel_same_trans s1 s2 s3 :
  kernel_same s1 s2 -> kernel_same s2 s3 -> kernel_same s1 s3.
Proof. intros (?&?&?&?) (?&?&?&?). repeat split; congruence. Qed.

Lemma keeps_put_user_optlen v : keeps kernel_same (put_user_optlen v).
Proof.
  intros s a s' H. unfold put_user_optlen in H.
  destruct (optlen_mem s); inversion H; repeat split.
Qed.

Lemma keeps_assign_optlen v : keeps kernel_same (assign_optlen v).
Proof.
  intros s a s' H. unfold assign_optlen in H.
  destruct (optlen_mem s); inversion H; repeat split.
Qed.

Lemma keeps_copy_to_user_optval src n : keeps kernel_same (copy_to_user_optval src n).
Proof.
  intros s a s' H. unfold copy_to_user_optval in H.
  destruct (_ <=? _)%nat; [destruct (_ <? _)%nat|]; inversion H; repeat split.
Qed.

Lemma keeps_copy_to_user_from p n : keeps kernel_same (copy_to_user_from p n).
Proof.
  unfold copy_to_user_from. destruct (_ =? 0).
  - apply keeps_ret, kernel_same_refl.
  - apply keeps_bind; [apply kernel_same_trans | |].
    + apply keeps_buffer, kernel_same_refl.
    + intros b. apply keeps_copy_to_user_optval.
Qed.

Lemma keeps_get_hostname sock : keeps kernel_same (get_hostname sock).
Proof.
  pose proof kernel_same_refl as Hr. pose proof kernel_same_trans as Ht.
  unfold get_hostname.
  apply keeps_bind; [exact Ht | now apply keeps_get_tls_sock_data |].
  intros [d|]; [|now apply keeps_ret].
  apply keeps_bind; [exact Ht | now apply keeps_load |]. intros r.
  assert (Hrest : forall h,
    keeps kernel_same
      (b ← buffer h;
       match strnlen b (Z.to_nat MAX_HOST_LEN) with
       | None => oops OutOfBounds
       | Some n =>
           let hostname_len := Z.of_nat n + 1 in
           cap ← deref_optlen;
           if cap <? hostname_len then mret (- EINVAL)
           else
             failed ← copy_to_user_from h hostname_len;
             if (failed : bool) then mret (- EFAULT)
             else _ ← assign_optlen hostname_len; mret 0
       end)).
  { intros h.
    apply keeps_bind; [exact Ht | now apply keeps_buffer |]. intros b.
    destruct (strnlen b _) as [n|]; [|apply keeps_oops].
    apply keeps_bind; [exact Ht | now apply keeps_deref_optlen |]. intros cap.
    destruct (cap <? _); [now apply keeps_ret|].
    apply keeps_bind; [exact Ht | apply keeps_copy_to_user_from |].
    intros [|]; [now apply keeps_ret|].
    apply keeps_bind; [exact Ht | apply keeps_assign_optlen |].
    intros _. now apply keeps_ret. }
  destruct (hostname r); [now apply keeps_ret | apply Hrest | apply Hrest].
Qed.

Lemma keeps_get_id sock : keeps kernel_same (get_id sock).
Proof.
  pose proof kernel_same_refl as Hr. pose proof kernel_same_trans as Ht.
  unfold get_id.
  apply keeps_bind; [exact Ht | now apply keeps_get_user_optlen |].
  intros [len|]; [|now apply keeps_ret].
  apply keeps_bind; [exact Ht | apply keeps_put_user_optlen |].
  intros [|]; [now apply keeps_ret|].
  apply keeps_bind; [exact Ht | apply keeps_copy_to_user_optval |].
  intros [|]; now apply keeps_ret.
Qed.

End ReadsKeepKernel.



(** ** Names the validator accepts *)

Section AcceptedNames.

Lemma host_char_not_NUL c : bad_host_char c = false -> Byte.eqb c NUL = false.
Proof.
  intros H. destruct (Byte.eqb c NUL) eqn:Hc; [|reflexivity].
  apply byte_eqb_eq in Hc. subst c. discriminate H.
Qed.

Lemma strnlen_body body rest m :
  forallb (fun c => negb (bad_host_char c)) body = true ->
  (length body < m)%nat ->
  strnlen (body ++ NUL :: rest) m = Some (length body).
Proof.
  revert m. induction body as [|c body IH]; intros m Hall Hm.
  - destruct m; [lia|]. reflexivity.
  - destruct m; [simpl in Hm; lia|]. simpl in *.
    apply andb_true_iff in Hall as [Hc Hall].
    apply negb_true_iff, host_char_not_NUL in Hc. rewrite Hc.
    rewrite IH by (auto; lia). reflexivity.
Qed.

(** An accepted buffer is a C string that fills it: its only terminator
    is its last byte. *)
Lemma accepted_is_string optval :
  is_valid_host_string optval (Z.of_nat (length optval)) = Some 1 ->
  Z.of_nat (length optval) <= MAX_HOST_LEN ->
  exists n, length optval = S n
            /\ strnlen optval (Z.to_nat MAX_HOST_LEN) = Some n.
Proof.
  intros Hvalid Hmax.
  destruct (exists_last (l := optval)) as [body [c ->]].
  { intros ->. discriminate Hvalid. }
  rewrite is_valid_host_string_snoc in Hvalid.
  destruct (forallb _ body) eqn:Hall; [|discriminate].
  destruct (Byte.eqb c NUL) eqn:Hc; [|discriminate].
  apply byte_eqb_eq in Hc. subst c.
  rewrite length_app in Hmax. rewrite length_app.
  change (length [NUL]) with 1%nat in *.
  exists (length body). split; [lia|].
  apply (strnlen_body body [] (Z.to_nat MAX_HOST_LEN) Hall).
  unfold MAX_HOST_LEN in *. lia.
Qed.

End AcceptedNames.

(** X12.  Round trip of the hostname.  For every name the validator
    accepts, of at most [MAX_HOST_LEN] bytes with its terminator, set on an
    unconnected record with memory available: [set_hostname] returns 0,
    and a [get_hostname] for the connection with room for the name then
    returns 0, copies exactly the bytes that were set and reports their
    number. *)
Theorem hostname_round_trip
    (s : state) (sd : loc) (r : tls_sock_data) (optval junk : list byte)
    (sock cap : Z) :
  socks s !! sd = Some r -> is_connected r <> 1 -> hostname_live s r ->
  registered s sock sd ->
  Z.of_nat (length optval) <= MAX_HOST_LEN ->
  is_valid_host_string optval (Z.of_nat (length optval)) = Some 1 ->
  optlen_mem s = Some cap ->
  Z.of_nat (length optval) <= cap ->
  (length optval <= length (optval_mem s))%nat ->
  exists s1,
    set_hostname sd optval (Z.of_nat (length optval)) (AllocOk junk) s = Done 0 s1
    /\ get_hostname sock s1
       = Done 0 (set_optlen_mem (Some (Z.of_nat (length optval)))
                   (set_optval_mem (optval ++ drop (length optval) (optval_mem s))
                      s1)).
Proof.
  intros Hr Hconn Hlive Hreg Hmax Hvalid Hcap Hfit Hroom.
  destruct (set_hostname_stores s sd r optval junk Hr Hconn Hlive Hmax Hvalid)
    as (l & s1 & Hrun & Hsocks & Hl & Ht & Hval & Hlen & _).
  destruct (accepted_is_string optval Hvalid Hmax) as (n & Hn & Hstr).
  exists s1. split; [exact Hrun|].
  assert (Hr1 : socks s1 !! sd = Some (with_hostname (Addr l) r)).
  { rewrite Hsocks. apply lookup_insert_eq. }
  assert (Hreg1 : registered s1 sock sd).
  { apply (registered_keys s s1); auto.
    intros p. rewrite Hsocks.
    destruct (decide (sd = p)) as [<-|Hne].
    - rewrite lookup_insert_eq, Hr. reflexivity.
    - now rewrite lookup_insert_ne. }
  rewrite (get_hostname_copies s1 sock sd _ l optval n cap Hreg1 Hr1 eq_refl Hl Hstr).
  - replace (n + 1)%nat with (length optval) by lia.
    replace (Z.of_nat n + 1) with (Z.of_nat (length optval)) by lia.
    rewrite firstn_all, <- Hval. reflexivity.
  - congruence.
  - lia.
  - lia.
  - rewrite <- Hval. lia.
Qed.

Lemma hostname_round_trip_witness :
  exists s1,
    set_hostname Sample.sd Sample.example_com
      (Z.of_nat (length Sample.example_com)) (AllocOk []) Sample.start = Done 0 s1
    /\ get_hostname Sample.sock s1
       = Done 0 (set_optlen_mem (Some (Z.of_nat (length Sample.example_com)))
                   (set_optval_mem
                      (Sample.example_com
                       ++ drop (length Sample.example_com) (optval_mem Sample.start))
                      s1)).
Proof.
  apply (hostname_round_trip Sample.start Sample.sd Sample.record Sample.example_com
           [] Sample.sock 16).
  - reflexivity.
  - discriminate.
  - exact I.
  - reflexivity.
  - unfold MAX_HOST_LEN. simpl. lia.
  - reflexivity.
  - reflexivity.
  - simpl. lia.
  - simpl. lia.
Defined.

(** ** The local stage of a set *)

Section LocalStage.

Context {opts : socktls}.

Lemma silent_refl s : silent s s.
Proof. reflexivity. Qed.

Lemma silent_trans s1 s2 s3 : silent s1 s2 -> silent s2 s3 -> silent s1 s3.
Proof. unfold silent. congruence. Qed.

Lemma keeps_silent_store p f : keeps silent (store p f).
Proof. intros s [] s' H. apply store_inv in H as (r & _ & ->). reflexivity. Qed.

Lemma keeps_silent_kfree p : keeps silent (kfree p).
Proof.
  intros s a s' H. destruct p; simpl in H.
  1,2: inversion H; reflexivity.
  destruct (slab s !! l); inversion H. reflexivity.
Qed.

Lemma keeps_silent_memcpy dst src n : keeps silent (memcpy dst src n).
Proof.
  intros s [] s' H. apply memcpy_inv in H as [->|(l & b & _ & ->)]; reflexivity.
Qed.

Lemma keeps_silent_krealloc p size o : keeps silent (krealloc p size o).
Proof.
  pose proof silent_refl as Hr. pose proof silent_trans as Ht.
  unfold krealloc. destruct (size =? 0).
  - apply keeps_bind; [exact Ht | apply keeps_silent_kfree |].
    intros _. now apply keeps_ret.
  - destruct o as [|junk]; [now apply keeps_ret|].
    apply keeps_bind; [exact Ht | |].
    + destruct p; [now apply keeps_ret | now apply keeps_ret | now apply keeps_buffer].
    + intros old. apply keeps_bind; [exact Ht | apply keeps_silent_kfree |].
      intros _ s a s' H. inversion H. reflexivity.
Qed.

(** [set_hostname] makes no external call. *)
Lemma keeps_silent_set_hostname sd optval len o :
  keeps silent (set_hostname sd optval len o).
Proof.
  pose proof silent_refl as Hr. pose proof silent_trans as Ht.
  unfold set_hostname.
  apply keeps_bind; [exact Ht | now apply keeps_load |]. intros r.
  destruct (_ =? 1); [now apply keeps_ret|].
  destruct (_ <? len); [now apply keeps_ret|].
  apply keeps_bind; [exact Ht | apply keeps_silent_krealloc |]. intros p.
  apply keeps_bind; [exact Ht | apply keeps_silent_store |]. intros _.
  assert (Hrest : keeps silent
            (match is_valid_host_string optval len with
             | None => oops OutOfBounds
             | Some v =>
                 if v =? 0 then mret (- EINVAL)
                 else _ ← memcpy p optval len; mret 0
             end)).
  { destruct (is_valid_host_string optval len) as [v|]; [|apply keeps_oops].
    destruct (v =? 0); [now apply keeps_ret|].
    apply keeps_bind; [exact Ht | apply keeps_silent_memcpy |].
    intros _. now apply keeps_ret. }
  destruct p; [now apply keeps_ret | exact Hrest | exact Hrest].
Qed.

(** [tls_common_setsockopt] once the option bytes are copied in and the
    local stage has run. *)
Lemma setsockopt_after_local_stage sd sock level optname user optlen orig_func junk
    o_host arrivals s ret s1 :
  optlen <> 0 -> optlen <= Z.of_nat (length user) ->
  (if optname =? SO_HOSTNAME
   then set_hostname sd (take (Z.to_nat optlen) user) optlen o_host
   else mret 0) s = Done ret s1 ->
  tls_common_setsockopt sd sock level optname (Some user) optlen orig_func
    (AllocOk junk) o_host arrivals s
  = if negb (ret =? 0) then Done ret s1
    else match socks s1 !! sd with
      | None => Oops UseAfterFree
      | Some r1 =>
        match wait_for_completion_timeout sd arrivals
                (log (Ev_send_setsockopt_notification sock level optname
                        (take (Z.to_nat optlen) user) optlen (daemon_id r1)) s1) with
        | Oops e => Oops e
        | Done w s2 =>
            if w =? 0 then Done (- ENOBUFS) s2
            else match socks s2 !! sd with
                 | None => Oops UseAfterFree
                 | Some r =>
                     if negb (response r =? 0) then Done (response r) s2
                     else if is_virtual optname then Done 0 s2
                     else match orig_func with
                          | Some f =>
                              Done (f sock level optname (Some user) optlen)
                                   (log (Ev_orig_setsockopt sock level optname
                                           (Some user) optlen) s2)
                          | None => Done (- EOPNOTSUPP) s2
                          end
                 end
        end
      end.
Proof.
  intros Hlen0 Hlen Hlocal. unfold tls_common_setsockopt.
  destruct (Z.eqb_spec optlen 0) as [|_]; [contradiction|].
  destruct (Z.ltb_spec (Z.of_nat (length user)) optlen) as [|_]; [lia|].
  rewrite <- is_virtual_cases.
  rewrite (bind_Done _ _ _ _ _ Hlocal).
  destruct (negb (ret =? 0)); [reflexivity|].
  unfold mbind at 1, M_bind at 1, load at 1.
  destruct (socks s1 !! sd) as [r1|]; [|reflexivity].
  rewrite emit_bind.
  unfold mbind at 1, M_bind at 1.
  destruct (wait_for_completion_timeout sd arrivals _) as [w s2|e]; [|reflexivity].
  destruct (w =? 0); [reflexivity|].
  unfold mbind at 1, M_bind at 1, load at 1.
  destruct (socks s2 !! sd) as [r|]; [|reflexivity].
  destruct (negb (response r =? 0)); [reflexivity|]. simpl.
  destruct (_ || _); [reflexivity|].
  destruct orig_func; reflexivity.
Qed.

End LocalStage.

(** X13.  A hostname refused locally is never relayed.  When
    [set_hostname] returns an error for the bytes of a [SO_HOSTNAME] set,
    [tls_common_setsockopt] returns that error in the state [set_hostname]
    left: no notification is sent to the daemon, the wait is not entered
    (nothing that would arrive is consumed), and the trace is what it
    was. *)
Theorem hostname_error_is_not_relayed {opts : socktls}
    (sd : loc) (sock level : Z) (user : list byte) (optlen : Z)
    (orig_func : option setsockopt_t) (junk : list byte) (o_host : alloc)
    (arrivals : list sink_call) (s s1 : state) (ret : Z) :
  optlen <> 0 -> optlen <= Z.of_nat (length user) ->
  set_hostname sd (take (Z.to_nat optlen) user) optlen o_host s = Done ret s1 ->
  ret <> 0 ->
  tls_common_setsockopt sd sock level SO_HOSTNAME (Some user) optlen orig_func
    (AllocOk junk) o_host arrivals s = Done ret s1
  /\ trace s1 = trace s.
Proof.
  intros Hlen0 Hlen Hset Hret. split.
  - rewrite (setsockopt_after_local_stage sd sock level SO_HOSTNAME user optlen
               orig_func junk o_host arrivals s ret s1 Hlen0 Hlen).
    + destruct (Z.eqb_spec ret 0); [contradiction | reflexivity].
    + now rewrite Z.eqb_refl.
  - symmetry. exact (keeps_silent_set_hostname _ _ _ _ _ _ _ Hset).
Qed.

Lemma hostname_error_is_not_relayed_witness :
  tls_common_setsockopt (opts := Sample.options) Sample.sd Sample.sock 0 85
    (Some Sample.bad_name) 3 None (AllocOk []) (AllocOk [])
    [Report_return Sample.sock 0] Sample.named
  = Done (- EINVAL) Sample.renamed
  /\ trace Sample.renamed = trace Sample.named.
Proof.
  apply (hostname_error_is_not_relayed (opts := Sample.options) Sample.sd Sample.sock
           0 Sample.bad_name 3 None [] (AllocOk []) [Report_return Sample.sock 0]
           Sample.named Sample.renamed (- EINVAL)).
  - discriminate.
  - simpl. lia.
  - vm_compute. reflexivity.
  - discriminate.
Defined.

(** X14.  A set on a connected record, or of more than [MAX_HOST_LEN]
    bytes, changes nothing.  Through [tls_common_setsockopt], a
    [SO_HOSTNAME] set on a record with [is_connected == 1] returns
    [-EISCONN] whatever the bytes are, valid or not, and a set of more than
    [MAX_HOST_LEN] bytes on an unconnected record returns [-EINVAL]; in
    both cases the state after the call is the state before it. *)
Theorem hostname_refused_untouched {opts : socktls}
    (sd : loc) (sock level : Z) (user : list byte) (optlen : Z)
    (orig_func : option setsockopt_t) (junk : list byte) (o_host : alloc)
    (arrivals : list sink_call) (s : state) (r : tls_sock_data) :
  optlen <> 0 -> optlen <= Z.of_nat (length user) ->
  socks s !! sd = Some r ->
  is_connected r = 1 \/ MAX_HOST_LEN < optlen ->
  tls_common_setsockopt sd sock level SO_HOSTNAME (Some user) optlen orig_func
    (AllocOk junk) o_host arrivals s
  = Done (if is_connected r =? 1 then Result.AlreadyConnected
          else Result.InvalidArgument) s.
Proof.
  intros Hlen0 Hlen Hr Hwhy.
  assert (Hset : set_hostname sd (take (Z.to_nat optlen) user) optlen o_host s
                 = Done (if is_connected r =? 1 then - EISCONN else - EINVAL) s).
  { destruct (Z.eqb_spec (is_connected r) 1) as [Hc|Hc].
    - now apply (set_hostname_connected s sd r).
    - destruct Hwhy as [|Hlong]; [contradiction|].
      now apply (set_hostname_too_long s sd r). }
  rewrite (setsockopt_after_local_stage sd sock level SO_HOSTNAME user optlen
             orig_func junk o_host arrivals s
             (if is_connected r =? 1 then - EISCONN else - EINVAL) s Hlen0 Hlen).
  - now destruct (is_connected r =? 1).
  - now rewrite Z.eqb_refl.
Qed.

Lemma hostname_refused_untouched_witness :
  tls_common_setsockopt (opts := Sample.options) Sample.sd Sample.sock 0 85
    (Some Sample.example_com) 12 None (AllocOk []) (AllocOk [])
    [Report_return Sample.sock 0] Cases.connected
  = Done (if 1 =? 1 then Result.AlreadyConnected else Result.InvalidArgument)
      Cases.connected.
Proof.
  apply (hostname_refused_untouched (opts := Sample.options) Sample.sd Sample.sock 0
           Sample.example_com 12 None [] (AllocOk []) [Report_return Sample.sock 0]
           Cases.connected
           (SockData Sample.sock 1 NULL 1 0 NULL 0 (Completion 0))).
  - discriminate.
  - simpl. lia.
  - reflexivity.
  - left. reflexivity.
Defined.

(** X15.  The stored hostname outlives the relay.  Once a valid name has
    been stored by the local stage of a [SO_HOSTNAME] set, it stays:
    however the call ends (timeout, a refusal by the daemon, success) and
    whatever the daemon delivered meanwhile, the record's hostname after
    the call is a live buffer that holds exactly the name.  A refusal by
    the daemon does not roll the name back. *)
Theorem stored_hostname_outlives_relay {opts : socktls}
    (sd : loc) (sock level : Z) (user : list byte)
    (orig_func : option setsockopt_t) (junk junk' : list byte)
    (arrivals : list sink_call) (s s' : state) (r : tls_sock_data) (ret : Z) :
  socks s !! sd = Some r -> is_connected r <> 1 -> hostname_live s r ->
  Z.of_nat (length user) <= MAX_HOST_LEN ->
  is_valid_host_string user (Z.of_nat (length user)) = Some 1 ->
  tls_common_setsockopt sd sock level SO_HOSTNAME (Some user)
    (Z.of_nat (length user)) orig_func (AllocOk junk) (AllocOk junk') arrivals s
  = Done ret s' ->
  exists r' l,
    socks s' !! sd = Some r' /\ hostname r' = Addr l /\ slab s' !! l = Some user.
Proof.
  intros Hr Hconn Hlive Hmax Hvalid Hrun.
  destruct (set_hostname_stores s sd r user junk' Hr Hconn Hlive Hmax Hvalid)
    as (l & s1 & Hset & Hsocks & Hl & _).
  assert (Hpos : Z.of_nat (length user) <> 0).
  { destruct user; [discriminate Hvalid | simpl; lia]. }
  rewrite (setsockopt_after_local_stage sd sock level SO_HOSTNAME user _ orig_func
             junk (AllocOk junk') arrivals s 0 s1 Hpos ltac:(lia)) in Hrun.
  2: { rewrite Z.eqb_refl, Nat2Z.id, firstn_all. exact Hset. }
  change (negb (0 =? 0)) with false in Hrun. cbv iota in Hrun.
  assert (Hr1 : socks s1 !! sd = Some (with_hostname (Addr l) r)).
  { rewrite Hsocks. apply lookup_insert_eq. }
  rewrite Hr1 in Hrun.
  destruct (wait_for_completion_timeout sd arrivals _) as [w s2|e] eqn:Hwait;
    [|discriminate].
  apply wait_kept in Hwait as (_ & Hrec & _ & Hbuf).
  destruct (Hrec sd _ Hr1) as (r2 & Hr2 & _ & _ & Hh & _).
  specialize (Hbuf l user Hl). simpl in Hh.
  assert (Hend : s' = s2
                 \/ exists e, s' = log e s2).
  { destruct (w =? 0); [inversion Hrun; auto|].
    rewrite Hr2 in Hrun.
    destruct (negb (response r2 =? 0)); [inversion Hrun; auto|].
    destruct (is_virtual SO_HOSTNAME); [inversion Hrun; auto|].
    destruct orig_func; inversion Hrun; eauto. }
  exists r2, l.
  destruct Hend as [->|[e ->]]; simpl; auto.
Qed.

Lemma stored_hostname_outlives_relay_witness :
  exists r' l,
    socks (set_socks
             (<[Sample.sd := answered_with 13 (with_hostname (Addr 1%positive)
                                                 Sample.record)]>
                (socks Sample.named))
             (log (Ev_send_setsockopt_notification Sample.sock 0 85
                     Sample.example_com 12 1) Sample.named))
      !! Sample.sd = Some r'
    /\ hostname r' = Addr l
    /\ slab (set_socks
               (<[Sample.sd := answered_with 13 (with_hostname (Addr 1%positive)
                                                   Sample.record)]>
                  (socks Sample.named))
               (log (Ev_send_setsockopt_notification Sample.sock 0 85
                       Sample.example_com 12 1) Sample.named))
         !! l = Some Sample.example_com.
Proof.
  apply (stored_hostname_outlives_relay (opts := Sample.options) Sample.sd Sample.sock
           0 Sample.example_com None [] [] [Report_return Sample.sock 13]
           Sample.start _ Sample.record 13).
  - reflexivity.
  - discriminate.
  - exact I.
  - unfold MAX_HOST_LEN. simpl. lia.
  - reflexivity.
  - vm_compute. reflexivity.
Defined.

(** ** Empty input *)

Section EmptyInput.


End EmptyInput.



(** X17.  A payload that was never collected is replaced, not freed.
    When [report_data_return] delivers a new payload to a record whose
    [rdata] still points to an earlier one, the record afterwards points to
    a new buffer with the new bytes, and the earlier buffer is still
    allocated with its bytes although the record no longer refers to
    it. *)
Theorem uncollected_payload_is_replaced
    (s : state) (k : Z) (d : loc) (r : tls_sock_data) (l0 : loc)
    (b0 data junk : list byte) (len : Z) :
  registered s k d -> socks s !! d = Some r ->
  rdata r = Addr l0 -> slab s !! l0 = Some b0 ->
  0 < len <= Z.of_nat (length data) ->
  exists s' r' l,
    report_data_return k data len (AllocOk junk) s = Done tt s'
    /\ socks s' !! d = Some r'
    /\ rdata r' = Addr l /\ rdata_len r' = len /\ response r' = 0
    /\ l <> l0
    /\ slab s' !! l = Some (take (Z.to_nat len) data)
    /\ slab s' !! l0 = Some b0.
Proof.
  intros Hreg Hr Hrd Hb0 Hlen.
  rewrite (report_data_return_run s k d r data len junk Hreg Hr Hlen).
  assert (Hne : fresh (dom (slab s)) <> l0).
  { intros Heq. rewrite <- Heq, fresh_slab_free in Hb0. discriminate. }
  eexists _, _, (fresh (dom (slab s))). split; [reflexivity|]. simpl.
  rewrite !lookup_insert_eq. rewrite lookup_insert_ne by exact Hne.
  repeat split; auto.
Qed.

Lemma uncollected_payload_is_replaced_witness :
  exists s' r' l,
    report_data_return Sample.sock Sample.example_com 12 (AllocOk []) Sample.holding
    = Done tt s'
    /\ socks s' !! Sample.sd = Some r'
    /\ rdata r' = Addr l /\ rdata_len r' = 12 /\ response r' = 0
    /\ l <> 2%positive
    /\ slab s' !! l = Some (take (Z.to_nat 12) Sample.example_com)
    /\ slab s' !! 2%positive = Some Sample.payload.
Proof.
  apply (uncollected_payload_is_replaced Sample.holding Sample.sock Sample.sd
           (with_rdata_len 3 (with_rdata (Addr 2%positive)
              (with_hostname (Addr 1%positive) Sample.record)))
           2%positive Sample.payload Sample.example_com [] 12).
  - reflexivity.
  - reflexivity.
  - reflexivity.
  - reflexivity.
  - simpl. lia.
Defined.

(** X18.  The identifier get truncates and needs no record.  For a
    capacity that is not negative, [get_id] returns 0, reports
    [min(cap, sizeof_sock)] and copies that many bytes of the pointer
    value, the rest of the caller's buffer untouched.  It looks nothing up:
    this holds in every state, registered connection or not, and a
    capacity of zero copies nothing. *)
Theorem get_id_truncates (sock : Z) (s : state) (cap : Z) :
  optlen_mem s = Some cap ->
  0 <= cap <= CInt.INT_MAX ->
  Z.min cap sizeof_sock <= Z.of_nat (length (optval_mem s)) ->
  get_id sock s
  = Done 0 (set_optval_mem
              (take (Z.to_nat (Z.min cap sizeof_sock)) (pointer_bytes sock)
               ++ drop (Z.to_nat (Z.min cap sizeof_sock)) (optval_mem s))
              (set_optlen_mem (Some (Z.min cap sizeof_sock)) s)).
Proof.
  intros Hcap Hrange Hroom. unfold CInt.INT_MAX in Hrange.
  apply (get_id_run sock s cap (Z.min cap sizeof_sock) Hcap).
  - unfold sizeof_sock. now rewrite min_t_uint_nonneg by lia.
  - unfold sizeof_sock. lia.
  - exact Hroom.
Qed.

Lemma get_id_truncates_witness :
  get_id 1000 (Sample.asking 3 (set_table [] Sample.start))
  = Done 0 (set_optval_mem
              (take (Z.to_nat (Z.min 3 sizeof_sock)) (pointer_bytes 1000)
               ++ drop (Z.to_nat (Z.min 3 sizeof_sock))
                    (optval_mem (Sample.asking 3 (set_table [] Sample.start))))
              (set_optlen_mem (Some (Z.min 3 sizeof_sock))
                 (Sample.asking 3 (set_table [] Sample.start)))).
Proof.
  apply (get_id_truncates 1000 (Sample.asking 3 (set_table [] Sample.start)) 3).
  - reflexivity.
  - unfold CInt.INT_MAX. lia.
  - unfold sizeof_sock. simpl. lia.
Defined.

(** ** The identifier as bytes *)

Section IdBytes.



End IdBytes.



(** ** When the native handler runs *)

(** X20.  The native handler runs only after the daemon agreed.  In every
    run of [tls_common_setsockopt] that returns, whatever the arguments:
    either no native handler was called, or the option is not one of the
    three virtual ones, a handler was given, the daemon's status in the
    record is 0, the handler was called exactly once with the original
    arguments, and its result is the call's result. *)
Theorem native_set_only_after_agreement {opts : socktls}
    (sd : loc) (sock level optname : Z) (optval : option (list byte)) (optlen : Z)
    (orig_func : option setsockopt_t) (o_copy o_host : alloc)
    (arrivals : list sink_call) (s s' : state) (ret : Z) :
  tls_common_setsockopt sd sock level optname optval optlen orig_func
    o_copy o_host arrivals s = Done ret s' ->
  native_calls (trace s') = native_calls (trace s)
  \/ (is_virtual optname = false
      /\ exists f r',
          orig_func = Some f
          /\ ret = f sock level optname optval optlen
          /\ native_calls (trace s')
             = Ev_orig_setsockopt sock level optname optval optlen
               :: native_calls (trace s)
          /\ socks s' !! sd = Some r'
          /\ response r' = 0).
Proof.
  intros Hrun.
  destruct optval as [user|]; [|inversion Hrun; auto].
  destruct (Z.eq_dec optlen 0) as [->|Hlen0]; [inversion Hrun; auto|].
  destruct o_copy as [|junk].
  { unfold tls_common_setsockopt in Hrun.
    destruct (Z.eqb_spec optlen 0); [contradiction|]. inversion Hrun; auto. }
  destruct (Z.lt_ge_cases (Z.of_nat (length user)) optlen) as [Hshort|Hlen].
  { unfold tls_common_setsockopt in Hrun.
    destruct (Z.eqb_spec optlen 0); [contradiction|].
    destruct (Z.ltb_spec (Z.of_nat (length user)) optlen); [|lia].
    inversion Hrun; auto. }
  destruct ((if optname =? SO_HOSTNAME
             then set_hostname sd (take (Z.to_nat optlen) user) optlen o_host
             else mret 0) s) as [ret1 s1|e] eqn:Hlocal.
  2: { unfold tls_common_setsockopt in Hrun.
       destruct (Z.eqb_spec optlen 0); [contradiction|].
       destruct (Z.ltb_spec (Z.of_nat (length user)) optlen); [lia|].
       rewrite (bind_Oops _ _ _ _ Hlocal) in Hrun. discriminate. }
  pose proof (preserves_local_stage _ _ _ _ _ _ _ _ Hlocal) as (_ & _ & _ & Hn1).
  rewrite (setsockopt_after_local_stage sd sock level optname user optlen orig_func
             junk o_host arrivals s ret1 s1 Hlen0 Hlen Hlocal) in Hrun.
  destruct (negb (ret1 =? 0)); [inversion Hrun; subst; auto|].
  destruct (socks s1 !! sd) as [r1|]; [|discriminate].
  destruct (wait_for_completion_timeout sd arrivals _) as [w s2|e] eqn:Hwait;
    [|discriminate].
  pose proof (preserves_wait _ _ _ _ _ Hwait) as (_ & _ & _ & Hn2).
  simpl in Hn2.
  destruct (w =? 0); [inversion Hrun; subst; left; congruence|].
  destruct (socks s2 !! sd) as [r2|] eqn:Hr2; [|discriminate].
  destruct (Z.eqb_spec (response r2) 0) as [Hresp|Hresp]; simpl in Hrun;
    [|inversion Hrun; subst; left; congruence].
  destruct (is_virtual optname) eqn:Hvirt;
    [inversion Hrun; subst; left; congruence|].
  destruct orig_func as [f|]; [|inversion Hrun; subst; left; congruence].
  inversion Hrun; subst. right. split; [reflexivity|].
  exists f, r2. repeat split; auto. simpl. congruence.
Qed.

Lemma native_set_only_after_agreement_witness :
  native_calls
    (trace (log (Ev_orig_setsockopt Sample.sock 0 20 (Some Sample.payload) 3)
              (set_socks (<[Sample.sd := answered_with 0 Sample.record]>
                            (socks Sample.start))
                 (log (Ev_send_setsockopt_notification Sample.sock 0 20
                         Sample.payload 3 1) Sample.start))))
  = native_calls (trace Sample.start)
  \/ (is_virtual (opts := Sample.options) 20 = false
      /\ exists f r',
          Some (fun _ _ _ _ _ => 42) = Some f
          /\ 42 = f Sample.sock 0 20 (Some Sample.payload) 3
          /\ native_calls
               (trace (log (Ev_orig_setsockopt Sample.sock 0 20 (Some Sample.payload) 3)
                         (set_socks (<[Sample.sd := answered_with 0 Sample.record]>
                                       (socks Sample.start))
                            (log (Ev_send_setsockopt_notification Sample.sock 0 20
                                    Sample.payload 3 1) Sample.start))))
             = Ev_orig_setsockopt Sample.sock 0 20 (Some Sample.payload) 3
               :: native_calls (trace Sample.start)
          /\ socks (log (Ev_orig_setsockopt Sample.sock 0 20 (Some Sample.payload) 3)
                      (set_socks (<[Sample.sd := answered_with 0 Sample.record]>
                                    (socks Sample.start))
                         (log (Ev_send_setsockopt_notification Sample.sock 0 20
                                 Sample.payload 3 1) Sample.start)))
             !! Sample.sd = Some r'
          /\ response r' = 0).
Proof.
  apply (native_set_only_after_agreement (opts := Sample.options) Sample.sd Sample.sock
           0 20 (Some Sample.payload) 3 (Some (fun _ _ _ _ _ => 42)) (AllocOk [])
           (AllocOk []) [Report_return Sample.sock 0] Sample.start).
  vm_compute. reflexivity.
Defined.

(** ** The failure exit of the payload path *)

(** X21.  A payload the caller's buffer cannot take is freed, after its
    length was reported.  On the [SO_PEER_CERTIFICATE] path, when the
    daemon answered with status 0 and the bytes selected do not fit the
    writable part of the caller's buffer, the call returns [-EFAULT]; by
    then it has already stored the selected length in [*optlen], and on
    the way out it frees the payload and resets [rdata] to [NULL] and
    [rdata_len] to 0. *)
Theorem short_buffer_frees_payload {opts : socktls}
    (sd : loc) (sock level : Z) (orig_func : option getsockopt_t)
    (arrivals : list sink_call) (s s2 : state) (l : loc) (payload : list byte)
    (cap : Z) :
  optlen_mem s = Some cap ->
  delivered s sd sock level arrivals s2 l payload ->
  0 < cap <= CInt.INT_MAX ->
  Z.of_nat (length payload) <= CInt.INT_MAX ->
  0 < Z.of_nat (length payload) ->
  Z.of_nat (length (optval_mem s)) < Z.min cap (Z.of_nat (length payload)) ->
  exists s3 r3,
    tls_common_getsockopt sd sock level SO_PEER_CERTIFICATE orig_func arrivals s
    = Done Result.BadAddress s3
    /\ optlen_mem s3 = Some (Z.min cap (Z.of_nat (length payload)))
    /\ socks s3 !! sd = Some r3 /\ rdata r3 = NULL /\ rdata_len r3 = 0
    /\ slab s3 !! l = None.
Proof.
  intros Hcap Hdel Hrange Hpl Hpos Hshort. unfold CInt.INT_MAX in *.
  pose proof Hdel as (r1 & r2 & Hr1 & Hwait & Hr2 & Hresp & Hrd & Hl & Hrl).
  pose proof (preserves_wait _ _ _ _ _ Hwait) as (_ & Hval & Holen & _).
  simpl in Hval, Holen.
  set (len := Z.min cap (Z.of_nat (length payload))) in *.
  rewrite (getsockopt_relayed sd sock level orig_func arrivals s cap r1 Hcap Hr1).
  rewrite Hwait. change (1 =? 0) with false. cbv iota.
  rewrite Hr2, Hresp. change (negb (0 =? 0)) with false. cbv iota zeta.
  rewrite Hrl, (min_t_uint_nonneg cap (Z.of_nat (length payload))) by lia.
  fold len.
  assert (Hcap2 : optlen_mem s2 = Some cap) by congruence.
  rewrite (bind_Done _ _ _ _ _ (put_user_optlen_ok _ _ _ Hcap2)). cbv iota.
  rewrite Hrd.
  set (s2' := set_optlen_mem (Some len) s2).
  assert (Hcopy : exists s', copy_to_user_from (Addr l) len s2' = Done true s'
                             /\ socks s' = socks s2 /\ slab s' = slab s2
                             /\ optlen_mem s' = Some len).
  { unfold copy_to_user_from. rewrite Z.mod_small by lia.
    destruct (Z.eqb_spec len 0); [lia|].
    assert (Hbuf : buffer (Addr l) s2' = Done payload s2') by (simpl; now rewrite Hl).
    rewrite (bind_Done _ _ _ _ _ Hbuf).
    unfold copy_to_user_optval. rewrite Z.mod_small by lia.
    destruct (Nat.leb_spec (Z.to_nat len) (length (optval_mem s2'))) as [Hfit|_].
    { simpl in Hfit. rewrite <- Hval in Hfit. lia. }
    eexists. split; [reflexivity|]. repeat split. }
  destruct Hcopy as (s' & Hcopy & Hsocks & Hslab & Holen').
  rewrite (bind_Done _ _ _ _ _ Hcopy). cbv iota.
  assert (Hr' : socks s' !! sd = Some r2) by (rewrite Hsocks; exact Hr2).
  assert (Hl' : slab s' !! l = Some payload) by (rewrite Hslab; exact Hl).
  destruct (drop_rdata_ok s' sd r2 l payload Hr' Hrd Hl')
    as (s3 & r3 & Hdrop & Hr3 & Hnull & Hzero & Hslab3).
  rewrite (bind_Done _ _ _ _ _ Hdrop).
  exists s3, r3. split; [reflexivity|].
  repeat split; auto.
  - assert (Hfr : preserves (drop_rdata sd)).
    { unfold drop_rdata.
      apply preserves_bind; [apply preserves_load|]. intros r.
      apply preserves_bind; [apply preserves_kfree|]. intros _.
      apply preserves_bind; apply preserves_store || (intros _; apply preserves_store). }
    destruct (Hfr _ _ _ Hdrop) as (_ & _ & Ho & _). congruence.
  - rewrite Hslab3. apply lookup_delete_eq.
Qed.

Lemma short_buffer_frees_payload_witness :
  exists s3 r3,
    tls_common_getsockopt (opts := Sample.options) Sample.sd Sample.sock 0 86 None
      Sample.answer (set_optval_mem [x00] (Sample.asking 16 Sample.start))
    = Done Result.BadAddress s3
    /\ optlen_mem s3 = Some (Z.min 16 (Z.of_nat (length Sample.payload)))
    /\ socks s3 !! Sample.sd = Some r3 /\ rdata r3 = NULL /\ rdata_len r3 = 0
    /\ slab s3 !! 1%positive = None.
Proof.
  apply (short_buffer_frees_payload (opts := Sample.options) Sample.sd Sample.sock 0
           None Sample.answer (set_optval_mem [x00] (Sample.asking 16 Sample.start))
           (set_optval_mem [x00] (Sample.answered 16)) 1%positive Sample.payload 16).
  - reflexivity.
  - exists Sample.record,
      (with_rdata_len 3 (with_rdata (Addr 1%positive) Sample.record)).
    repeat split.
  - unfold CInt.INT_MAX. lia.
  - unfold CInt.INT_MAX. simpl. lia.
  - simpl. lia.
  - simpl. lia.
Defined.

(** ** What a get tells the daemon *)

Section QuietCalls.

Context {opts : socktls}.

Lemma keeps_kernel_silent {A} (m : M A) : keeps kernel_same m -> keeps silent m.
Proof. intros Hm s a s' H. now destruct (Hm s a s' H) as (_ & _ & _ & Ht). Qed.

Lemma kmalloc_NULL size o s s' :
  kmalloc size o s = Done NULL s' -> size <> 0 /\ s' = s.
Proof.
  unfold kmalloc. destruct (Z.eqb_spec size 0); [discriminate|].
  destruct o; [|discriminate]. intros H. inversion H. auto.
Qed.

Lemma keeps_silent_report_return k ret : keeps silent (report_return k ret).
Proof.
  pose proof silent_refl as Hr. pose proof silent_trans as Ht.
  unfold report_return.
  apply keeps_bind; [exact Ht | now apply keeps_get_tls_sock_data |].
  intros [d|]; [|now apply keeps_ret].
  apply keeps_bind; [exact Ht | apply keeps_silent_store |].
  intros _. apply keeps_silent_store.
Qed.

(** The message of [report_data_return] is never seen in a run that
    returns: the run that prints it faults in the copy that follows. *)
Lemma keeps_silent_report_data_return k data len o :
  keeps silent (report_data_return k data len o).
Proof.
  pose proof silent_refl as Hr. pose proof silent_trans as Ht.
  intros s [] s' H. unfold report_data_return in H.
  apply bind_inv in H as (f & s0 & Hget & H).
  pose proof (find_sock_state _ _ _ _ _ Hget) as ->.
  destruct f as [d|]; [|inversion H; reflexivity].
  apply bind_inv in H as (p & s1 & Hk & H).
  apply bind_inv in H as ([] & s2 & Hst1 & H).
  apply bind_inv in H as ([] & s3 & Hpr & H).
  apply bind_inv in H as ([] & s4 & Hcp & H).
  apply bind_inv in H as ([] & s5 & Hst2 & H).
  apply bind_inv in H as ([] & s6 & Hst3 & H).
  assert (H1 : silent s s1).
  { apply kmalloc_inv in Hk as [[-> _]|[_ [b ->]]]; reflexivity. }
  assert (H2 : silent s1 s2) by exact (keeps_silent_store _ _ _ _ _ Hst1).
  assert (H3 : silent s2 s3).
  { destruct p; try (inversion Hpr; reflexivity).
    exfalso. apply kmalloc_NULL in Hk as [Hlen _].
    inversion Hpr; subst s3. unfold memcpy in Hcp.
    destruct (Z.eqb_spec len 0); [contradiction|].
    destruct (_ <? len); discriminate. }
  assert (H4 : silent s3 s4) by exact (keeps_silent_memcpy _ _ _ _ _ _ Hcp).
  assert (H5 : silent s4 s5) by exact (keeps_silent_store _ _ _ _ _ Hst2).
  assert (H6 : silent s5 s6) by exact (keeps_silent_store _ _ _ _ _ Hst3).
  assert (H7 : silent s6 s') by exact (keeps_silent_store _ _ _ _ _ H).
  unfold silent in *. congruence.
Qed.

Lemma keeps_silent_run_sinks cs : keeps silent (run_sinks cs).
Proof.
  pose proof silent_refl as Hr. pose proof silent_trans as Ht.
  induction cs as [|c cs IH]; simpl; [now apply keeps_ret|].
  apply keeps_bind; [exact Ht | | intros _; exact IH].
  destruct c; simpl.
  - apply keeps_silent_report_return.
  - apply keeps_silent_report_data_return.
Qed.

Lemma keeps_silent_wait p cs : keeps silent (wait_for_completion_timeout p cs).
Proof.
  pose proof silent_refl as Hr. pose proof silent_trans as Ht.
  unfold wait_for_completion_timeout.
  apply keeps_bind; [exact Ht | apply keeps_silent_run_sinks |]. intros _.
  apply keeps_bind; [exact Ht | now apply keeps_load |]. intros r.
  destruct (done (sock_event r)); [now apply keeps_ret|].
  apply keeps_bind; [exact Ht | apply keeps_silent_store |].
  intros _. now apply keeps_ret.
Qed.

Lemma keeps_silent_drop_rdata sd : keeps silent (drop_rdata sd).
Proof.
  pose proof silent_refl as Hr. pose proof silent_trans as Ht.
  unfold drop_rdata.
  apply keeps_bind; [exact Ht | now apply keeps_load |]. intros r.
  apply keeps_bind; [exact Ht | apply keeps_silent_kfree |]. intros _.
  apply keeps_bind; [exact Ht | apply keeps_silent_store |]. intros _.
  apply keeps_silent_store.
Qed.

End QuietCalls.

(** X22.  A get reaches the daemon for [SO_PEER_CERTIFICATE] only.  In
    every run of [tls_common_getsockopt] that returns, the trace grows by
    at most one call: the notification to the daemon, and then the option
    is [SO_PEER_CERTIFICATE]; or the native handler, and then the option
    is none of [SO_HOSTNAME], [SO_ID] and [SO_PEER_CERTIFICATE] and a
    handler was given.  [SO_HOSTNAME] and [SO_ID] are answered without any
    external call, and so is every failure before the dispatch. *)
Theorem get_relays_only_peer_certificate {opts : socktls}
    (sd : loc) (sock level optname : Z) (orig_func : option getsockopt_t)
    (arrivals : list sink_call) (s s' : state) (ret : Z) :
  tls_common_getsockopt sd sock level optname orig_func arrivals s = Done ret s' ->
  (optname = SO_PEER_CERTIFICATE
   /\ exists r, socks s !! sd = Some r
                /\ trace s' = Ev_send_getsockopt_notification sock level optname
                                (daemon_id r) :: trace s)
  \/ (optname <> SO_HOSTNAME /\ optname <> SO_ID /\ optname <> SO_PEER_CERTIFICATE
      /\ orig_func <> None
      /\ trace s' = Ev_orig_getsockopt sock level optname :: trace s)
  \/ trace s' = trace s.
Proof.
  intros Hrun. unfold tls_common_getsockopt in Hrun.
  apply bind_inv in Hrun as (v & s0 & Hget & Hrun).
  inversion Hget; subst v s0; clear Hget.
  destruct (optlen_mem s) as [len|] eqn:Hlen; [|inversion Hrun; auto].
  destruct (Z.eqb_spec optname SO_HOSTNAME) as [Hh|Hh].
  { right; right. symmetry.
    now destruct (keeps_get_hostname _ _ _ _ Hrun) as (_ & _ & _ & Ht). }
  destruct (Z.eqb_spec optname SO_ID) as [Hi|Hi].
  { right; right. symmetry.
    now destruct (keeps_get_id _ _ _ _ Hrun) as (_ & _ & _ & Ht). }
  destruct (Z.eqb_spec optname SO_PEER_CERTIFICATE) as [Hp|Hp].
  - left. split; [exact Hp|].
    apply bind_inv in Hrun as (r & s1 & Hload & Hrun).
    unfold load in Hload. destruct (socks s !! sd) as [r'|] eqn:Hr; [|discriminate].
    inversion Hload; subst r' s1; clear Hload.
    exists r. split; [reflexivity|].
    rewrite emit_bind in Hrun.
    apply bind_inv in Hrun as (w & s2 & Hwait & Hrun).
    pose proof (keeps_silent_wait _ _ _ _ _ Hwait) as Hs2. unfold silent in Hs2.
    simpl in Hs2. rewrite Hs2.
    assert (Htail : keeps silent
              (if w =? 0 then mret (- ENOBUFS)
               else
                 r0 ← load sd;
                 if negb (response r0 =? 0) then mret (response r0)
                 else
                   let len0 := CInt.to_int (CInt.min_t_uint len (rdata_len r0)) in
                   failed ← put_user_optlen len0;
                   if (failed : bool) then _ ← drop_rdata sd; mret (- EFAULT)
                   else
                     failed0 ← copy_to_user_from (rdata r0) len0;
                     if (failed0 : bool) then _ ← drop_rdata sd; mret (- EFAULT)
                     else mret 0)).
    { pose proof silent_refl as Hrf. pose proof silent_trans as Htr.
      destruct (w =? 0); [now apply keeps_ret|].
      apply keeps_bind; [exact Htr | now apply keeps_load |]. intros r0.
      destruct (negb _); [now apply keeps_ret|].
      apply keeps_bind;
        [exact Htr | apply keeps_kernel_silent, keeps_put_user_optlen |].
      intros [|].
      - apply keeps_bind; [exact Htr | apply keeps_silent_drop_rdata |].
        intros _. now apply keeps_ret.
      - apply keeps_bind;
          [exact Htr | apply keeps_kernel_silent, keeps_copy_to_user_from |].
        intros [|]; [|now apply keeps_ret].
        apply keeps_bind; [exact Htr | apply keeps_silent_drop_rdata |].
        intros _. now apply keeps_ret. }
    symmetry. exact (Htail _ _ _ Hrun).
  - destruct orig_func as [f|]; [|inversion Hrun; auto].
    right; left.
    split; [exact Hh|]. split; [exact Hi|]. split; [exact Hp|].
    split; [discriminate|].
    unfold call_orig_getsockopt in Hrun.
    destruct (f sock level optname (optval_mem s) _) as [r0 [val ln]].
    inversion Hrun. reflexivity.
Qed.

Lemma get_relays_only_peer_certificate_witness :
  (85 = 86
   /\ exists r, socks (Sample.asking 5 Sample.named) !! Sample.sd = Some r
                /\ trace (Sample.asking 5 Sample.named)
                   = Ev_send_getsockopt_notification Sample.sock 0 85 (daemon_id r)
                     :: trace (Sample.asking 5 Sample.named))
  \/ (85 <> 85 /\ 85 <> 89 /\ 85 <> 86
      /\ @None getsockopt_t <> None
      /\ trace (Sample.asking 5 Sample.named)
         = Ev_orig_getsockopt Sample.sock 0 85 :: trace (Sample.asking 5 Sample.named))
  \/ trace (Sample.asking 5 Sample.named) = trace (Sample.asking 5 Sample.named).
Proof.
  apply (get_relays_only_peer_certificate (opts := Sample.options) Sample.sd
           Sample.sock 0 85 None [] (Sample.asking 5 Sample.named)
           (Sample.asking 5 Sample.named) (- EINVAL)).
  vm_compute. reflexivity.
Defined.

(** ** A registry set up afresh *)

(** X23.  Setup, then one insertion.  [tls_setup] registers the netlink
    transport and empties the table, whatever it held; after a live record
    is then filed under its key, that key resolves to it and every other
    key resolves to nothing. *)
Theorem setup_put_get (s : state) (node : loc) (r : tls_sock_data) (k' : Z) :
  socks s !! node = Some r ->
  exists s1 s2,
    tls_setup s = Done tt s1
    /\ put_tls_sock_data (key r) node s1 = Done tt s2
    /\ trace s2 = Ev_register_netlink :: trace s
    /\ get_tls_sock_data (key r) s2 = Done (Some node) s2
    /\ (k' <> key r -> get_tls_sock_data k' s2 = Done None s2).
Proof.
  intros Hr. eexists _, _.
  split; [reflexivity|]. split; [reflexivity|]. split; [reflexivity|].
  assert (Hload : forall k,
             get_tls_sock_data k
               (set_table [node] (set_table [] (log Ev_register_netlink s)))
             = Done (if key r =? k then Some node else None)
                 (set_table [node] (set_table [] (log Ev_register_netlink s)))).
  { intros k. rewrite get_tls_sock_data_find. simpl.
    unfold mbind, M_bind, load. simpl. rewrite Hr.
    now destruct (key r =? k). }
  split.
  - specialize (Hload (key r)). rewrite Z.eqb_refl in Hload. exact Hload.
  - intros Hne. specialize (Hload k').
    destruct (Z.eqb_spec (key r) k') as [Heq|_]; [congruence|]. exact Hload.
Qed.

Lemma setup_put_get_witness :
  exists s1 s2,
    tls_setup Cases.two = Done tt s1
    /\ put_tls_sock_data (key Cases.record2) Cases.sd2 s1 = Done tt s2
    /\ trace s2 = Ev_register_netlink :: trace Cases.two
    /\ get_tls_sock_data (key Cases.record2) s2 = Done (Some Cases.sd2) s2
    /\ (Sample.sock <> key Cases.record2 ->
        get_tls_sock_data Sample.sock s2 = Done None s2).
Proof.
  apply (setup_put_get Cases.two Cases.sd2 Cases.record2 Sample.sock).
  reflexivity.
Defined.
